(** * Google-places connector: retry orchestration, set composition and
      coverage planning

    A shallow embedding of [google_api_connector.py].  Coroutines become
    functions in a state-and-exception monad over an explicit [World]:
    the dataset store, the place-details store, the remote provider (an
    oracle indexed by the number of requests already sent), the plan
    store and a trace of the effects performed so far.

    Typing conventions.  JSON documents are [Value]s; numbers are
    integers (floats only occur as coordinates and delays, which are
    rationals).  Python dictionaries are insertion-ordered association
    lists ([Dict]).  A dataset and a feature are dictionaries with the
    keys of [GeoJson] and [Feature] in [response_dtypes.py]; an absent
    key is [None].  [asyncio.gather] runs its tasks one after another. *)

From Stdlib Require Import String Ascii List ZArith QArith_base Bool Lia.
From Stdlib Require Import DecimalString.
Import ListNotations.
Local Open Scope string_scope.
Local Open Scope Z_scope.
Local Open Scope list_scope.

Set Implicit Arguments.
Set Warnings "-register-all,-notation-for-abbreviation".

(* ------------------------------------------------------------------ *)
(** ** Python values *)

Inductive Value : Type :=
| VNone
| VBool (b : bool)
| VInt (z : Z)
| VStr (s : string)
| VList (l : list Value)
| VDict (d : list (string * Value)).

(** Insertion-ordered dictionary with string keys. *)
Definition Dict (A : Type) : Type := list (string * A).

Fixpoint dict_get {A} (d : Dict A) (k : string) : option A :=
  match d with
  | [] => None
  | (k', v) :: d' => if String.eqb k' k then Some v else dict_get d' k
  end.

(** [d[k] = v]: an existing key keeps its position, a new key goes last. *)
Fixpoint dict_set {A} (d : Dict A) (k : string) (v : A) : Dict A :=
  match d with
  | [] => [(k, v)]
  | (k', v') :: d' =>
      if String.eqb k' k then (k', v) :: d' else (k', v') :: dict_set d' k v
  end.

Definition dict_has {A} (d : Dict A) (k : string) : bool :=
  match dict_get d k with Some _ => true | None => false end.

(** [del d[k]] *)
Definition dict_del {A} (d : Dict A) (k : string) : Dict A :=
  filter (fun kv => negb (String.eqb (fst kv) k)) d.

Definition dict_values {A} (d : Dict A) : list A := map snd d.

(** [d.get(k)]: [None] when the key is absent. *)
Definition get_or_none (d : Dict Value) (k : string) : Value :=
  match dict_get d k with Some v => v | None => VNone end.

(** Truth value of a Python object. *)
Definition truthy (v : Value) : bool :=
  match v with
  | VNone => false
  | VBool b => b
  | VInt z => negb (z =? 0)
  | VStr s => negb (String.eqb s "")
  | VList l => match l with [] => false | _ => true end
  | VDict d => match d with [] => false | _ => true end
  end.

(** Hashable values, up to Python equality ([True == 1]). *)
Inductive Key : Type :=
| KNone
| KInt (z : Z)
| KStr (s : string).

Definition key_of (v : Value) : option Key :=
  match v with
  | VNone => Some KNone
  | VBool b => Some (KInt (if b then 1 else 0))
  | VInt z => Some (KInt z)
  | VStr s => Some (KStr s)
  | VList _ | VDict _ => None
  end.

Definition key_eqb (a b : Key) : bool :=
  match a, b with
  | KNone, KNone => true
  | KInt x, KInt y => x =? y
  | KStr x, KStr y => String.eqb x y
  | _, _ => false
  end.

(** A Python [set] of hashable values, used for membership only. *)
Definition KeySet : Type := list Key.

Definition set_mem (k : Key) (s : KeySet) : bool := existsb (key_eqb k) s.

Definition set_add (k : Key) (s : KeySet) : KeySet :=
  if set_mem k s then s else k :: s.

(** [str(n)] for an integer. *)
Definition str_int (z : Z) : string := NilZero.string_of_int (Z.to_int z).

(* ------------------------------------------------------------------ *)
(** ** Exceptions and the monad *)

Inductive Exn : Type :=
| AttributeError
| TypeError
| KeyError
| IndexError
| UnboundLocalError
| OutOfFuel.

Inductive result (A : Type) : Type :=
| Ok (a : A)
| Raise (e : Exn).

Arguments Ok {A} a.
Arguments Raise {A} e.

Definition M (S A : Type) : Type := S -> result A * S.

Definition ret {S A} (a : A) : M S A := fun s => (Ok a, s).

Definition raise {S A} (e : Exn) : M S A := fun s => (Raise e, s).

Definition bind {S A B} (c : M S A) (k : A -> M S B) : M S B :=
  fun s =>
    match c s with
    | (Ok a, s') => k a s'
    | (Raise e, s') => (Raise e, s')
    end.

Definition lift {S A} (r : result A) : M S A := fun s => (r, s).

Declare Scope conn_scope.
Delimit Scope conn_scope with conn.
Notation "x <- c ;; k" := (bind c (fun x => k))
  (at level 61, c at next level, right associativity) : conn_scope.
Notation "' p <- c ;; k" := (bind c (fun x => let p := x in k))
  (at level 61, p pattern, c at next level, right associativity) : conn_scope.
Notation "c ;; k" := (bind c (fun _ => k))
  (at level 61, right associativity) : conn_scope.
Local Open Scope conn_scope.

(** [for x in xs: acc = body(acc, x)] *)
Fixpoint for_each {S A B} (xs : list A) (acc : B) (body : B -> A -> M S B)
  : M S B :=
  match xs with
  | [] => ret acc
  | x :: xs' => acc' <- body acc x ;; for_each xs' acc' body
  end.

(* ------------------------------------------------------------------ *)
(** ** Requests, payloads, datasets *)

Record Req : Type := {
  lat : Q;
  lng : Q;
  radius : Q;
  boolean_query : string;
  page_token : string;
  action : string;
  search_type : string;
  ids_and_location_only : bool;
  include_rating_info : bool;
  include_only_sub_properties : bool
}.

Definition set_page_token (req : Req) (tok : string) : Req :=
  {| lat := lat req; lng := lng req; radius := radius req;
     boolean_query := boolean_query req; page_token := tok;
     action := action req; search_type := search_type req;
     ids_and_location_only := ids_and_location_only req;
     include_rating_info := include_rating_info req;
     include_only_sub_properties := include_only_sub_properties req |}.

Record Circle : Type := {
  latitude : Q;
  longitude : Q;
  circle_radius : Q
}.

(** The JSON body of a search request: the two shapes the builders
    produce, told apart in the source by the key ["textQuery"]. *)
Inductive Payload : Type :=
| TextSearchBody (textQuery : string) (locationBias : Circle)
| NearbySearchBody (includedTypes excludedTypes : list string)
    (locationRestriction : Circle).

Record Feature : Type := {
  ft_type : option Value;
  ft_geometry : option Value;
  ft_properties : option (Dict Value)
}.

Record Dataset : Type := {
  ds_type : option string;
  ds_features : option (list Feature);
  ds_properties : option (list string)
}.

(** The empty dictionary [{}] used as a dataset. *)
Definition empty_dataset : Dataset :=
  {| ds_type := None; ds_features := None; ds_properties := None |}.

(** Truth value of a dataset dictionary: false exactly for [{}]. *)
Definition ds_truthy (d : Dataset) : bool :=
  match ds_type d, ds_features d, ds_properties d with
  | None, None, None => false
  | _, _, _ => true
  end.

(** Truth value of [Dataset | None]. *)
Definition opt_truthy (o : option Dataset) : bool :=
  match o with Some d => ds_truthy d | None => false end.

(** [data.get("features", [])] and [data.get("properties", [])] *)
Definition features_or_nil (d : Dataset) : list Feature :=
  match ds_features d with Some fs => fs | None => [] end.

Definition properties_or_nil (d : Dataset) : list string :=
  match ds_properties d with Some ps => ps | None => [] end.

(** [feature.get("properties", {}).get("id")] *)
Definition feature_id (f : Feature) : Value :=
  match ft_properties f with
  | Some props => get_or_none props "id"
  | None => VNone
  end.

(* ------------------------------------------------------------------ *)
(** ** Configuration and the provider *)

Record Conf : Type := {
  test_mode : bool;
  api_key : string;
  search_text_url : string;
  nearby_search_url : string;
  place_details_url : string;
  legacy_nearby_search_url : string;
  ggl_details_fields : string;
  ggl_nearby_pro_sku_fields : string;
  ggl_nearby_enterprise_sku_fields : string;
  ggl_txt_search_ids_only_essential : string
}.

Record Response : Type := {
  status : Z;
  body : Value
}.

Inductive Event : Type :=
| ESleep (seconds : Q)
| EPost (url : string) (headers : Dict string) (data : option Payload)
| EGet (url : string) (headers : Dict string)
| ELoadDataset (dataset_id : string)
| EStoreDataset (dataset_id : string) (data : Dataset)
| ELoadDetails (place_id : string)
| EStoreDetails (place_id : string) (details : Value)
| EProcessPlan (plan_name : string) (plan_index : Z)
| ERectifyPlan (plan_name : string) (plan_index : Z) (next_index : Z)
| EMarkPlan (plan_name : string) (plan_index : Z) (has_features : bool).

Record World (PlanStore : Type) : Type := {
  datasets_db : Dict Dataset;
  details_db : Dict Value;
  post_oracle : nat -> string -> Dict string -> option Payload -> Response;
  get_oracle : nat -> string -> Dict string -> Response;
  http_calls : nat;
  plans : PlanStore;
  trace : list Event
}.

Definition MIN_DELAY : Q := 7 # 10.

Definition max_retries : Z := 3.

(** [MIN_DELAY * (2**retry_count)] *)
Definition retry_delay (retry_count : Z) : Q :=
  Qmult MIN_DELAY (inject_Z (2 ^ retry_count)).

(* ------------------------------------------------------------------ *)
(** ** Collaborators outside this module *)

(** Functions imported by the connector: Python built-ins
    ([str] of a float, [int] of a string), the storage key builders,
    the GeoJSON converter, the test fixtures, the boolean-query
    processor and the plan generator.  The plan generator keeps its
    own persistent state, [PlanStore]. *)
Record Externals (PlanStore : Type) : Type := {
  str_float : Q -> string;
  py_int_of_string : string -> option Z;
  make_dataset_filename : Req -> string;
  make_dataset_filename_part : Req -> list string -> list string -> string;
  new_ggl_to_boxmap : Value -> Q -> Dataset;
  convert_strings_to_ints : Dataset -> Dataset;
  get_test_data_for_get_call : string -> Dict string -> Value;
  get_test_data_for_post_call :
    string -> Dict string -> option Payload -> Value;
  separate_boolean_queries : string -> string * string;
  optimize_query_sequence : string -> list (list string * list string);
  text_search_query_sequence : string -> list (list string * list string);
  fetch_lat_lng_bounding_box : Req -> Req;
  process_req_plan :
    Req -> PlanStore -> (Req * string * string * Z * string) * PlanStore;
  rectify_plan : string -> Z -> PlanStore -> (Z * string) * PlanStore;
  mark_plan_result : string -> Z -> bool -> PlanStore -> PlanStore
}.

Section Connector.

Variable PlanStore : Type.
Variable conf : Conf.
Variable ext : Externals PlanStore.

Local Notation W := (World PlanStore).

(** *** Primitive effects *)

Definition emit (e : Event) : M W unit :=
  fun w =>
    (Ok tt,
     {| datasets_db := datasets_db w; details_db := details_db w;
        post_oracle := post_oracle w; get_oracle := get_oracle w;
        http_calls := http_calls w; plans := plans w;
        trace := e :: trace w |}).

(** [await asyncio.sleep(seconds)] *)
Definition sleep (seconds : Q) : M W unit := emit (ESleep seconds).

Definition count_call : M W nat :=
  fun w =>
    (Ok (http_calls w),
     {| datasets_db := datasets_db w; details_db := details_db w;
        post_oracle := post_oracle w; get_oracle := get_oracle w;
        http_calls := S (http_calls w); plans := plans w;
        trace := trace w |}).

(** [session.post(url, headers=headers, json=data)] *)
Definition http_post (url : string) (headers : Dict string)
    (data : option Payload) : M W Response :=
  emit (EPost url headers data) ;;
  n <- count_call ;;
  fun w => (Ok (post_oracle w n url headers data), w).

(** [session.get(url, headers=headers)] *)
Definition http_get (url : string) (headers : Dict string) : M W Response :=
  emit (EGet url headers) ;;
  n <- count_call ;;
  fun w => (Ok (get_oracle w n url headers), w).

(** Modelled from the spec: [storage.load_dataset], absent from the
    sources; [load(fingerprint) -> Dataset | absent] on a store keyed by
    fingerprint. *)
Definition load_dataset (dataset_id : string) : M W (option Dataset) :=
  emit (ELoadDataset dataset_id) ;;
  fun w => (Ok (dict_get (datasets_db w) dataset_id), w).

(** Modelled from the spec: [storage.store_data_resp], absent from the
    sources; [store(fingerprint, Dataset) -> void]. *)
Definition store_data_resp (req : Req) (data : Dataset) (dataset_id : string)
  : M W unit :=
  emit (EStoreDataset dataset_id data) ;;
  fun w =>
    (Ok tt,
     {| datasets_db := dict_set (datasets_db w) dataset_id data;
        details_db := details_db w;
        post_oracle := post_oracle w; get_oracle := get_oracle w;
        http_calls := http_calls w; plans := plans w;
        trace := trace w |}).

(** Modelled from the spec: [storage.load_place_details], absent from
    the sources; [load_place_details(id) -> details | absent]. *)
Definition load_place_details (place_id : string) : M W Value :=
  emit (ELoadDetails place_id) ;;
  fun w =>
    (Ok (match dict_get (details_db w) place_id with
         | Some v => v
         | None => VNone
         end), w).

(** Modelled from the spec: [storage.store_place_details], absent from
    the sources; [store_place_details(id, details)]. *)
Definition store_place_details (place_id : string) (details : Value)
  : M W unit :=
  emit (EStoreDetails place_id details) ;;
  fun w =>
    (Ok tt,
     {| datasets_db := datasets_db w;
        details_db := dict_set (details_db w) place_id details;
        post_oracle := post_oracle w; get_oracle := get_oracle w;
        http_calls := http_calls w; plans := plans w;
        trace := trace w |}).

(** Run a plan-generator function on the plan store. *)
Definition on_plans {A} (f : PlanStore -> A * PlanStore) : M W A :=
  fun w =>
    let (a, p) := f (plans w) in
    (Ok a,
     {| datasets_db := datasets_db w; details_db := details_db w;
        post_oracle := post_oracle w; get_oracle := get_oracle w;
        http_calls := http_calls w; plans := p;
        trace := trace w |}).

(** *** Dynamic operations on values *)

(** [v.get(k, default)] *)
Definition py_get (v : Value) (k : string) (default : Value) : result Value :=
  match v with
  | VDict d => Ok (match dict_get d k with Some x => x | None => default end)
  | _ => Raise AttributeError
  end.

Fixpoint chars (s : string) : list Value :=
  match s with
  | EmptyString => []
  | String c s' => VStr (String c EmptyString) :: chars s'
  end.

(** [for x in v] *)
Definition py_iter (v : Value) : result (list Value) :=
  match v with
  | VList l => Ok l
  | VDict d => Ok (map (fun kv => VStr (fst kv)) d)
  | VStr s => Ok (chars s)
  | _ => Raise TypeError
  end.

(** *** Payload builders *)

Definition build_details_search_payload (place_id : Value)
  : result (string * Dict string) :=
  let feilds := ggl_details_fields conf in
  match place_id with
  | VStr place_id =>
      let ggl_api_url := (place_details_url conf ++ place_id)%string in
      let headers :=
        [("Content-Type", "application/json");
         ("X-Goog-Api-Key", api_key conf);
         ("X-Goog-FieldMask", feilds)] in
      Ok (ggl_api_url, headers)
  | _ => Raise TypeError
  end.

Definition build_text_search_payload (req : Req) (textQuery : string)
  : string * Dict string * Payload :=
  let feilds :=
    if ids_and_location_only req
    then ggl_txt_search_ids_only_essential conf
    else ggl_nearby_pro_sku_fields conf in
  let ggl_api_url := search_text_url conf in
  let headers :=
    [("Content-Type", "application/json");
     ("X-Goog-Api-Key", api_key conf);
     ("X-Goog-FieldMask", (feilds ++ ",nextPageToken")%string)] in
  let data :=
    TextSearchBody textQuery
      {| latitude := lat req; longitude := lng req;
         circle_radius := radius req |} in
  (ggl_api_url, headers, data).

Definition build_category_search_payload (req : Req)
    (include exclude : list string) : string * Dict string * Payload :=
  let feilds :=
    if include_rating_info req
    then ggl_nearby_enterprise_sku_fields conf
    else ggl_nearby_pro_sku_fields conf in
  let ggl_api_url := nearby_search_url conf in
  let data :=
    NearbySearchBody include exclude
      {| latitude := lat req; longitude := lng req;
         circle_radius := radius req |} in
  let headers :=
    [("Content-Type", "application/json");
     ("X-Goog-Api-Key", api_key conf);
     ("X-Goog-FieldMask", feilds)] in
  (ggl_api_url, headers, data).

(** ["&".join(f"{k}={v}" for k, v in params.items() if v is not None)] *)
Fixpoint query_string (params : list (string * option string)) : string :=
  match params with
  | [] => ""
  | (k, None) :: rest => query_string rest
  | (k, Some v) :: rest =>
      match query_string rest with
      | EmptyString => (k ++ "=" ++ v)%string
      | tail => (k ++ "=" ++ v ++ "&" ++ tail)%string
      end
  end.

Definition build_compatible_legacy_payload (ggl_api_url : string)
    (headers : Dict string) (data : option Payload)
  : result (string * Dict string * option Payload) :=
  match data with
  | None => Raise TypeError
  | Some data =>
      let params :=
        match data with
        | TextSearchBody text_query location =>
            [("query", Some text_query);
             ("location",
              Some (str_float ext (latitude location) ++ ","
                    ++ str_float ext (longitude location))%string);
             ("radius", Some (str_float ext (circle_radius location)));
             ("key", dict_get headers "X-Goog-Api-Key")]
        | NearbySearchBody included_types _ location =>
            [("location",
              Some (str_float ext (latitude location) ++ ","
                    ++ str_float ext (longitude location))%string);
             ("radius", Some (str_float ext (circle_radius location)));
             ("key", dict_get headers "X-Goog-Api-Key")]
            ++ match included_types with
               | t :: _ => [("type", Some t)]
               | [] => []
               end
        end in
      let legacy_url :=
        (legacy_nearby_search_url conf ++ "?" ++ query_string params)%string in
      let legacy_headers := [("Content-Type", "application/json")] in
      Ok (legacy_url, legacy_headers, None)
  end.

(** *** The retry state machine *)

(** One of the twenty placeholder records returned on failure. *)
Definition sentinel (response_status : Z) : Value :=
  VDict [("name", VStr ("Faild to retreive data " ++ str_int response_status)%string);
         ("id", VStr "n/a")].

(** The [while retry_count < max_retries] loop of [make_get_api_call]. *)
Fixpoint get_loop (fuel : nat) (retry_count : Z) (ggl_api_url : string)
    (headers : Dict string) : M W Value :=
  match fuel with
  | O => raise OutOfFuel
  | S fuel' =>
      if retry_count <? max_retries then
        sleep MIN_DELAY ;;
        response <- http_get ggl_api_url headers ;;
        if status response =? 200 then ret (body response)
        else
          let retry_count := retry_count + 1 in
          if retry_count <? max_retries then
            sleep (retry_delay retry_count) ;;
            get_loop fuel' retry_count ggl_api_url headers
          else ret (VDict [])
      else ret VNone
  end.

Definition make_get_api_call (ggl_api_url : string) (headers : Dict string)
  : M W Value :=
  if test_mode conf then
    ret (get_test_data_for_get_call ext ggl_api_url headers)
  else get_loop 3 0 ggl_api_url headers.

(** The [while retry_count < max_retries] loop of [make_post_api_call];
    the loop state is [retry_count], [use_legacy] and the request. *)
Fixpoint post_loop (fuel : nat) (retry_count : Z) (use_legacy : bool)
    (ggl_api_url : string) (headers : Dict string) (data : option Payload)
  : M W Value :=
  match fuel with
  | O => raise OutOfFuel
  | S fuel' =>
      if retry_count <? max_retries then
        sleep MIN_DELAY ;;
        response <- http_post ggl_api_url headers data ;;
        if status response =? 200 then
          lift (py_get (body response) "places" (VList []))
        else
          let retry_count := retry_count + 1 in
          if retry_count <? max_retries then
            sleep (retry_delay retry_count) ;;
            post_loop fuel' retry_count use_legacy ggl_api_url headers data
          else if negb use_legacy then
            let retry_count := retry_count - 2 in
            ' (legacy_url, legacy_headers, legacy_data) <-
              lift (build_compatible_legacy_payload ggl_api_url headers data) ;;
            post_loop fuel' retry_count true
              legacy_url legacy_headers legacy_data
          else ret (VList (repeat (sentinel (status response)) 20))
      else ret VNone
  end.

Definition make_post_api_call (ggl_api_url : string) (headers : Dict string)
    (data : option Payload) : M W Value :=
  if test_mode conf then
    ret (get_test_data_for_post_call ext ggl_api_url headers data)
  else post_loop 5 0 false ggl_api_url headers data.

(** *** Single calls *)

(** The body of [for place in results] in [single_ggl_text_call]. *)
Definition fetch_place_details (detailed_results : list Value) (place : Value)
  : M W (list Value) :=
  place_id <- lift (py_get place "id" VNone) ;;
  ' (ggl_api_url, headers) <- lift (build_details_search_payload place_id) ;;
  match place_id with
  | VStr place_id =>
      details <- load_place_details place_id ;;
      details <-
        (if negb (truthy details) then
           details <- make_get_api_call ggl_api_url headers ;;
           (if truthy details then store_place_details place_id details
            else ret tt) ;;
           ret details
         else ret details) ;;
      ret (detailed_results ++ [details])
  | _ => raise TypeError
  end.

Definition single_ggl_text_call (req : Req) (text_query : string)
    (id : string) : M W (string * Value) :=
  let '(ggl_api_url, headers, body) :=
    build_text_search_payload req text_query in
  results <- make_post_api_call ggl_api_url headers (Some body) ;;
  if ids_and_location_only req then
    places <- lift (py_iter results) ;;
    detailed_results <- for_each places [] fetch_place_details ;;
    ret (id, VList detailed_results)
  else ret (id, results).

Definition single_ggl_cat_call (req : Req) (include exclude : list string)
  : M W Value :=
  let '(ggl_api_url, headers, data) :=
    build_category_search_payload req include exclude in
  make_post_api_call ggl_api_url headers (Some data).

(** *** Set composition, pure part *)

Definition list_truthy {A} (l : list A) : bool :=
  match l with [] => false | _ => true end.

(** [for place in features: ids_to_exclude.add(place...get("id"))] *)
Fixpoint collect_ids (features : list Feature) (ids_to_exclude : KeySet)
  : result KeySet :=
  match features with
  | [] => Ok ids_to_exclude
  | place :: rest =>
      match key_of (feature_id place) with
      | Some k => collect_ids rest (set_add k ids_to_exclude)
      | None => Raise TypeError
      end
  end.

(** [for place in features: if place_id not in ids_to_exclude: append] *)
Fixpoint remove_excluded (features : list Feature) (ids_to_exclude : KeySet)
    (filtered_places : list Feature) : result (list Feature) :=
  match features with
  | [] => Ok filtered_places
  | place :: rest =>
      match key_of (feature_id place) with
      | Some place_id =>
          if negb (set_mem place_id ids_to_exclude)
          then remove_excluded rest ids_to_exclude (filtered_places ++ [place])
          else remove_excluded rest ids_to_exclude filtered_places
      | None => Raise TypeError
      end
  end.

(** [x.get("features")], then iteration: [None] is not iterable. *)
Definition features_or_raise (d : Dataset) : result (list Feature) :=
  match ds_features d with
  | Some fs => Ok fs
  | None => Raise TypeError
  end.

(** The subtraction of the exclude dataset from the include dataset. *)
Definition subtract_dataset (include_dataset exclude_dataset : Dataset)
  : result (list Feature) :=
  match features_or_raise exclude_dataset with
  | Raise e => Raise e
  | Ok excluded =>
      match collect_ids excluded [] with
      | Raise e => Raise e
      | Ok ids_to_exclude =>
          match features_or_raise include_dataset with
          | Raise e => Raise e
          | Ok included => remove_excluded included ids_to_exclude []
          end
      end
  end.

(** The running state of the union loop: the combined features, the
    combined property names (a set, kept in first-seen order) and
    [seen_ids]. *)
Record Combined : Type := {
  cb_features : list Feature;
  cb_properties : list string;
  seen_ids : KeySet
}.

Definition add_property (props : list string) (p : string) : list string :=
  if existsb (String.eqb p) props then props else props ++ [p].

(** [for feature in features: ...] of the union step *)
Fixpoint add_features (features : list Feature) (acc : list Feature * KeySet)
  : result (list Feature * KeySet) :=
  match features with
  | [] => Ok acc
  | feature :: rest =>
      match feature_id feature with
      | VNone => add_features rest acc
      | fid =>
          match key_of fid with
          | None => Raise TypeError
          | Some k =>
              if negb (set_mem k (snd acc))
              then add_features rest (fst acc ++ [feature], set_add k (snd acc))
              else add_features rest acc
          end
      end
  end.

(** [for data in datasets.values(): ...] of the union step *)
Fixpoint union_loop (datasets : list Dataset) (combined : Combined)
  : result Combined :=
  match datasets with
  | [] => Ok combined
  | data :: rest =>
      let props :=
        fold_left add_property (properties_or_nil data)
          (cb_properties combined) in
      match add_features (features_or_nil data)
              (cb_features combined, seen_ids combined) with
      | Raise e => Raise e
      | Ok (features, seen) =>
          union_loop rest
            {| cb_features := features; cb_properties := props;
               seen_ids := seen |}
      end
  end.

(** The union step shared by both composition functions: from
    [datasets.values()] to the [combined] dictionary. *)
Definition union_datasets (datasets : list Dataset) : result Dataset :=
  match union_loop datasets
          {| cb_features := []; cb_properties := []; seen_ids := [] |} with
  | Raise e => Raise e
  | Ok c =>
      Ok {| ds_type := Some "FeatureCollection";
            ds_features := Some (cb_features c);
            ds_properties := Some (cb_properties c) |}
  end.

(** [if "properties" in feature and "id" in feature["properties"]:
      del feature["properties"]["id"]] *)
Definition delete_id (feature : Feature) : Feature :=
  match ft_properties feature with
  | Some props =>
      if dict_has props "id"
      then {| ft_type := ft_type feature; ft_geometry := ft_geometry feature;
              ft_properties := Some (dict_del props "id") |}
      else feature
  | None => feature
  end.

(** *** Text-search composition *)

Definition process_and_store_to_db (req : Req) (dataset_id : string)
    (query_results : Value) : M W Dataset :=
  let format_response := new_ggl_to_boxmap ext query_results (radius req) in
  let format_response := convert_strings_to_ints ext format_response in
  store_data_resp req format_response dataset_id ;;
  ret format_response.

Definition Terms : Type := (list string * list string)%type.

(** The include-only and the exclude-only look-ups of the first loop
    (the source repeats the block for each): a term set already
    scheduled or already resolved is left alone. *)
Definition resolve_atomic (dataset_id : string) (terms : Terms)
    (st : Dict Dataset * Dict Terms) : M W (Dict Dataset * Dict Terms) :=
  let '(separte_parts_datasets, missing_queries) := st in
  if negb (dict_has missing_queries dataset_id)
     && negb (dict_has separte_parts_datasets dataset_id)
  then
    stored_data <- load_dataset dataset_id ;;
    match stored_data with
    | Some d =>
        if ds_truthy d
        then ret (dict_set separte_parts_datasets dataset_id d, missing_queries)
        else ret (separte_parts_datasets, dict_set missing_queries dataset_id terms)
    | None =>
        ret (separte_parts_datasets, dict_set missing_queries dataset_id terms)
    end
  else ret st.

(** Body of the first [for included_terms, excluded_terms in ...]. *)
Definition lookup_parts (req : Req) (st : Dict Dataset * Dict Terms)
    (q : Terms) : M W (Dict Dataset * Dict Terms) :=
  let '(included_terms, excluded_terms) := q in
  let partial_dataset_id :=
    make_dataset_filename_part ext req included_terms excluded_terms in
  stored_data <- load_dataset partial_dataset_id ;;
  let otherwise :=
    st <- (if list_truthy included_terms
           then resolve_atomic
                  (make_dataset_filename_part ext req included_terms [])
                  (included_terms, []) st
           else ret st) ;;
    (if list_truthy excluded_terms
     then resolve_atomic
            (make_dataset_filename_part ext req [] excluded_terms)
            ([], excluded_terms) st
     else ret st) in
  match stored_data with
  | Some d =>
      if ds_truthy d then ret (dict_set (fst st) partial_dataset_id d, snd st)
      else otherwise
  | None => otherwise
  end.

(** One task of [query_tasks], run by [asyncio.gather]. *)
Definition run_missing_query (req : Req) (responses : list (string * Value))
    (entry : string * Terms) : M W (list (string * Value)) :=
  let '(dataset_id, (included_terms, excluded_terms)) := entry in
  text_query <-
    lift (match included_terms, excluded_terms with
          | t :: _, _ => Ok t
          | [], t :: _ => Ok t
          | [], [] => Raise IndexError
          end) ;;
  response_dict <- single_ggl_text_call req text_query dataset_id ;;
  ret (responses ++ [response_dict]).

(** Body of [for dataset_id, query_results in ....items()]. *)
Definition store_query_result (req : Req) (parts : Dict Dataset)
    (entry : string * Value) : M W (Dict Dataset) :=
  let '(dataset_id, query_results) := entry in
  if truthy query_results then
    format_response <- process_and_store_to_db req dataset_id query_results ;;
    ret (dict_set parts dataset_id format_response)
  else ret parts.

(** [parts.get(id)] if truthy, else [await load_dataset(id)]. *)
Definition part_or_load (separte_parts_datasets : Dict Dataset)
    (dataset_id : string) : M W (option Dataset) :=
  if opt_truthy (dict_get separte_parts_datasets dataset_id)
  then ret (dict_get separte_parts_datasets dataset_id)
  else load_dataset dataset_id.

(** Body of the second loop: rebuild the partial dataset of one
    (included, excluded) tuple from its include and exclude datasets. *)
Definition rebuild_partial (req : Req) (separte_parts_datasets : Dict Dataset)
    (datasets : Dict Dataset) (q : Terms) : M W (Dict Dataset) :=
  let '(included_terms, excluded_terms) := q in
  let include_dataset_id :=
    make_dataset_filename_part ext req included_terms [] in
  let exclude_dataset_id :=
    make_dataset_filename_part ext req [] excluded_terms in
  include_dataset <- part_or_load separte_parts_datasets include_dataset_id ;;
  exclude_dataset <- part_or_load separte_parts_datasets exclude_dataset_id ;;
  let partial_dataset_id :=
    make_dataset_filename_part ext req included_terms excluded_terms in
  match include_dataset with
  | Some inc =>
      if ds_truthy inc then
        match exclude_dataset with
        | Some exc =>
            if ds_truthy exc then
              filtered_places <- lift (subtract_dataset inc exc) ;;
              if list_truthy filtered_places then
                let filtered_include_dataset :=
                  {| ds_type := Some "FeatureCollection";
                     ds_features := Some filtered_places;
                     ds_properties := Some (properties_or_nil inc) |} in
                store_data_resp req filtered_include_dataset
                  partial_dataset_id ;;
                ret (dict_set datasets partial_dataset_id
                       filtered_include_dataset)
              else ret datasets
            else ret (dict_set datasets partial_dataset_id inc)
        | None => ret (dict_set datasets partial_dataset_id inc)
        end
      else ret (dict_set datasets partial_dataset_id empty_dataset)
  | None => ret (dict_set datasets partial_dataset_id empty_dataset)
  end.

(** From the union step to the end of both composition functions;
    [strip] tells whether the [id] property is deleted afterwards. *)
Definition combine_and_store (req : Req) (combined_dataset_id : string)
    (datasets : Dict Dataset) (strip : bool) : M W Dataset :=
  combined <- lift (union_datasets (dict_values datasets)) ;;
  if list_truthy (features_or_nil combined) then
    store_data_resp req combined combined_dataset_id ;;
    if strip then
      ret {| ds_type := ds_type combined;
             ds_features := Some (map delete_id (features_or_nil combined));
             ds_properties := ds_properties combined |}
    else ret combined
  else ret combined.

(** [fetch_text_search_ggl_maps_api] after the miss on the combined
    fingerprint. *)
Definition compose_text_search (req : Req) (optimized_queries : list Terms)
    (combined_dataset_id : string) : M W Dataset :=
  ' (separte_parts_datasets, missing_queries) <-
    for_each optimized_queries ([], []) (lookup_parts req) ;;
  separte_parts_datasets <-
    (if list_truthy missing_queries then
       all_missing_responses <-
         for_each missing_queries [] (run_missing_query req) ;;
       let all_missing_query_results :=
         fold_left (fun d kv => dict_set d (fst kv) (snd kv))
           all_missing_responses [] in
       for_each all_missing_query_results separte_parts_datasets
         (store_query_result req)
     else ret separte_parts_datasets) ;;
  datasets <-
    for_each optimized_queries []
      (rebuild_partial req separte_parts_datasets) ;;
  combine_and_store req combined_dataset_id datasets
    (negb (ids_and_location_only req)).

Definition fetch_text_search_ggl_maps_api (req : Req)
    (optimized_queries : list Terms) : M W Dataset :=
  let combined_dataset_id := make_dataset_filename ext req in
  existing_combined_data <- load_dataset combined_dataset_id ;;
  match existing_combined_data with
  | Some d =>
      if ds_truthy d then ret d
      else compose_text_search req optimized_queries combined_dataset_id
  | None => compose_text_search req optimized_queries combined_dataset_id
  end.

(** *** Category-search composition *)

(** Body of the first loop of [fetch_cat_google_maps_api]. *)
Definition lookup_full (req : Req)
    (st : Dict Dataset * list (string * list string * list string))
    (q : Terms)
  : M W (Dict Dataset * list (string * list string * list string)) :=
  let '(included_types, excluded_types) := q in
  let full_dataset_id :=
    make_dataset_filename_part ext req included_types excluded_types in
  stored_data <- load_dataset full_dataset_id ;;
  match stored_data with
  | Some d =>
      if ds_truthy d then ret (dict_set (fst st) full_dataset_id d, snd st)
      else ret (fst st,
                snd st ++ [(full_dataset_id, included_types, excluded_types)])
  | None =>
      ret (fst st,
           snd st ++ [(full_dataset_id, included_types, excluded_types)])
  end.

(** One task of [query_tasks], run by [asyncio.gather]. *)
Definition run_cat_query (req : Req) (results : list Value)
    (entry : string * list string * list string) : M W (list Value) :=
  let '(_, included_types, excluded_types) := entry in
  r <- single_ggl_cat_call req included_types excluded_types ;;
  ret (results ++ [r]).

(** Body of [for (dataset_id, _, _), query_results in zip(...)]. *)
Definition store_cat_result (req : Req) (datasets : Dict Dataset)
    (entry : (string * list string * list string) * Value)
  : M W (Dict Dataset) :=
  let '((dataset_id, _, _), query_results) := entry in
  if truthy query_results then
    format_response <- process_and_store_to_db req dataset_id query_results ;;
    ret (dict_set datasets dataset_id format_response)
  else ret datasets.

(** [fetch_cat_google_maps_api] after the miss on the combined
    fingerprint. *)
Definition compose_cat_search (req : Req) (optimized_queries : list Terms)
    (combined_dataset_id : string) : M W Dataset :=
  ' (datasets, missing_queries) <-
    for_each optimized_queries ([], []) (lookup_full req) ;;
  datasets <-
    (if list_truthy missing_queries then
       all_query_results <-
         for_each missing_queries [] (run_cat_query req) ;;
       for_each (combine missing_queries all_query_results) datasets
         (store_cat_result req)
     else ret datasets) ;;
  combine_and_store req combined_dataset_id datasets false.

Definition fetch_cat_google_maps_api (req : Req)
    (optimized_queries : list Terms) : M W Dataset :=
  let combined_dataset_id := make_dataset_filename ext req in
  existing_combined_data <- load_dataset combined_dataset_id ;;
  match existing_combined_data with
  | Some d =>
      if ds_truthy d then ret d
      else compose_cat_search req optimized_queries combined_dataset_id
  | None => compose_cat_search req optimized_queries combined_dataset_id
  end.

(** *** Result filters *)

(** [int(v)]: [Ok None] stands for the [ValueError] the caller catches. *)
Definition py_int (v : Value) : result (option Z) :=
  match v with
  | VBool b => Ok (Some (if b then 1 else 0))
  | VInt z => Ok (Some z)
  | VStr s => Ok (py_int_of_string ext s)
  | VNone | VList _ | VDict _ => Raise TypeError
  end.

(** [v > n] for an integer literal [n]. *)
Definition py_gt_int (v : Value) (n : Z) : result bool :=
  match v with
  | VBool b => Ok ((if b then 1 else 0) >? n)
  | VInt z => Ok (z >? n)
  | _ => Raise TypeError
  end.

(** The test applied to one feature by
    [filter_ggl_data_valid_locations]. *)
Definition valid_location (req : Req) (feature : Feature) : result bool :=
  let properties :=
    match ft_properties feature with Some p => p | None => [] end in
  if include_rating_info req then
    let user_ratings :=
      match dict_get properties "user_ratings_total" with
      | Some v => v | None => VStr "" end in
    let phone :=
      match dict_get properties "phone" with
      | Some v => v | None => VStr "" end in
    match (if truthy user_ratings then py_int user_ratings
           else Ok (Some 0)) with
    | Raise e => Raise e
    | Ok rating_count =>
        let rating_count :=
          match rating_count with Some n => n | None => 0 end in
        Ok ((rating_count >? 3) || truthy phone)
    end
  else
    let photos :=
      match dict_get properties "photos" with
      | Some v => v | None => VList [] end in
    match (if negb (truthy photos)
           then py_get
                  (match dict_get properties "googleMapsLinks" with
                   | Some v => v | None => VDict [] end)
                  "photosUri" (VStr "")
           else Ok photos) with
    | Raise e => Raise e
    | Ok photos =>
        let popularity_score :=
          match dict_get properties "popularity_score" with
          | Some v => v | None => VInt 0 end in
        if truthy photos then
          match photos with
          | VStr _ | VList _ | VDict _ => Ok true
          | _ => Raise TypeError
          end
        else py_gt_int popularity_score 100
    end.

Fixpoint filter_valid (req : Req) (features filtered_features : list Feature)
  : result (list Feature) :=
  match features with
  | [] => Ok filtered_features
  | feature :: rest =>
      match valid_location req feature with
      | Raise e => Raise e
      | Ok true => filter_valid req rest (filtered_features ++ [feature])
      | Ok false => filter_valid req rest filtered_features
      end
  end.

Definition filter_ggl_data_valid_locations (req : Req) (dataset : Dataset)
  : result Dataset :=
  match filter_valid req (features_or_nil dataset) [] with
  | Raise e => Raise e
  | Ok filtered_features =>
      Ok {| ds_type :=
              Some (match ds_type dataset with
                    | Some t => t
                    | None => "FeatureCollection"
                    end);
            ds_features := Some filtered_features;
            ds_properties := ds_properties dataset |}
  end.

Definition sub_property_fields : list string :=
  ["displayName"; "rating"; "formattedAddress"; "internationalPhoneNumber";
   "types"; "priceLevel"; "primaryType"; "userRatingCount"; "location";
   "name"; "id"].

(** [for field in fields: if field in props: out[field] = props[field]] *)
Definition project (feature_properties : Dict Value) : Dict Value :=
  fold_left
    (fun out field =>
       match dict_get feature_properties field with
       | Some v => dict_set out field v
       | None => out
       end)
    sub_property_fields [].

Definition select_sub_properties (dataset : Dataset) : Dataset :=
  let filtered_features :=
    map (fun feature =>
           {| ft_type :=
                Some (match ft_type feature with
                      | Some t => t
                      | None => VStr "Feature"
                      end);
              ft_geometry :=
                Some (match ft_geometry feature with
                      | Some g => g
                      | None => VNone
                      end);
              ft_properties :=
                Some (project (match ft_properties feature with
                               | Some p => p
                               | None => []
                               end)) |})
      (features_or_nil dataset) in
  {| ds_type := ds_type dataset;
     ds_features := Some filtered_features;
     ds_properties := ds_properties dataset |}.

(** *** Query dispatch *)

(** [needle in hay] on strings. *)
Fixpoint contains (needle hay : string) : bool :=
  String.prefix needle hay
  || match hay with
     | EmptyString => false
     | String _ hay' => contains needle hay'
     end.

Definition query_ggl (req : Req) (search_type : string) : M W Dataset :=
  let '(cat_boolean, kw_boolean) :=
    separate_boolean_queries ext (boolean_query req) in
  dataset <-
    (if contains "default" search_type
        || contains "category_search" search_type
     then
       d <- fetch_cat_google_maps_api req
              (optimize_query_sequence ext cat_boolean) ;;
       ret (Some d)
     else ret None) ;;
  dataset <-
    (if contains "keyword_search" search_type then
       d <- fetch_text_search_ggl_maps_api req
              (text_search_query_sequence ext kw_boolean) ;;
       ret (Some d)
     else ret dataset) ;;
  match dataset with
  | Some d => ret d
  | None => raise UnboundLocalError
  end.

(** *** Coverage planner *)

(** Local variables of [fetch_ggl_nearby]; [None] is "not yet bound". *)
Record PlanVars : Type := {
  pv_req : Req;
  pv_plan_name : string;
  pv_next_plan_index : Z;
  pv_current_plan_index : Z;
  pv_next_page_token : option string;
  pv_bknd_dataset_id : option string;
  pv_dataset : option Dataset
}.

Record NearbyResult : Type := {
  nr_dataset : Dataset;
  nr_bknd_dataset_id : string;
  nr_next_page_token : string;
  nr_plan_name : string;
  nr_next_plan_index : Z
}.

Definition call_rectify_plan (plan_name : string) (current_plan_index : Z)
  : M W (Z * string) :=
  r <- on_plans (rectify_plan ext plan_name current_plan_index) ;;
  emit (ERectifyPlan plan_name current_plan_index (fst r)) ;;
  ret r.

Definition call_mark_plan_result (plan_name : string)
    (current_plan_index : Z) (has_features : bool) : M W unit :=
  on_plans (fun p =>
              (tt, mark_plan_result ext plan_name current_plan_index
                     has_features p)) ;;
  emit (EMarkPlan plan_name current_plan_index has_features).

(** One round of [for _ in range(30)]; the flag tells whether the round
    ended in [break]. *)
Definition plan_iteration (search_type : string) (v : PlanVars)
  : M W (bool * PlanVars) :=
  let req := pv_req v in
  let next_page_token := page_token req in
  ' (req, plan_name, next_page_token, current_plan_index) <-
    (if String.eqb (action req) "full data" then
       r <- on_plans (process_req_plan ext req) ;;
       let '(req', plan_name, next_page_token, current_plan_index, _) := r in
       emit (EProcessPlan plan_name current_plan_index) ;;
       ret (req', plan_name, next_page_token, current_plan_index)
     else
       ret (fetch_lat_lng_bounding_box ext req, pv_plan_name v,
            next_page_token, pv_current_plan_index v)) ;;
  let bknd_dataset_id := make_dataset_filename ext req in
  dataset <- query_ggl req search_type ;;
  let bound (req : Req) (next_plan_index : Z) (next_page_token : string) :=
    {| pv_req := req; pv_plan_name := plan_name;
       pv_next_plan_index := next_plan_index;
       pv_current_plan_index := current_plan_index;
       pv_next_page_token := Some next_page_token;
       pv_bknd_dataset_id := Some bknd_dataset_id;
       pv_dataset := Some dataset |} in
  if String.eqb (action req) "full data" then
    if ds_truthy dataset then
      if Nat.eqb (length (features_or_nil dataset)) 0 then
        r <- call_rectify_plan plan_name current_plan_index ;;
        let '(next_plan_index, next_page_token) := r in
        if next_plan_index =? -1
        then ret (true, bound req next_plan_index next_page_token)
        else ret (false,
                  bound (set_page_token req next_page_token)
                    next_plan_index next_page_token)
      else ret (true, bound req (pv_next_plan_index v) next_page_token)
    else ret (false, bound req (pv_next_plan_index v) next_page_token)
  else
    ret (String.eqb (action req) "sample",
         bound req (pv_next_plan_index v) next_page_token).

Fixpoint plan_loop (rounds : nat) (search_type : string) (v : PlanVars)
  : M W PlanVars :=
  match rounds with
  | O => ret v
  | S rounds' =>
      r <- plan_iteration search_type v ;;
      if fst r then ret (snd r) else plan_loop rounds' search_type (snd r)
  end.

(** [feature["properties"].get("id") != "n/a"] *)
Definition not_sentinel (props : Dict Value) : bool :=
  match get_or_none props "id" with
  | VStr s => negb (String.eqb s "n/a")
  | _ => true
  end.

Fixpoint strip_sentinels (features filtered_features : list Feature)
  : result (list Feature) :=
  match features with
  | [] => Ok filtered_features
  | feature :: rest =>
      match ft_properties feature with
      | None => Raise KeyError
      | Some props =>
          if not_sentinel props
          then strip_sentinels rest (filtered_features ++ [feature])
          else strip_sentinels rest filtered_features
      end
  end.

(** [fetch_ggl_nearby] from the end of the loop to [return]. *)
Definition after_loop (v : PlanVars) : M W NearbyResult :=
  match pv_dataset v, pv_next_page_token v, pv_bknd_dataset_id v with
  | Some dataset, Some next_page_token, Some bknd_dataset_id =>
      let req := pv_req v in
      let plan_name := pv_plan_name v in
      let current_plan_index := pv_current_plan_index v in
      r <-
        (if String.eqb (action req) "full data"
            && ds_truthy dataset
            && Nat.ltb (length (features_or_nil dataset)) 20
         then call_rectify_plan plan_name current_plan_index
         else ret (pv_next_plan_index v, next_page_token)) ;;
      let '(next_plan_index, next_page_token) := r in
      let next_plan_index :=
        if current_plan_index + 1 >? next_plan_index
        then current_plan_index + 1
        else next_plan_index in
      filtered_features <-
        lift (strip_sentinels (features_or_nil dataset) []) ;;
      let dataset :=
        {| ds_type := ds_type dataset;
           ds_features := Some filtered_features;
           ds_properties := ds_properties dataset |} in
      (if String.eqb (action req) "full data" && ds_truthy dataset then
         let has_features :=
           Nat.ltb 0 (length (features_or_nil dataset)) in
         call_mark_plan_result plan_name current_plan_index has_features
       else ret tt) ;;
      dataset <-
        (if String.eqb (action req) "full data"
         then lift (filter_ggl_data_valid_locations req dataset)
         else ret dataset) ;;
      let dataset :=
        if include_only_sub_properties req
        then select_sub_properties dataset
        else dataset in
      ret {| nr_dataset := dataset;
             nr_bknd_dataset_id := bknd_dataset_id;
             nr_next_page_token := next_page_token;
             nr_plan_name := plan_name;
             nr_next_plan_index := next_plan_index |}
  | _, _, _ => raise UnboundLocalError
  end.

(** The local variables on entry. *)
Definition initial_vars (req : Req) : PlanVars :=
  {| pv_req := req; pv_plan_name := "";
     pv_next_plan_index := 0; pv_current_plan_index := 0;
     pv_next_page_token := None; pv_bknd_dataset_id := None;
     pv_dataset := None |}.

Definition fetch_ggl_nearby (req : Req) : M W NearbyResult :=
  let search_type := search_type req in
  v <- plan_loop 30 search_type (initial_vars req) ;;
  after_loop v.

End Connector.

(* ------------------------------------------------------------------ *)
(** ** Reading a trace *)

(** The events performed between two worlds, oldest first. *)
Definition performed {P} (w w' : World P) (events : list Event) : Prop :=
  trace w' = rev events ++ trace w.

(** A request sent with the primary protocol carries a JSON body. *)
Definition is_primary_post (e : Event) : bool :=
  match e with EPost _ _ (Some _) => true | _ => false end.

(** A request rewritten by [build_compatible_legacy_payload] has none. *)
Definition is_legacy_post (e : Event) : bool :=
  match e with EPost _ _ None => true | _ => false end.

Definition is_http (e : Event) : bool :=
  match e with EPost _ _ _ | EGet _ _ => true | _ => false end.

(** Events that write to one of the stores. *)
Definition is_store_event (e : Event) : bool :=
  match e with EStoreDataset _ _ | EStoreDetails _ _ => true | _ => false end.

Definition count_events (p : Event -> bool) (events : list Event) : nat :=
  length (filter p events).

(** The effect of one event on the stores, the request counter and
    the trace.  Plan events only show in the trace. *)
Definition replay_event {P} (w : World P) (e : Event) : World P :=
  {| datasets_db :=
       match e with
       | EStoreDataset dataset_id data =>
           dict_set (datasets_db w) dataset_id data
       | _ => datasets_db w
       end;
     details_db :=
       match e with
       | EStoreDetails place_id details =>
           dict_set (details_db w) place_id details
       | _ => details_db w
       end;
     post_oracle := post_oracle w; get_oracle := get_oracle w;
     http_calls :=
       match e with
       | EPost _ _ _ | EGet _ _ => S (http_calls w)
       | _ => http_calls w
       end;
     plans := plans w;
     trace := e :: trace w |}.

(** The world after the given events, oldest first. *)
Definition replay {P} (w : World P) (events : list Event) : World P :=
  fold_left replay_event events w.

(** What the place-details store answers for a place identifier. *)
Definition cached_details {P} (w : World P) (place_id : string) : Value :=
  match dict_get (details_db w) place_id with
  | Some v => v
  | None => VNone
  end.

(** The identifier of a feature as a set element; [None] when it cannot
    be hashed. *)
Definition fkey (f : Feature) : option Key := key_of (feature_id f).

Definition has_key (k : Key) (f : Feature) : bool :=
  match fkey f with
  | Some k' => key_eqb k' k
  | None => false
  end.

(** The first feature of a list that carries the identifier [k]. *)
Definition first_with (k : Key) (l : list Feature) : option Feature :=
  find (has_key k) l.

(** All the features of [datasets.values()], in iteration order. *)
Definition all_features (datasets : list Dataset) : list Feature :=
  concat (map features_or_nil datasets).

(** The invariant of the union loop once the features [processed] have
    been visited. *)
Record union_inv (processed feats : list Feature) (seen : KeySet) : Prop := {
  inv_ids : forall f, In f feats -> feature_id f <> VNone;
  inv_nodup : NoDup (map fkey feats);
  inv_seen : forall k, In k seen <-> In (Some k) (map fkey feats);
  inv_first :
    forall f, In f feats ->
      exists k, fkey f = Some k /\ first_with k processed = Some f;
  inv_covered :
    forall g, In g processed -> feature_id g <> VNone ->
      exists k, fkey g = Some k /\ In k seen
}.

(** A provider that never answers 200 to a POST, resp. to a GET. *)
Definition post_always_fails (P : Type) (w : World P) : Prop :=
  forall n url headers data, status (post_oracle w n url headers data) <> 200.

Definition get_always_fails (P : Type) (w : World P) : Prop :=
  forall n url headers, status (get_oracle w n url headers) <> 200.

(** The events of an exhausted [make_post_api_call]. *)
Definition exhausted_post_events (url : string) (headers : Dict string)
    (data : Payload) (legacy_url : string) (legacy_headers : Dict string)
  : list Event :=
  [ESleep MIN_DELAY; EPost url headers (Some data); ESleep (retry_delay 1);
   ESleep MIN_DELAY; EPost url headers (Some data); ESleep (retry_delay 2);
   ESleep MIN_DELAY; EPost url headers (Some data);
   ESleep MIN_DELAY; EPost legacy_url legacy_headers None;
   ESleep (retry_delay 2);
   ESleep MIN_DELAY; EPost legacy_url legacy_headers None].

(** The events of an exhausted [make_get_api_call]. *)
Definition exhausted_get_events (url : string) (headers : Dict string)
  : list Event :=
  [ESleep MIN_DELAY; EGet url headers; ESleep (retry_delay 1);
   ESleep MIN_DELAY; EGet url headers; ESleep (retry_delay 2);
   ESleep MIN_DELAY; EGet url headers].

(** A world in which the place-details store has no usable entry. *)
Definition no_usable_details (P : Type) (w : World P) : Prop :=
  forall place_id, truthy (cached_details w place_id) = false.

Definition has_string_id (place : Value) : Prop :=
  exists d place_id, place = VDict d /\ dict_get d "id" = Some (VStr place_id).

(** Two features with the same (hashable) [id]. *)
Definition shares_id (f g : Feature) : bool :=
  match fkey f, fkey g with
  | Some a, Some b => key_eqb a b
  | _, _ => false
  end.

(** The [id] of [f] is in the id set of the features [l]. *)
Definition id_among (f : Feature) (l : list Feature) : bool :=
  existsb (shares_id f) l.

Definition hashable_ids (l : list Feature) : Prop :=
  Forall (fun f => fkey f <> None) l.

(** What the second loop finds for an atomic fingerprint: the part held
    in memory when it is truthy, else what the store holds. *)
Definition resolved {P} (w : World P) (parts : Dict Dataset)
    (dataset_id : string) : option Dataset :=
  if opt_truthy (dict_get parts dataset_id)
  then dict_get parts dataset_id
  else dict_get (datasets_db w) dataset_id.

(** The store look-ups this resolution costs. *)
Definition part_loads (parts : Dict Dataset) (dataset_id : string)
  : list Event :=
  if opt_truthy (dict_get parts dataset_id) then []
  else [ELoadDataset dataset_id].

Definition stores_under (dataset_id : string) (e : Event) : bool :=
  match e with
  | EStoreDataset id' _ => String.eqb id' dataset_id
  | _ => false
  end.

Definition is_plan_event (e : Event) : bool :=
  match e with
  | EProcessPlan _ _ | ERectifyPlan _ _ _ | EMarkPlan _ _ _ => true
  | _ => false
  end.

(** The calls made to the plan generator so far, newest first. *)
Definition plan_log {P} (w : World P) : list Event :=
  filter is_plan_event (trace w).

(** The next index returned by the latest [rectify_plan] of a log
    (newest first); [0], the initial value, when there is none. *)
Fixpoint last_rectified (log : list Event) : Z :=
  match log with
  | [] => 0
  | ERectifyPlan _ _ next_index :: _ => next_index
  | _ :: older => last_rectified older
  end.

(** The step index returned by the latest [process_req_plan]. *)
Fixpoint last_planned (log : list Event) : Z :=
  match log with
  | [] => 0
  | EProcessPlan _ plan_index :: _ => plan_index
  | _ :: older => last_planned older
  end.

(** The plan name returned by the latest [process_req_plan]. *)
Fixpoint last_plan_name (log : list Event) : string :=
  match log with
  | [] => ""
  | EProcessPlan plan_name _ :: _ => plan_name
  | _ :: older => last_plan_name older
  end.

(** A computation that never calls the plan generator. *)
Definition quiet {P A} (c : M (World P) A) : Prop :=
  forall w, plan_log (snd (c w)) = plan_log w /\ plans (snd (c w)) = plans w.

(** A feature that is not a sentinel failure record. *)
Definition clean (f : Feature) : Prop :=
  exists props, ft_properties f = Some props /\ not_sentinel props = true.

(** The state of the plan loop against the calls logged since the
    start of the invocation (newest first). *)
Record loop_inv (v : PlanVars) (log : list Event) : Prop := {
  li_action : action (pv_req v) = "full data";
  li_next : pv_next_plan_index v = last_rectified log;
  li_current : pv_current_plan_index v = last_planned log;
  li_name : pv_plan_name v = last_plan_name log;
  li_no_rectify :
    forall raw, pv_dataset v = Some raw -> features_or_nil raw <> [] ->
      exists older,
        log = EProcessPlan (pv_plan_name v) (pv_current_plan_index v) :: older
}.

(** [process_req_plan] hands back a request with the same [action]. *)
Definition keeps_action {P} (ext : Externals P) : Prop :=
  forall req p,
    action (fst (fst (fst (fst (fst (process_req_plan ext req p))))))
    = action req.

(* ------------------------------------------------------------------ *)
(** ** A small concrete environment *)

Module Demo.

Definition conf : Conf :=
  {| test_mode := false;
     api_key := "KEY";
     search_text_url := "https://places/v1/places:searchText";
     nearby_search_url := "https://places/v1/places:searchNearby";
     place_details_url := "https://places/v1/places/";
     legacy_nearby_search_url := "https://maps/api/place/nearbysearch/json";
     ggl_details_fields := "id,location";
     ggl_nearby_pro_sku_fields := "places.id,places.location";
     ggl_nearby_enterprise_sku_fields := "places.id,places.rating";
     ggl_txt_search_ids_only_essential := "places.id" |}.

Definition join_terms (terms : list string) : string :=
  fold_right (fun t acc => (t ++ "," ++ acc)%string) "" terms.

(** One feature per place, carrying the place itself as properties. *)
Definition to_boxmap (places : Value) (r : Q) : Dataset :=
  {| ds_type := Some "FeatureCollection";
     ds_features :=
       Some (match places with
             | VList l =>
                 map (fun place =>
                        {| ft_type := Some (VStr "Feature");
                           ft_geometry := Some VNone;
                           ft_properties :=
                             Some (match place with
                                   | VDict d => d
                                   | _ => []
                                   end) |}) l
             | _ => []
             end);
     ds_properties := Some ["id"; "name"] |}.

(** A plan store that is the index of the current step; rectification
    moves to the next of [steps] steps. *)
Definition ext (steps : Z) : Externals Z :=
  {| str_float := fun q => str_int (Qnum q);
     py_int_of_string := fun _ => None;
     make_dataset_filename := fun req => ("all:" ++ boolean_query req)%string;
     make_dataset_filename_part := fun req inc exc =>
       ("part:" ++ join_terms inc ++ "!" ++ join_terms exc)%string;
     new_ggl_to_boxmap := to_boxmap;
     convert_strings_to_ints := fun d => d;
     get_test_data_for_get_call := fun _ _ => VDict [];
     get_test_data_for_post_call := fun _ _ _ => VList [];
     separate_boolean_queries := fun q => (q, q);
     optimize_query_sequence := fun q => [([q], [])];
     text_search_query_sequence := fun q => [([q], [])];
     fetch_lat_lng_bounding_box := fun req => req;
     process_req_plan := fun req p => ((req, "plan", "", p, "id"), p);
     rectify_plan := fun _ i p =>
       if i + 1 <? steps then ((i + 1, "tok"), i + 1) else ((-1, ""), p);
     mark_plan_result := fun _ _ _ p => p |}.

Definition cafe_body : Payload :=
  TextSearchBody "cafe"
    {| latitude := 24 # 1; longitude := 46 # 1; circle_radius := 1500 # 1 |}.

Definition key_header : Dict string := [("X-Goog-Api-Key", "KEY")].

Definition place (id name : string) : Feature :=
  {| ft_type := Some (VStr "Feature");
     ft_geometry := Some VNone;
     ft_properties := Some [("id", VStr id); ("name", VStr name)] |}.

(** A feature whose property bag has no [id]. *)
Definition nameless : Feature :=
  {| ft_type := Some (VStr "Feature");
     ft_geometry := Some VNone;
     ft_properties := Some [("name", VStr "somewhere")] |}.

Definition cafes : Dataset :=
  {| ds_type := Some "FeatureCollection";
     ds_features := Some [place "p1" "Cafe One"; place "p2" "Cafe Two"];
     ds_properties := Some ["id"; "name"] |}.

Definition drive_thrus : Dataset :=
  {| ds_type := Some "FeatureCollection";
     ds_features := Some [place "p2" "Cafe Two"; nameless;
                          place "p9" "Burger Nine"];
     ds_properties := Some ["id"; "name"; "rating"] |}.

Definition keyword_req (ids_only : bool) : Req :=
  {| lat := 24 # 1; lng := 46 # 1; radius := 1500 # 1;
     boolean_query := "cafe"; page_token := "";
     action := "sample"; search_type := "keyword_search";
     ids_and_location_only := ids_only;
     include_rating_info := false;
     include_only_sub_properties := false |}.

Definition full_data_req : Req :=
  {| lat := 24 # 1; lng := 46 # 1; radius := 1500 # 1;
     boolean_query := "cafe"; page_token := "";
     action := "full data"; search_type := "category_search";
     ids_and_location_only := false;
     include_rating_info := false;
     include_only_sub_properties := false |}.

(** A provider that answers every request with the given status. *)
Definition world (post_status get_status : Z) (db : Dict Dataset) : World Z :=
  {| datasets_db := db;
     details_db := [];
     post_oracle := fun _ _ _ _ =>
       {| status := post_status; body := VDict [] |};
     get_oracle := fun _ _ _ => {| status := get_status; body := VDict [] |};
     http_calls := 0;
     plans := 0;
     trace := [] |}.

(** A place with a photo, which the validity filter keeps. *)
Definition photo_place (id : string) : Feature :=
  {| ft_type := Some (VStr "Feature");
     ft_geometry := Some VNone;
     ft_properties :=
       Some [("id", VStr id); ("photos", VList [VStr "uri"])] |}.

(** A sentinel failure record as a feature. *)
Definition failed_place : Feature :=
  {| ft_type := Some (VStr "Feature");
     ft_geometry := Some VNone;
     ft_properties :=
       Some [("name", VStr "Faild to retreive data 429");
             ("id", VStr "n/a")] |}.

Definition mixed : Dataset :=
  {| ds_type := Some "FeatureCollection";
     ds_features := Some [photo_place "p1"; failed_place; photo_place "p2"];
     ds_properties := Some ["id"; "photos"] |}.

(** A provider that is down, with nothing stored. *)
Definition world_down : World Z := world 429 429 [].

(** The combined fingerprint of [keyword_req] is already stored. *)
Definition world_combined_cached : World Z :=
  world 429 429 [("all:cafe", cafes)].

(** The combined fingerprint holds two places and a sentinel. *)
Definition world_mixed_cached : World Z :=
  world 429 429 [("all:cafe", mixed)].

(** Only the include dataset of ["cafe"] is stored; the provider finds
    nothing. *)
Definition world_include_only : World Z :=
  world 200 200 [("part:cafe,!", cafes)].

(** The include and the exclude datasets are both stored. *)
Definition world_both_parts : World Z :=
  world 200 200 [("part:cafe,!", cafes); ("part:!drive,", drive_thrus)].

(** A provider whose text search finds two places and whose details
    endpoint is down. *)
Definition world_details_down : World Z :=
  {| datasets_db := [];
     details_db := [];
     post_oracle := fun _ _ _ _ =>
       {| status := 200;
          body := VDict [("places",
                          VList [VDict [("id", VStr "p1")];
                                 VDict [("id", VStr "p2")]])] |};
     get_oracle := fun _ _ _ => {| status := 503; body := VDict [] |};
     http_calls := 0;
     plans := 0;
     trace := [] |}.

End Demo.

(** Further worlds and values for concrete runs. *)
Module Cases.

(** What the details endpoint knows about a place. *)
Definition details_p1 : Value :=
  VDict [("id", VStr "p1"); ("displayName", VStr "Cafe One")].

Definition details_headers : Dict string :=
  [("Content-Type", "application/json");
   ("X-Goog-Api-Key", "KEY");
   ("X-Goog-FieldMask", "id,location")].

(** A provider whose text search finds two places and whose details
    endpoint answers. *)
Definition world_details_up : World Z :=
  {| datasets_db := [];
     details_db := [];
     post_oracle := fun _ _ _ _ =>
       {| status := 200;
          body := VDict [("places",
                          VList [VDict [("id", VStr "p1")];
                                 VDict [("id", VStr "p2")]])] |};
     get_oracle := fun _ _ _ => {| status := 200; body := details_p1 |};
     http_calls := 0;
     plans := 0;
     trace := [] |}.

(** The text search finds two places; the details of the first are
    stored and the details endpoint is down. *)
Definition world_details_mixed : World Z :=
  {| datasets_db := [];
     details_db := [("p1", details_p1)];
     post_oracle := fun _ _ _ _ =>
       {| status := 200;
          body := VDict [("places",
                          VList [VDict [("id", VStr "p1")];
                                 VDict [("id", VStr "p2")]])] |};
     get_oracle := fun _ _ _ => {| status := 503; body := VDict [] |};
     http_calls := 0;
     plans := 0;
     trace := [] |}.

(** A stored dataset that has a type and no [features] key. *)
Definition featureless : Dataset :=
  {| ds_type := Some "FeatureCollection";
     ds_features := None;
     ds_properties := None |}.

(** The exclude dataset of ["drive"] is stored without features. *)
Definition world_featureless_exclude : World Z :=
  Demo.world 200 200
    [("part:cafe,!", Demo.cafes); ("part:!drive,", featureless)].

(** A feature without a [properties] key. *)
Definition bare : Feature :=
  {| ft_type := Some (VStr "Feature");
     ft_geometry := Some VNone;
     ft_properties := None |}.

(** The local variables after a round that found a bare feature. *)
Definition vars_bare : PlanVars :=
  {| pv_req := Demo.full_data_req;
     pv_plan_name := "plan";
     pv_next_plan_index := 0;
     pv_current_plan_index := 0;
     pv_next_page_token := Some "";
     pv_bknd_dataset_id := Some "all:cafe";
     pv_dataset :=
       Some {| ds_type := Some "FeatureCollection";
               ds_features := Some [Demo.photo_place "p1"; bare];
               ds_properties := Some ["id"] |} |}.

(** As [Demo.ext], with a rectification that skips two steps. *)
Definition ext_skip : Externals Z :=
  {| str_float := str_float (Demo.ext 3);
     py_int_of_string := py_int_of_string (Demo.ext 3);
     make_dataset_filename := make_dataset_filename (Demo.ext 3);
     make_dataset_filename_part := make_dataset_filename_part (Demo.ext 3);
     new_ggl_to_boxmap := new_ggl_to_boxmap (Demo.ext 3);
     convert_strings_to_ints := convert_strings_to_ints (Demo.ext 3);
     get_test_data_for_get_call := get_test_data_for_get_call (Demo.ext 3);
     get_test_data_for_post_call := get_test_data_for_post_call (Demo.ext 3);
     separate_boolean_queries := separate_boolean_queries (Demo.ext 3);
     optimize_query_sequence := optimize_query_sequence (Demo.ext 3);
     text_search_query_sequence := text_search_query_sequence (Demo.ext 3);
     fetch_lat_lng_bounding_box := fetch_lat_lng_bounding_box (Demo.ext 3);
     process_req_plan := process_req_plan (Demo.ext 3);
     rectify_plan := fun _ i _ => ((i + 3, "tok"), i + 3);
     mark_plan_result := mark_plan_result (Demo.ext 3) |}.

End Cases.

Unset Implicit Arguments.

(* ------------------------------------------------------------------ *)
(** ** Further readings of a run *)

(** The time slept during the given events, in seconds. *)
Fixpoint total_sleep (events : list Event) : Q :=
  match events with
  | [] => 0 # 1
  | ESleep seconds :: rest => Qplus seconds (total_sleep rest)
  | _ :: rest => total_sleep rest
  end.

Definition is_sleep_or_post (e : Event) : bool :=
  match e with ESleep _ | EPost _ _ _ => true | _ => false end.


(** Requests to the details endpoint and accesses to the details store. *)
Definition is_details_traffic (e : Event) : bool :=
  match e with
  | EGet _ _ | ELoadDetails _ | EStoreDetails _ _ => true
  | _ => false
  end.

(** A computation without any details traffic. *)
Definition leaves_details_alone {P A} (c : M (World P) A) : Prop :=
  forall w,
    filter is_details_traffic (trace (snd (c w)))
    = filter is_details_traffic (trace w)
    /\ details_db (snd (c w)) = details_db w.

Definition is_load_event (e : Event) : bool :=
  match e with ELoadDataset _ => true | _ => false end.

(** An entry of [missing_queries]: an atomic fingerprint with the one
    non-empty term list it stands for. *)
Definition atomic_entry {P} (ext : Externals P) (req : Req)
    (entry : string * Terms) : Prop :=
  let '(dataset_id, (included_terms, excluded_terms)) := entry in
  (included_terms <> [] /\ excluded_terms = []
   /\ dataset_id = make_dataset_filename_part ext req included_terms [])
  \/ (included_terms = [] /\ excluded_terms <> []
      /\ dataset_id = make_dataset_filename_part ext req [] excluded_terms).

(** What the first loop of the text-search composition maintains, for a
    store [db]: the parts held are what the store holds, the scheduled
    fingerprints are distinct, absent from the store, and atomic. *)
Record lookup_inv {P} (ext : Externals P) (req : Req) (db : Dict Dataset)
    (parts : Dict Dataset) (missing : Dict Terms) : Prop := {
  lk_parts :
    forall id d, In (id, d) parts ->
      dict_get db id = Some d /\ ds_truthy d = true;
  lk_distinct : NoDup (map fst missing);
  lk_absent :
    forall id, In id (map fst missing) -> opt_truthy (dict_get db id) = false;
  lk_atomic : forall entry, In entry missing -> atomic_entry ext req entry
}.

(** The three answers that a [make_get_api_call] started in [w] gets
    are all failures. *)
Definition get_retries_exhausted {P} (w : World P) (url : string)
    (headers : Dict string) : Prop :=
  forall k, (k < 3)%nat ->
    status (get_oracle w (k + http_calls w)%nat url headers) <> 200.

(** The details loop of [single_ggl_text_call], place by place: started
    in the first world, the places contribute the records, in order,
    and leave the last world.  A place whose stored details are truthy
    contributes them after one look-up.  Any other place contributes
    whatever [make_get_api_call] returns for it, and that is stored
    when it is truthy. *)
Inductive details_run {P} (conf : Conf) (ext : Externals P)
  : World P -> list Value -> list Value -> World P -> Prop :=
| details_done : forall w, details_run conf ext w [] [] w
| details_loaded : forall w d place_id places records w',
    dict_get d "id" = Some (VStr place_id) ->
    truthy (cached_details w place_id) = true ->
    details_run conf ext (replay w [ELoadDetails place_id])
      places records w' ->
    details_run conf ext w (VDict d :: places)
      (cached_details w place_id :: records) w'
| details_fetched : forall w d place_id url headers details w1 places
                           records w',
    dict_get d "id" = Some (VStr place_id) ->
    truthy (cached_details w place_id) = false ->
    build_details_search_payload conf (VStr place_id) = Ok (url, headers) ->
    make_get_api_call conf ext url headers (replay w [ELoadDetails place_id])
    = (Ok details, w1) ->
    details_run conf ext
      (if truthy details
       then replay w1 [EStoreDetails place_id details]
       else w1)
      places records w' ->
    details_run conf ext w (VDict d :: places) (details :: records) w'.

(** What the last round of the plan loop did, read against the
    dataset that round left, sentinels included: it rectified the plan
    exactly when that dataset is a non-empty dict without any feature. *)
Definition exit_test (v : PlanVars) (log : list Event) : Prop :=
  forall raw, pv_dataset v = Some raw ->
    if ds_truthy raw && Nat.eqb (length (features_or_nil raw)) 0
    then exists next older,
           log = ERectifyPlan (pv_plan_name v) (pv_current_plan_index v) next
                 :: EProcessPlan (pv_plan_name v) (pv_current_plan_index v)
                 :: older
    else exists older,
           log = EProcessPlan (pv_plan_name v) (pv_current_plan_index v)
                 :: older.

(** The test of the sentinel filter on a feature that has properties. *)
Definition is_clean (f : Feature) : bool :=
  match ft_properties f with
  | Some props => not_sentinel props
  | None => false
  end.

(** The validity test said yes. *)
Definition passes {P} (ext : Externals P) (req : Req) (f : Feature) : bool :=
  match valid_location ext req f with
  | Ok true => true
  | _ => false
  end.

Definition is_process_plan (e : Event) : bool :=
  match e with EProcessPlan _ _ => true | _ => false end.

Definition is_rectify_plan (e : Event) : bool :=
  match e with ERectifyPlan _ _ _ => true | _ => false end.

Definition is_mark_plan (e : Event) : bool :=
  match e with EMarkPlan _ _ _ => true | _ => false end.

(** A computation that adds at most [n] events of the kind [p]. *)
Definition adds_at_most {P A} (p : Event -> bool) (n : nat)
    (c : M (World P) A) : Prop :=
  forall w,
    (count_events p (trace (snd (c w))) <= n + count_events p (trace w))%nat.

(** The [places] of a 200 answer, as [make_post_api_call] reads them. *)
Definition places_of (response : Response) : result Value :=
  py_get (body response) "places" (VList []).

(* ------------------------------------------------------------------ *)
(** ** The monad *)

Lemma bind_ok {S A B} (c : M S A) (k : A -> M S B) s a s' :
  c s = (Ok a, s') -> bind c k s = k a s'.
Proof. intros H. unfold bind. now rewrite H. Qed.

Arguments bind_ok {S A B c k s a s'} _.

Lemma bind_raise {S A B} (c : M S A) (k : A -> M S B) s e s' :
  c s = (Raise e, s') -> bind c k s = (Raise e, s').
Proof. intros H. unfold bind. now rewrite H. Qed.

Lemma bind_inv {S A B} (c : M S A) (k : A -> M S B) s b s' :
  bind c k s = (Ok b, s') ->
  exists a s1, c s = (Ok a, s1) /\ k a s1 = (Ok b, s').
Proof.
  unfold bind. destruct (c s) as [[a|e] s1]; intros H.
  - now exists a, s1.
  - discriminate.
Qed.

(* ------------------------------------------------------------------ *)
(** ** Replaying events *)

Lemma replay_app {P} (w : World P) e1 e2 :
  replay w (e1 ++ e2) = replay (replay w e1) e2.
Proof. unfold replay. apply fold_left_app. Qed.

Lemma replay_trace {P} events : forall (w : World P),
  trace (replay w events) = rev events ++ trace w.
Proof.
  induction events as [|e events IH]; intros w; [reflexivity|].
  cbn [replay fold_left]. fold (replay (replay_event w e) events).
  rewrite IH. cbn [rev replay_event trace]. now rewrite <- app_assoc.
Qed.

Lemma replay_performed {P} (w : World P) events :
  performed w (replay w events) events.
Proof. apply replay_trace. Qed.

Lemma replay_oracles {P} events : forall (w : World P),
  post_oracle (replay w events) = post_oracle w
  /\ get_oracle (replay w events) = get_oracle w
  /\ plans (replay w events) = plans w.
Proof.
  induction events as [|e events IH]; intros w; [now repeat split|].
  cbn [replay fold_left]. fold (replay (replay_event w e) events).
  destruct (IH (replay_event w e)) as (H1 & H2 & H3).
  rewrite H1, H2, H3. now repeat split.
Qed.

Lemma replay_stores {P} events : forall (w : World P),
  forallb (fun e => negb (is_store_event e)) events = true ->
  datasets_db (replay w events) = datasets_db w
  /\ details_db (replay w events) = details_db w.
Proof.
  induction events as [|e events IH]; intros w Hall; [now split|].
  cbn [forallb] in Hall. apply andb_true_iff in Hall. destruct Hall as [He Hall].
  cbn [replay fold_left]. fold (replay (replay_event w e) events).
  destruct (IH (replay_event w e) Hall) as (H1 & H2). rewrite H1, H2.
  destruct e; cbn in He; try discriminate; now split.
Qed.

(* ------------------------------------------------------------------ *)
(** ** The retry state machine *)

Section Retry.

Variable PlanStore : Type.
Variable conf : Conf.
Variable ext : Externals PlanStore.

Local Notation W := (World PlanStore).

Ltac failed_attempt H :=
  cbn -[build_compatible_legacy_payload MIN_DELAY retry_delay];
  rewrite H.

(** The fuel given to the two retry loops is never exhausted, whatever
    the provider answers. *)
Lemma post_loop_has_fuel fuel :
  forall retry_count (use_legacy : bool) url headers data (w : W),
    (1 <= fuel)%nat ->
    (Z.to_nat (max_retries - retry_count)
     + (if use_legacy then 0 else 2) <= fuel)%nat ->
    fst (post_loop conf ext fuel retry_count use_legacy url headers data w)
    <> Raise OutOfFuel.
Proof.
  unfold max_retries.
  induction fuel as [|fuel IH];
    intros rc legacy url headers data w Hone Hfuel; [lia|].
  cbn [post_loop]. unfold max_retries.
  destruct (rc <? 3) eqn:Hlt; [|discriminate].
  apply Z.ltb_lt in Hlt.
  unfold bind at 1, sleep at 1, emit at 1.
  unfold bind at 1, http_post at 1, bind at 1, emit at 1, bind at 1,
    count_call at 1.
  cbn [http_calls post_oracle].
  match goal with
  | |- context [status ?r =? 200] => destruct (status r =? 200)
  end.
  - unfold lift, py_get. cbn [fst].
    match goal with
    | |- context [body ?r] => destruct (body r); discriminate
    end.
  - destruct (rc + 1 <? 3) eqn:Hnext.
    + apply Z.ltb_lt in Hnext.
      unfold bind at 1, sleep at 1, emit at 1.
      apply IH; destruct legacy; lia.
    + apply Z.ltb_ge in Hnext. destruct legacy; cbn [negb].
      * discriminate.
      * unfold bind at 1, lift at 1.
        unfold build_compatible_legacy_payload.
        destruct data as [payload|]; [|discriminate].
        apply IH; lia.
Qed.

Lemma make_post_api_call_terminates url headers data (w : W) :
  fst (make_post_api_call conf ext url headers data w) <> Raise OutOfFuel.
Proof.
  unfold make_post_api_call. destruct (test_mode conf); [discriminate|].
  apply post_loop_has_fuel; cbn; lia.
Qed.

Lemma get_loop_has_fuel fuel : forall retry_count url headers (w : W),
  (1 <= fuel)%nat ->
  (Z.to_nat (max_retries - retry_count) <= fuel)%nat ->
  fst (get_loop fuel retry_count url headers w) <> Raise OutOfFuel.
Proof.
  unfold max_retries.
  induction fuel as [|fuel IH]; intros rc url headers w Hone Hfuel; [lia|].
  cbn [get_loop]. unfold max_retries.
  destruct (rc <? 3) eqn:Hlt; [|discriminate].
  apply Z.ltb_lt in Hlt.
  unfold bind at 1, sleep at 1, emit at 1.
  unfold bind at 1, http_get at 1, bind at 1, emit at 1, bind at 1,
    count_call at 1.
  cbn [http_calls get_oracle].
  match goal with
  | |- context [status ?r =? 200] => destruct (status r =? 200)
  end.
  - discriminate.
  - destruct (rc + 1 <? 3) eqn:Hnext; [|discriminate].
    apply Z.ltb_lt in Hnext.
    unfold bind at 1, sleep at 1, emit at 1.
    apply IH; lia.
Qed.

Lemma make_get_api_call_terminates url headers (w : W) :
  fst (make_get_api_call conf ext url headers w) <> Raise OutOfFuel.
Proof.
  unfold make_get_api_call. destruct (test_mode conf); [discriminate|].
  apply get_loop_has_fuel; cbn; lia.
Qed.

Lemma post_exhausted (w : W) url headers data :
  test_mode conf = false ->
  post_always_fails w ->
  exists legacy_url legacy_headers st,
    build_compatible_legacy_payload conf ext url headers (Some data)
    = Ok (legacy_url, legacy_headers, None)
    /\ st <> 200
    /\ make_post_api_call conf ext url headers (Some data) w
       = (Ok (VList (repeat (sentinel st) 20)),
          replay w
            (exhausted_post_events url headers data
               legacy_url legacy_headers)).
Proof.
  intros Htest Hfail.
  assert (Hf : forall n u h d,
             (status (post_oracle w n u h d) =? 200) = false)
    by (intros; apply Z.eqb_neq, Hfail).
  do 2 eexists.
  exists (status (post_oracle w (4 + http_calls w)%nat
                    (fst (fst (match build_compatible_legacy_payload conf ext
                                       url headers (Some data) with
                               | Ok x => x
                               | Raise _ => (url, headers, None)
                               end)))
                    [("Content-Type", "application/json")] None)).
  split; [reflexivity|]. split; [apply Hfail|].
  unfold make_post_api_call. rewrite Htest.
  destruct w as [db dd po go n pl tr]. cbn in Hf.
  do 3 failed_attempt Hf.
  do 2 (cbn -[MIN_DELAY retry_delay]; rewrite Hf).
  reflexivity.
Qed.

Lemma get_exhausted (w : W) url headers :
  test_mode conf = false ->
  get_always_fails w ->
  make_get_api_call conf ext url headers w
  = (Ok (VDict []), replay w (exhausted_get_events url headers)).
Proof.
  intros Htest Hfail.
  assert (Hf : forall n u h, (status (get_oracle w n u h) =? 200) = false)
    by (intros; apply Z.eqb_neq, Hfail).
  unfold make_get_api_call. rewrite Htest.
  destruct w as [db dd po go n pl tr]. cbn in Hf.
  do 3 failed_attempt Hf.
  reflexivity.
Qed.

(** C1 (as amended).  Against a provider that answers every attempt with
    a non-200 status, [make_post_api_call] sends the primary request
    exactly three times, rewrites it into the legacy request once, and
    sends the legacy request exactly twice: the retry counter is wound
    back by two, not reset.  A failed attempt that leaves the counter at
    [c < 3] is followed by a sleep of [MIN_DELAY * 2^c]: [2^1] and [2^2]
    after the first two primary attempts, [2^2] after the first legacy
    attempt, and none after the third primary and the second legacy
    attempt. *)
Theorem retry_schedule_of_failing_provider (w : W) url headers data :
  test_mode conf = false ->
  post_always_fails w ->
  exists legacy_url legacy_headers events,
    build_compatible_legacy_payload conf ext url headers (Some data)
    = Ok (legacy_url, legacy_headers, None)
    /\ performed w
         (snd (make_post_api_call conf ext url headers (Some data) w)) events
    /\ events
       = [ESleep MIN_DELAY; EPost url headers (Some data);
          ESleep (retry_delay 1);
          ESleep MIN_DELAY; EPost url headers (Some data);
          ESleep (retry_delay 2);
          ESleep MIN_DELAY; EPost url headers (Some data);
          ESleep MIN_DELAY; EPost legacy_url legacy_headers None;
          ESleep (retry_delay 2);
          ESleep MIN_DELAY; EPost legacy_url legacy_headers None]
    /\ count_events is_primary_post events = 3%nat
    /\ count_events is_legacy_post events = 2%nat.
Proof.
  intros Htest Hfail.
  destruct (post_exhausted w url headers data Htest Hfail)
    as (lu & lh & st & Hlegacy & _ & Hrun).
  exists lu, lh, (exhausted_post_events url headers data lu lh).
  rewrite Hrun. cbn [snd].
  split; [assumption|]. split; [apply replay_performed|]. now repeat split.
Qed.

(** C6.  When the primary and the legacy attempts are all answered with
    a non-200 status, [make_post_api_call] returns, without raising, a
    list of exactly twenty records, each with the placeholder name
    ["Faild to retreive data <status>"] and the identifier ["n/a"]. *)
Theorem exhausted_post_returns_sentinels (w : W) url headers data :
  test_mode conf = false ->
  post_always_fails w ->
  exists st batch,
    fst (make_post_api_call conf ext url headers (Some data) w)
    = Ok (VList batch)
    /\ length batch = 20%nat
    /\ Forall
         (fun place =>
            place
            = VDict [("name",
                      VStr ("Faild to retreive data " ++ str_int st)%string);
                     ("id", VStr "n/a")])
         batch.
Proof.
  intros Htest Hfail.
  destruct (post_exhausted w url headers data Htest Hfail)
    as (lu & lh & st & _ & _ & Hrun).
  exists st, (repeat (sentinel st) 20). rewrite Hrun.
  split; [reflexivity|]. split; [apply repeat_length|].
  apply Forall_forall. intros place Hin.
  now apply repeat_spec in Hin.
Qed.

Lemma post_first_success (w : W) url headers data places :
  test_mode conf = false ->
  post_oracle w (http_calls w) url headers data
  = {| status := 200; body := VDict [("places", places)] |} ->
  make_post_api_call conf ext url headers data w
  = (Ok places, replay w [ESleep MIN_DELAY; EPost url headers data]).
Proof.
  intros Htest Hpost.
  unfold make_post_api_call. rewrite Htest.
  destruct w as [db dd po go n pl tr]. cbn in Hpost.
  cbn -[MIN_DELAY]. rewrite Hpost. reflexivity.
Qed.

Lemma fetch_place_details_exhausted (w : W) acc place :
  test_mode conf = false ->
  get_always_fails w ->
  no_usable_details w ->
  has_string_id place ->
  exists w',
    fetch_place_details conf ext acc place w = (Ok (acc ++ [VDict []]), w')
    /\ get_oracle w' = get_oracle w
    /\ details_db w' = details_db w.
Proof.
  intros Htest Hfail Hnone (d & pid & -> & Hid).
  specialize (Hnone pid). unfold cached_details in Hnone.
  unfold fetch_place_details, load_place_details.
  cbn [py_get lift]. rewrite Hid.
  cbn [bind lift build_details_search_payload emit details_db].
  rewrite Hnone. cbn [negb].
  match goal with
  | |- context [make_get_api_call conf ext ?u ?h] =>
      match goal with
      | |- context [bind _ _ ?w1] =>
          assert (Hg := get_exhausted w1 u h Htest Hfail)
      end
  end.
  unfold bind. rewrite Hg. cbn.
  eexists. split; [reflexivity|]. now split.
Qed.

Lemma details_loop_exhausted places : forall (w : W) acc,
  test_mode conf = false ->
  get_always_fails w ->
  no_usable_details w ->
  Forall has_string_id places ->
  exists w',
    for_each places acc (fetch_place_details conf ext) w
    = (Ok (acc ++ repeat (VDict []) (length places)), w').
Proof.
  induction places as [|place places IH]; intros w acc Htest Hfail Hnone Hall.
  - cbn. rewrite app_nil_r. now eexists.
  - inversion Hall as [|? ? Hplace Hrest]; subst.
    destruct (fetch_place_details_exhausted w acc place Htest Hfail Hnone Hplace)
      as (w1 & Hstep & Hget & Hdb).
    cbn [for_each]. rewrite (bind_ok Hstep).
    destruct (IH w1 (acc ++ [VDict []]) Htest) as (w' & Hloop); auto.
    + intros n u h. rewrite Hget. apply Hfail.
    + intros pid. unfold cached_details. rewrite Hdb. apply Hnone.
    + exists w'. rewrite Hloop. cbn [length repeat].
      now rewrite <- app_assoc.
Qed.

Lemma get_exhausted_from (w : W) url headers :
  test_mode conf = false ->
  get_retries_exhausted w url headers ->
  make_get_api_call conf ext url headers w
  = (Ok (VDict []), replay w (exhausted_get_events url headers)).
Proof.
  intros Htest Hfail.
  unfold make_get_api_call. rewrite Htest.
  destruct w as [db dd po go n pl tr]. unfold get_retries_exhausted in Hfail.
  cbn [get_oracle http_calls] in Hfail.
  assert (H0 : (status (go n url headers) =? 200) = false)
    by (apply Z.eqb_neq, (Hfail 0%nat); lia).
  assert (H1 : (status (go (S n) url headers) =? 200) = false)
    by (apply Z.eqb_neq, (Hfail 1%nat); lia).
  assert (H2 : (status (go (S (S n)) url headers) =? 200) = false)
    by (apply Z.eqb_neq, (Hfail 2%nat); lia).
  failed_attempt H0. failed_attempt H1. failed_attempt H2.
  reflexivity.
Qed.

Lemma make_get_api_call_returns (w : W) url headers :
  test_mode conf = false ->
  exists details w1,
    make_get_api_call conf ext url headers w = (Ok details, w1).
Proof.
  intros Htest. unfold make_get_api_call. rewrite Htest.
  destruct w as [db dd po go n pl tr].
  cbn -[MIN_DELAY retry_delay].
  repeat
    (match goal with
     | |- context [status ?r =? 200] => destruct (status r =? 200)
     end;
     cbn -[MIN_DELAY retry_delay]).
  all: eexists; eexists; reflexivity.
Qed.

(** One round of the details loop, in any world. *)
Lemma fetch_place_details_step (w : W) acc d place_id url headers :
  dict_get d "id" = Some (VStr place_id) ->
  build_details_search_payload conf (VStr place_id) = Ok (url, headers) ->
  (truthy (cached_details w place_id) = true ->
     fetch_place_details conf ext acc (VDict d) w
     = (Ok (acc ++ [cached_details w place_id]),
        replay w [ELoadDetails place_id]))
  /\ (truthy (cached_details w place_id) = false ->
      forall details w1,
        make_get_api_call conf ext url headers
          (replay w [ELoadDetails place_id])
        = (Ok details, w1) ->
        fetch_place_details conf ext acc (VDict d) w
        = (Ok (acc ++ [details]),
           if truthy details
           then replay w1 [EStoreDetails place_id details]
           else w1)).
Proof.
  intros Hid Hbuild. unfold cached_details.
  unfold fetch_place_details, load_place_details.
  cbn [py_get lift]. rewrite Hid.
  cbn [bind lift emit details_db]. rewrite Hbuild.
  cbn [bind lift emit details_db]. split.
  - intros Hhit. rewrite Hhit. reflexivity.
  - intros Hmiss details w1 Hget. rewrite Hmiss. cbn [negb].
    change (replay w [ELoadDetails place_id])
      with {| datasets_db := datasets_db w; details_db := details_db w;
              post_oracle := post_oracle w; get_oracle := get_oracle w;
              http_calls := http_calls w; plans := plans w;
              trace := ELoadDetails place_id :: trace w |} in Hget.
    unfold bind. rewrite Hget.
    destruct (truthy details); reflexivity.
Qed.

Lemma has_string_id_payload place :
  has_string_id place ->
  exists d place_id url headers,
    place = VDict d
    /\ dict_get d "id" = Some (VStr place_id)
    /\ build_details_search_payload conf (VStr place_id) = Ok (url, headers).
Proof.
  intros (d & place_id & -> & Hid).
  exists d, place_id. do 2 eexists. split; [reflexivity|].
  split; [exact Hid | reflexivity].
Qed.

(** The details loop returns, and runs as [details_run] tells. *)
Lemma details_loop_run places : forall (w : W) acc,
  test_mode conf = false ->
  Forall has_string_id places ->
  exists records w',
    for_each places acc (fetch_place_details conf ext) w
    = (Ok (acc ++ records), w')
    /\ details_run conf ext w places records w'
    /\ length records = length places.
Proof.
  induction places as [|place places IH]; intros w acc Htest Hall.
  - exists [], w. cbn [for_each]. rewrite app_nil_r.
    split; [reflexivity|]. split; [constructor | reflexivity].
  - inversion Hall as [|? ? Hplace Hrest]; subst.
    destruct (has_string_id_payload place Hplace)
      as (d & place_id & url & headers & -> & Hid & Hbuild).
    destruct (fetch_place_details_step w acc d place_id url headers Hid Hbuild)
      as [Hhit Hmiss].
    cbn [for_each].
    destruct (truthy (cached_details w place_id)) eqn:Hcached.
    + rewrite (bind_ok (Hhit eq_refl)).
      destruct (IH (replay w [ELoadDetails place_id])
                  (acc ++ [cached_details w place_id]) Htest Hrest)
        as (records & w' & Hloop & Hrun & Hlen).
      exists (cached_details w place_id :: records), w'.
      rewrite Hloop, <- app_assoc.
      split; [reflexivity|].
      split; [now apply details_loaded | cbn [length]; now rewrite Hlen].
    + destruct (make_get_api_call_returns
                  (replay w [ELoadDetails place_id]) url headers Htest)
        as (details & w1 & Hget).
      rewrite (bind_ok (Hmiss eq_refl details w1 Hget)).
      destruct (IH (if truthy details
                    then replay w1 [EStoreDetails place_id details]
                    else w1)
                  (acc ++ [details]) Htest Hrest)
        as (records & w' & Hloop & Hrun & Hlen).
      exists (details :: records), w'.
      rewrite Hloop, <- app_assoc.
      split; [reflexivity|].
      split; [|cbn [length]; now rewrite Hlen].
      now apply (details_fetched conf ext w d place_id url headers details w1).
Qed.

(** C9.  A [make_get_api_call] whose three requests are all answered
    with a failure returns the empty dictionary after exactly those
    three requests: no sentinel records, no legacy request, no
    exception.  Under [ids_and_location_only], [single_ggl_text_call]
    returns one record per place, in order, and each record is what was
    loaded from the store or, failing that, what [make_get_api_call]
    returned; so a place whose details are not stored and whose fetch
    is exhausted contributes an empty record, and when every fetch
    fails and nothing is stored all the records are empty. *)
Theorem failed_details_give_empty_records (w : W) req text_query id places :
  test_mode conf = false ->
  ids_and_location_only req = true ->
  (let '(url, headers, body) := build_text_search_payload conf req text_query in
   post_oracle w (http_calls w) url headers (Some body)
   = {| status := 200; body := VDict [("places", VList places)] |}) ->
  Forall has_string_id places ->
  (forall (w0 : W) url headers,
      get_retries_exhausted w0 url headers ->
      make_get_api_call conf ext url headers w0
      = (Ok (VDict []), replay w0 (exhausted_get_events url headers))
      /\ count_events is_http (exhausted_get_events url headers) = 3%nat)
  /\ (forall (w0 : W) acc d place_id url headers,
        dict_get d "id" = Some (VStr place_id) ->
        build_details_search_payload conf (VStr place_id)
        = Ok (url, headers) ->
        truthy (cached_details w0 place_id) = false ->
        get_retries_exhausted (replay w0 [ELoadDetails place_id])
          url headers ->
        fetch_place_details conf ext acc (VDict d) w0
        = (Ok (acc ++ [VDict []]),
           replay w0
             (ELoadDetails place_id :: exhausted_get_events url headers)))
  /\ exists records w',
       single_ggl_text_call conf ext req text_query id w
       = (Ok (id, VList records), w')
       /\ (let '(url, headers, body) :=
             build_text_search_payload conf req text_query in
           details_run conf ext
             (replay w [ESleep MIN_DELAY; EPost url headers (Some body)])
             places records w')
       /\ length records = length places
       /\ (get_always_fails w -> no_usable_details w ->
             records = repeat (VDict []) (length places)).
Proof.
  intros Htest Hflag Hpost Hall. split; [|split].
  - intros w0 url headers Hfail.
    split; [now apply get_exhausted_from | reflexivity].
  - intros w0 acc d place_id url headers Hid Hbuild Hmiss Hfail.
    destruct (fetch_place_details_step w0 acc d place_id url headers
                Hid Hbuild) as [_ Hstep].
    rewrite (Hstep Hmiss _ _ (get_exhausted_from _ url headers Htest Hfail)).
    reflexivity.
  - unfold single_ggl_text_call. revert Hpost.
    destruct (build_text_search_payload conf req text_query)
      as [[url headers] body].
    intros Hpost. rewrite Hflag.
    rewrite (bind_ok (post_first_success _ _ _ _ _ Htest Hpost)).
    destruct (details_loop_run places
                (replay w [ESleep MIN_DELAY; EPost url headers (Some body)])
                [] Htest Hall)
      as (records & w' & Hloop & Hrun & Hlen).
    cbn [app] in Hloop.
    exists records, w'.
    split; [unfold bind, lift; cbn [py_iter]; now rewrite Hloop|].
    split; [exact Hrun|]. split; [exact Hlen|].
    intros Hfail Hnone.
    destruct (details_loop_exhausted places
                (replay w [ESleep MIN_DELAY; EPost url headers (Some body)])
                [] Htest) as (w'' & Hloop');
      [exact Hfail | exact Hnone | exact Hall |].
    rewrite Hloop in Hloop'. cbn [app] in Hloop'. now inversion Hloop'.
Qed.

End Retry.

(* ------------------------------------------------------------------ *)
(** ** The union step *)

Lemma key_eqb_eq a b : key_eqb a b = true <-> a = b.
Proof.
  destruct a, b; cbn; split; intros H; try discriminate; try reflexivity.
  - apply Z.eqb_eq in H. now subst.
  - inversion H. apply Z.eqb_refl.
  - apply String.eqb_eq in H. now subst.
  - inversion H. apply String.eqb_refl.
Qed.

Lemma set_mem_In k s : set_mem k s = true <-> In k s.
Proof.
  unfold set_mem. rewrite existsb_exists. split.
  - intros (x & Hin & Heq). apply key_eqb_eq in Heq. now subst.
  - intros Hin. exists k. split; [assumption | now apply key_eqb_eq].
Qed.

Lemma set_add_In x k s : In x (set_add k s) <-> x = k \/ In x s.
Proof.
  unfold set_add. destruct (set_mem k s) eqn:Hm.
  - apply set_mem_In in Hm. split; [now right | intros [->|H]; assumption].
  - cbn. split; intros [H|H]; auto.
Qed.

Lemma key_of_none_id v : key_of v = Some KNone -> v = VNone.
Proof. destruct v; cbn; try discriminate; auto. Qed.

Lemma find_app {A} (p : A -> bool) l1 l2 :
  find p (l1 ++ l2)
  = match find p l1 with Some a => Some a | None => find p l2 end.
Proof.
  induction l1 as [|a l1 IH]; cbn; [reflexivity|].
  now destruct (p a).
Qed.

Lemma union_inv_skip_none processed feats seen x :
  feature_id x = VNone ->
  union_inv processed feats seen ->
  union_inv (processed ++ [x]) feats seen.
Proof.
  intros Hx [Hids Hnd Hseen Hfirst Hcov]. split; auto.
  - intros f Hf. destruct (Hfirst f Hf) as (k & Hk & Hfind).
    exists k. split; [assumption|].
    unfold first_with in *. now rewrite find_app, Hfind.
  - intros g Hg Hid. apply in_app_or in Hg. destruct Hg as [Hg|[<-|[]]].
    + now apply Hcov.
    + contradiction.
Qed.

Lemma union_inv_skip_seen processed feats seen x k :
  fkey x = Some k ->
  In k seen ->
  union_inv processed feats seen ->
  union_inv (processed ++ [x]) feats seen.
Proof.
  intros Hx Hk [Hids Hnd Hseen Hfirst Hcov]. split; auto.
  - intros f Hf. destruct (Hfirst f Hf) as (k' & Hk' & Hfind).
    exists k'. split; [assumption|].
    unfold first_with in *. now rewrite find_app, Hfind.
  - intros g Hg Hid. apply in_app_or in Hg. destruct Hg as [Hg|[<-|[]]].
    + now apply Hcov.
    + now exists k.
Qed.

Lemma union_inv_append processed feats seen x k :
  fkey x = Some k ->
  feature_id x <> VNone ->
  ~ In k seen ->
  union_inv processed feats seen ->
  union_inv (processed ++ [x]) (feats ++ [x]) (set_add k seen).
Proof.
  intros Hx Hid Hk [Hids Hnd Hseen Hfirst Hcov].
  assert (Hfresh : first_with k processed = None).
  { unfold first_with. destruct (find (has_key k) processed) as [g|] eqn:Hfind;
      [|reflexivity].
    apply find_some in Hfind. destruct Hfind as [Hg Hkey].
    unfold has_key in Hkey. destruct (fkey g) as [k'|] eqn:Hgk; [|discriminate].
    apply key_eqb_eq in Hkey. subst k'.
    assert (Hgid : feature_id g <> VNone).
    { intros Hnone. unfold fkey in Hgk, Hx. rewrite Hnone in Hgk. cbn in Hgk.
      inversion Hgk; subst k. now apply key_of_none_id in Hx. }
    destruct (Hcov g Hg Hgid) as (k' & Hk' & Hin).
    rewrite Hgk in Hk'. inversion Hk'; subst k'. contradiction. }
  split.
  - intros f Hf. apply in_app_or in Hf. destruct Hf as [Hf|[<-|[]]]; auto.
  - rewrite map_app. cbn [map].
    apply NoDup_rev in Hnd.
    rewrite <- (rev_involutive (map fkey feats ++ [fkey x])).
    apply NoDup_rev. rewrite rev_app_distr. cbn [rev app].
    constructor; [|assumption].
    rewrite <- in_rev, Hx. now rewrite <- Hseen.
  - intros k'. rewrite set_add_In, map_app, in_app_iff, <- Hseen. cbn.
    rewrite Hx. split.
    + intros [->|H]; auto.
    + intros [H|[H|[]]]; auto. inversion H. now left.
  - intros f Hf. apply in_app_or in Hf. destruct Hf as [Hf|[<-|[]]].
    + destruct (Hfirst f Hf) as (k' & Hk' & Hfind).
      exists k'. split; [assumption|].
      unfold first_with in *. now rewrite find_app, Hfind.
    + exists k. split; [assumption|].
      unfold first_with in *. rewrite find_app, Hfresh. cbn.
      unfold has_key. rewrite Hx.
      now rewrite (proj2 (key_eqb_eq k k) eq_refl).
  - intros g Hg Hgid. apply in_app_or in Hg. destruct Hg as [Hg|[<-|[]]].
    + destruct (Hcov g Hg Hgid) as (k' & Hk' & Hin).
      exists k'. split; [assumption|]. apply set_add_In. now right.
    + exists k. split; [assumption|]. apply set_add_In. now left.
Qed.

Lemma add_features_inv features : forall processed feats seen feats' seen',
  add_features features (feats, seen) = Ok (feats', seen') ->
  union_inv processed feats seen ->
  union_inv (processed ++ features) feats' seen'.
Proof.
  induction features as [|x features IH];
    intros processed feats seen feats' seen' Hrun Hinv.
  - cbn in Hrun. inversion Hrun; subst. now rewrite app_nil_r.
  - replace (processed ++ x :: features)
      with ((processed ++ [x]) ++ features)
      by (now rewrite <- app_assoc).
    cbn [add_features] in Hrun.
    destruct (feature_id x) as [|b|z|str|l|d] eqn:Hid;
      try (apply (IH _ _ _ _ _ Hrun);
           now apply union_inv_skip_none);
      cbn [key_of fst snd] in Hrun; try discriminate;
      match type of Hrun with
      | context [set_mem ?k seen] =>
          destruct (set_mem k seen) eqn:Hm; cbn [negb] in Hrun;
          [ apply (IH _ _ _ _ _ Hrun);
            apply (union_inv_skip_seen processed feats seen x k);
            [ unfold fkey; now rewrite Hid
            | now apply set_mem_In
            | assumption ]
          | apply (IH _ _ _ _ _ Hrun);
            apply (union_inv_append processed feats seen x k);
            [ unfold fkey; now rewrite Hid
            | rewrite Hid; discriminate
            | intros Hin; apply set_mem_In in Hin; congruence
            | assumption ] ]
      end.
Qed.

Lemma add_property_In props p q :
  In q (add_property props p) <-> In q props \/ q = p.
Proof.
  unfold add_property. destruct (existsb (String.eqb p) props) eqn:He.
  - apply existsb_exists in He. destruct He as (x & Hx & Heq).
    apply String.eqb_eq in Heq. subst x.
    split; [now left | intros [H| ->]; assumption].
  - rewrite in_app_iff. cbn. split; intros [H|H]; auto.
    + destruct H as [H|[]]; auto.
Qed.

Lemma add_property_NoDup props p : NoDup props -> NoDup (add_property props p).
Proof.
  intros Hnd. unfold add_property.
  destruct (existsb (String.eqb p) props) eqn:He; [assumption|].
  apply NoDup_rev in Hnd.
  rewrite <- (rev_involutive (props ++ [p])).
  apply NoDup_rev. rewrite rev_app_distr. cbn [rev app].
  constructor; [|assumption].
  rewrite <- in_rev. intros Hin.
  assert (existsb (String.eqb p) props = true); [|congruence].
  apply existsb_exists. exists p. split; [assumption | apply String.eqb_refl].
Qed.

Lemma add_properties_spec ps : forall props,
  NoDup props ->
  NoDup (fold_left add_property ps props)
  /\ (forall q, In q (fold_left add_property ps props)
                <-> In q props \/ In q ps).
Proof.
  induction ps as [|p ps IH]; intros props Hnd; cbn.
  - split; [assumption | intros q; tauto].
  - destruct (IH (add_property props p) (add_property_NoDup _ _ Hnd))
      as [Hnd' Hin].
    split; [assumption|].
    intros q. rewrite Hin, add_property_In. intuition congruence.
Qed.

Lemma union_loop_inv datasets : forall seen_before c c',
  union_loop datasets c = Ok c' ->
  union_inv (all_features seen_before) (cb_features c) (seen_ids c) ->
  NoDup (cb_properties c) ->
  union_inv (all_features (seen_before ++ datasets))
    (cb_features c') (seen_ids c')
  /\ NoDup (cb_properties c')
  /\ (forall q, In q (cb_properties c')
                <-> In q (cb_properties c)
                    \/ exists d, In d datasets /\ In q (properties_or_nil d)).
Proof.
  induction datasets as [|data rest IH]; intros before c c' Hrun Hinv Hnd.
  - cbn in Hrun. inversion Hrun; subst. rewrite app_nil_r.
    split; [assumption|]. split; [assumption|].
    intros q. split; [now left | intros [H|(d & [] & _)]; assumption].
  - cbn [union_loop] in Hrun.
    destruct (add_features (features_or_nil data)
                (cb_features c, seen_ids c)) as [[feats seen]|e] eqn:Hadd;
      [|discriminate].
    apply add_features_inv with (processed := all_features before) in Hadd;
      [|assumption].
    destruct (add_properties_spec (properties_or_nil data) _ Hnd)
      as [Hnd1 Hin1].
    specialize (IH (before ++ [data]) _ _ Hrun).
    cbn [cb_features seen_ids cb_properties] in IH.
    destruct IH as (Hinv' & Hnd' & Hin').
    + unfold all_features in *. rewrite map_app, concat_app. cbn.
      now rewrite app_nil_r.
    + assumption.
    + rewrite <- app_assoc in Hinv'. cbn [app] in Hinv'.
      split; [assumption|]. split; [assumption|]. intros q. split.
      * intros H. apply Hin' in H. destruct H as [H|(d & Hd & Hq)].
        -- apply Hin1 in H. destruct H as [H|H]; [now left|].
           right. exists data. split; [now left | assumption].
        -- right. exists d. split; [now right | assumption].
      * intros H. apply Hin'. destruct H as [H|(d & [<-|Hd] & Hq)].
        -- left. apply Hin1. now left.
        -- left. apply Hin1. now right.
        -- right. now exists d.
Qed.

Lemma add_features_total features : forall acc,
  hashable_ids features -> exists acc', add_features features acc = Ok acc'.
Proof.
  induction features as [|f features IH]; intros acc Hh; cbn [add_features].
  - now exists acc.
  - inversion Hh as [|? ? Hf Hrest]; subst. unfold fkey in Hf.
    destruct (feature_id f); cbn [key_of] in *;
      try contradiction; try destruct (negb _); now apply IH.
Qed.

(** The union step succeeds whenever every [id] can be put in a set. *)
Lemma union_loop_total datasets : forall c,
  hashable_ids (all_features datasets) ->
  exists c', union_loop datasets c = Ok c'.
Proof.
  induction datasets as [|data rest IH]; intros c Hh; cbn [union_loop].
  - now exists c.
  - unfold all_features, hashable_ids in Hh. cbn [map concat] in Hh.
    apply Forall_app in Hh. destruct Hh as [Hdata Hrest].
    destruct (add_features_total (features_or_nil data)
                (cb_features c, seen_ids c) Hdata) as ([feats seen] & ->).
    now apply IH.
Qed.

Lemma union_datasets_total datasets :
  hashable_ids (all_features datasets) ->
  exists combined, union_datasets datasets = Ok combined.
Proof.
  intros Hh. unfold union_datasets.
  destruct (union_loop_total datasets
              {| cb_features := []; cb_properties := []; seen_ids := [] |} Hh)
    as (c & ->).
  now eexists.
Qed.

Lemma union_datasets_ids datasets combined :
  union_datasets datasets = Ok combined ->
  forall f, In f (features_or_nil combined) ->
    feature_id f <> VNone /\ In f (all_features datasets).
Proof.
  unfold union_datasets. intros Hrun.
  destruct (union_loop datasets
              {| cb_features := []; cb_properties := []; seen_ids := [] |})
    as [c|e] eqn:Hloop; [|discriminate].
  inversion Hrun; subst combined. clear Hrun.
  unfold features_or_nil at 1. cbn [ds_features].
  destruct (union_loop_inv datasets [] _ _ Hloop) as (Hinv & _ & _).
  - split; cbn; try constructor; try tauto.
  - constructor.
  - cbn [app] in Hinv. destruct Hinv as [Hids _ _ Hfirst _].
    intros f Hf. split; [now apply Hids|].
    destruct (Hfirst f Hf) as (k & _ & Hfind).
    apply find_some in Hfind. tauto.
Qed.

(** C5.  In the dataset built by the union step that both composition
    functions share, no two features have the same [id]; each feature
    kept is the first one, in iteration order over
    [datasets.values()], that carries its [id]; every input feature with
    an [id] is represented; and the property manifest holds, without
    repetition, exactly the property names of the input datasets. *)
Theorem union_features_unique_first_wins datasets combined :
  union_datasets datasets = Ok combined ->
  NoDup (map fkey (features_or_nil combined))
  /\ (forall f, In f (features_or_nil combined) ->
        exists k, fkey f = Some k
                  /\ first_with k (all_features datasets) = Some f)
  /\ (forall g, In g (all_features datasets) -> feature_id g <> VNone ->
        exists f, In f (features_or_nil combined) /\ fkey f = fkey g)
  /\ NoDup (properties_or_nil combined)
  /\ (forall p, In p (properties_or_nil combined)
                <-> exists d, In d datasets /\ In p (properties_or_nil d)).
Proof.
  unfold union_datasets. intros Hrun.
  destruct (union_loop datasets
              {| cb_features := []; cb_properties := []; seen_ids := [] |})
    as [c|e] eqn:Hloop; [|discriminate].
  inversion Hrun; subst combined. clear Hrun.
  unfold features_or_nil, properties_or_nil at 1 2.
  cbn [ds_features ds_properties].
  destruct (union_loop_inv datasets [] _ _ Hloop) as (Hinv & Hnd & Hin).
  - split; cbn; try constructor; try tauto.
  - constructor.
  - cbn [app] in Hinv. destruct Hinv as [Hids Hnd' Hseen Hfirst Hcov].
    split; [assumption|]. split; [assumption|]. split; [|split; [assumption|]].
    + intros g Hg Hgid. destruct (Hcov g Hg Hgid) as (k & Hk & Hinseen).
      apply Hseen in Hinseen. apply in_map_iff in Hinseen.
      destruct Hinseen as (f & Hf & Hfin). exists f. split; congruence.
    + intros p. split.
      * intros H. apply Hin in H. destruct H as [[]|H]. assumption.
      * intros H. apply Hin. now right.
Qed.

(** C10.  A feature whose [id] look-up yields [None] never reaches the
    combined dataset: every feature of the output comes from the input
    and has an [id] other than [None], whatever id-less features the
    input datasets hold. *)
Theorem union_omits_features_without_id datasets combined :
  union_datasets datasets = Ok combined ->
  (forall f, In f (features_or_nil combined) ->
     feature_id f <> VNone /\ In f (all_features datasets))
  /\ (forall g, In g (all_features datasets) -> feature_id g = VNone ->
        ~ In g (features_or_nil combined)).
Proof.
  intros Hrun. pose proof (union_datasets_ids _ _ Hrun) as Hall.
  split; [assumption|].
  intros g _ Hnone Hg. now destruct (Hall g Hg).
Qed.

Lemma dict_get_set {A} (d : Dict A) k v k' :
  dict_get (dict_set d k v) k'
  = if String.eqb k k' then Some v else dict_get d k'.
Proof.
  induction d as [|[k0 v0] d IH]; cbn [dict_set dict_get].
  - reflexivity.
  - destruct (String.eqb k0 k) eqn:H0; cbn [dict_get].
    + apply String.eqb_eq in H0. subst k0.
      now destruct (String.eqb k k').
    + destruct (String.eqb k0 k') eqn:H1; [|assumption].
      apply String.eqb_eq in H1. subst k0. now rewrite String.eqb_sym, H0.
Qed.

(* ------------------------------------------------------------------ *)
(** ** Set composition *)

Section Composition.

Variable PlanStore : Type.
Variable conf : Conf.
Variable ext : Externals PlanStore.

Local Notation W := (World PlanStore).

Lemma collect_ids_spec fe : forall ids,
  hashable_ids fe ->
  exists ids',
    collect_ids fe ids = Ok ids'
    /\ forall k, In k ids' <-> In k ids \/ In (Some k) (map fkey fe).
Proof.
  induction fe as [|g fe IH]; intros ids Hh; cbn [collect_ids].
  - exists ids. split; [reflexivity|]. intros k. cbn. tauto.
  - inversion Hh as [|? ? Hg Hrest]; subst.
    unfold fkey in Hg. destruct (key_of (feature_id g)) as [k0|] eqn:Hk;
      [|contradiction].
    destruct (IH (set_add k0 ids) Hrest) as (ids' & Hrun & Hin).
    exists ids'. split; [assumption|].
    intros k. rewrite Hin, set_add_In. cbn [map In]. unfold fkey at 2.
    rewrite Hk. split.
    + intros [[->|H]|H]; auto.
    + intros [H|[H|H]]; auto. inversion H. auto.
Qed.

Lemma remove_excluded_spec fi : forall ids acc,
  hashable_ids fi ->
  remove_excluded fi ids acc
  = Ok (acc ++ filter (fun f => negb (match fkey f with
                                      | Some k => set_mem k ids
                                      | None => false
                                      end)) fi).
Proof.
  induction fi as [|f fi IH]; intros ids acc Hh; cbn [remove_excluded filter].
  - now rewrite app_nil_r.
  - inversion Hh as [|? ? Hf Hrest]; subst.
    unfold fkey in *. destruct (key_of (feature_id f)) as [k|] eqn:Hk;
      [|contradiction].
    destruct (set_mem k ids); cbn [negb].
    + now apply IH.
    + rewrite IH by assumption. now rewrite <- app_assoc.
Qed.

Lemma subtract_dataset_spec inc exc fi fe :
  ds_features inc = Some fi ->
  ds_features exc = Some fe ->
  hashable_ids fi ->
  hashable_ids fe ->
  subtract_dataset inc exc = Ok (filter (fun f => negb (id_among f fe)) fi).
Proof.
  intros Hfi Hfe Hhi Hhe. unfold subtract_dataset, features_or_raise.
  rewrite Hfe, Hfi.
  destruct (collect_ids_spec fe [] Hhe) as (ids & Hrun & Hin).
  rewrite Hrun, remove_excluded_spec by assumption. cbn [app].
  f_equal. apply filter_ext_in. intros f Hf. f_equal.
  assert (Hfk : fkey f <> None)
    by (unfold hashable_ids in Hhi; rewrite Forall_forall in Hhi;
        now apply Hhi).
  destruct (fkey f) as [k|] eqn:Hk; [|contradiction].
  unfold id_among.
  destruct (set_mem k ids) eqn:Hm.
  - apply set_mem_In, Hin in Hm. destruct Hm as [[]|Hm].
    apply in_map_iff in Hm. destruct Hm as (g & Hg & Hgin).
    symmetry. apply existsb_exists. exists g. split; [assumption|].
    unfold shares_id. rewrite Hk, Hg. now apply key_eqb_eq.
  - destruct (existsb (shares_id f) fe) eqn:He; [|reflexivity].
    apply existsb_exists in He. destruct He as (g & Hgin & Hs).
    unfold shares_id in Hs. rewrite Hk in Hs.
    destruct (fkey g) as [k'|] eqn:Hg; [|discriminate].
    apply key_eqb_eq in Hs. subst k'.
    assert (In k ids) as Hin'.
    { apply Hin. right. apply in_map_iff. now exists g. }
    apply set_mem_In in Hin'. congruence.
Qed.

Lemma part_or_load_spec (w : W) parts dataset_id :
  part_or_load parts dataset_id w
  = (Ok (resolved w parts dataset_id),
     replay w (part_loads parts dataset_id)).
Proof.
  unfold part_or_load, resolved, part_loads.
  destruct (opt_truthy (dict_get parts dataset_id)); reflexivity.
Qed.

Lemma resolved_replay_loads (w : W) parts id events :
  forallb (fun e => negb (is_store_event e)) events = true ->
  resolved (replay w events) parts id = resolved w parts id.
Proof.
  intros H. unfold resolved.
  now destruct (replay_stores events w H) as [-> _].
Qed.

Lemma part_loads_no_store parts id :
  forallb (fun e => negb (is_store_event e)) (part_loads parts id) = true.
Proof. unfold part_loads. now destruct (opt_truthy _). Qed.

(** The start of [rebuild_partial]: both datasets resolved. *)
Lemma rebuild_partial_resolve req parts datasets included excluded (w : W) :
  let include_id := make_dataset_filename_part ext req included [] in
  let exclude_id := make_dataset_filename_part ext req [] excluded in
  exists k,
    rebuild_partial ext req parts datasets (included, excluded) w
    = k (resolved w parts include_id) (resolved w parts exclude_id)
        (replay w (part_loads parts include_id ++ part_loads parts exclude_id))
    /\ k = (fun include_dataset exclude_dataset =>
              let partial_dataset_id :=
                make_dataset_filename_part ext req included excluded in
              match include_dataset with
              | Some inc =>
                  if ds_truthy inc then
                    match exclude_dataset with
                    | Some exc =>
                        if ds_truthy exc then
                          filtered_places <- lift (subtract_dataset inc exc) ;;
                          if list_truthy filtered_places then
                            let filtered_include_dataset :=
                              {| ds_type := Some "FeatureCollection";
                                 ds_features := Some filtered_places;
                                 ds_properties := Some (properties_or_nil inc) |} in
                            store_data_resp req filtered_include_dataset
                              partial_dataset_id ;;
                            ret (dict_set datasets partial_dataset_id
                                   filtered_include_dataset)
                          else ret datasets
                        else ret (dict_set datasets partial_dataset_id inc)
                    | None => ret (dict_set datasets partial_dataset_id inc)
                    end
                  else ret (dict_set datasets partial_dataset_id empty_dataset)
              | None => ret (dict_set datasets partial_dataset_id empty_dataset)
              end).
Proof.
  intros include_id exclude_id. eexists. split; [|reflexivity].
  unfold rebuild_partial. fold include_id exclude_id.
  rewrite (bind_ok (part_or_load_spec w parts include_id)).
  rewrite (bind_ok (part_or_load_spec _ parts exclude_id)).
  rewrite resolved_replay_loads by apply part_loads_no_store.
  now rewrite <- replay_app.
Qed.

(** C3 (as amended).  For every (included, excluded) tuple the second
    loop records, under the partial fingerprint: the empty dataset when
    the include dataset is absent or empty; the include dataset itself
    when only it is present; and, when both are present, the records of
    the include dataset whose [id] is not an [id] of the exclude
    dataset.  Only the last is persisted under the partial fingerprint,
    and only when at least one record is left; when none is left nothing
    is recorded for the tuple. *)
Theorem rebuild_partial_cases req parts datasets included excluded (w : W) :
  let include_id := make_dataset_filename_part ext req included [] in
  let exclude_id := make_dataset_filename_part ext req [] excluded in
  let partial_id := make_dataset_filename_part ext req included excluded in
  let include_dataset := resolved w parts include_id in
  let exclude_dataset := resolved w parts exclude_id in
  let loads := part_loads parts include_id ++ part_loads parts exclude_id in
  let run := rebuild_partial ext req parts datasets (included, excluded) w in
  (opt_truthy include_dataset = false ->
     run = (Ok (dict_set datasets partial_id empty_dataset), replay w loads))
  /\ (forall inc,
        include_dataset = Some inc -> ds_truthy inc = true ->
        opt_truthy exclude_dataset = false ->
        run = (Ok (dict_set datasets partial_id inc), replay w loads))
  /\ (forall inc exc fi fe,
        include_dataset = Some inc -> ds_truthy inc = true ->
        exclude_dataset = Some exc -> ds_truthy exc = true ->
        ds_features inc = Some fi -> ds_features exc = Some fe ->
        hashable_ids fi -> hashable_ids fe ->
        let kept := filter (fun f => negb (id_among f fe)) fi in
        let partial_dataset :=
          {| ds_type := Some "FeatureCollection";
             ds_features := Some kept;
             ds_properties := Some (properties_or_nil inc) |} in
        (kept <> [] ->
           run = (Ok (dict_set datasets partial_id partial_dataset),
                  replay w (loads ++ [EStoreDataset partial_id partial_dataset])))
        /\ (kept = [] -> run = (Ok datasets, replay w loads))).
Proof.
  intros include_id exclude_id partial_id include_dataset exclude_dataset
    loads run.
  destruct (rebuild_partial_resolve req parts datasets included excluded w)
    as (k & Hrun & Hk).
  fold include_id exclude_id include_dataset exclude_dataset loads in Hrun.
  fold run in Hrun. rewrite Hrun, Hk. clear Hrun Hk k.
  fold partial_id.
  split; [|split].
  - intros Hfalsy. destruct include_dataset as [inc|]; [|reflexivity].
    cbn in Hfalsy. now rewrite Hfalsy.
  - intros inc -> Htruthy Hfalsy. rewrite Htruthy.
    destruct exclude_dataset as [exc|]; [|reflexivity].
    cbn in Hfalsy. now rewrite Hfalsy.
  - intros inc exc fi fe -> Hti -> Hte Hfi Hfe Hhi Hhe kept partial_dataset.
    rewrite Hti, Hte.
    rewrite (subtract_dataset_spec inc exc fi fe Hfi Hfe Hhi Hhe).
    fold kept. cbn [lift bind]. split.
    + intros Hne. destruct kept as [|f kept'] eqn:Hkept; [contradiction|].
      cbn [list_truthy]. rewrite replay_app. reflexivity.
    + intros ->. reflexivity.
Qed.

(** C7.  When the store holds a dataset under the combined fingerprint,
    both composition functions return it as it is after that single
    look-up: no partial look-up, no request to the provider, no store. *)
Theorem cached_combined_is_returned req queries (w : W) cached :
  dict_get (datasets_db w) (make_dataset_filename ext req) = Some cached ->
  ds_truthy cached = true ->
  let after := replay w [ELoadDataset (make_dataset_filename ext req)] in
  fetch_text_search_ggl_maps_api conf ext req queries w = (Ok cached, after)
  /\ fetch_cat_google_maps_api conf ext req queries w = (Ok cached, after)
  /\ http_calls after = http_calls w
  /\ datasets_db after = datasets_db w
  /\ details_db after = details_db w.
Proof.
  intros Hcached Htruthy after.
  unfold fetch_text_search_ggl_maps_api, fetch_cat_google_maps_api,
    load_dataset.
  cbn [bind emit datasets_db]. rewrite Hcached, Htruthy.
  now repeat split.
Qed.

Lemma dict_get_del {A} (d : Dict A) k : dict_get (dict_del d k) k = None.
Proof.
  induction d as [|[k' v] d IH]; [reflexivity|].
  unfold dict_del in *. cbn [filter fst].
  destruct (String.eqb k' k) eqn:Hk; cbn [negb]; [assumption|].
  cbn [dict_get]. now rewrite Hk.
Qed.

Lemma delete_id_spec f :
  feature_id (delete_id f) = VNone
  /\ forall props, ft_properties (delete_id f) = Some props ->
       dict_has props "id" = false.
Proof.
  unfold delete_id, feature_id.
  destruct (ft_properties f) as [props|] eqn:Hp.
  - destruct (dict_has props "id") eqn:Hhas; cbn [ft_properties].
    + unfold get_or_none, dict_has. rewrite dict_get_del. split; [reflexivity|].
      intros props' H. inversion H; subst. now rewrite dict_get_del.
    + rewrite Hp. split.
      * unfold dict_has, get_or_none in *.
        now destruct (dict_get props "id").
      * intros props' H. now inversion H; subst.
  - rewrite Hp. split; [reflexivity | discriminate].
Qed.

(** The end of both composition functions, with the final world. *)
Lemma combine_and_store_world req combined_id datasets strip (w w' : W) d :
  combine_and_store req combined_id datasets strip w = (Ok d, w') ->
  exists combined,
    union_datasets (dict_values datasets) = Ok combined
    /\ features_or_nil d
       = (if strip then map delete_id (features_or_nil combined)
          else features_or_nil combined)
    /\ (strip = false -> d = combined)
    /\ (features_or_nil combined <> [] ->
          w' = replay w [EStoreDataset combined_id combined])
    /\ (features_or_nil combined = [] -> w' = w).
Proof.
  unfold combine_and_store. intros Hrun.
  apply bind_inv in Hrun. destruct Hrun as (combined & w1 & Hu & Hrun).
  unfold lift in Hu. inversion Hu; subst w1. clear Hu.
  exists combined. split; [assumption|].
  destruct (features_or_nil combined) as [|f fs] eqn:Hfs;
    cbn [list_truthy] in Hrun.
  - inversion Hrun; subst. rewrite Hfs.
    split; [now destruct strip|]. split; [reflexivity|].
    split; [congruence | reflexivity].
  - apply bind_inv in Hrun. destruct Hrun as ([] & w2 & Hstore & Hrun).
    unfold store_data_resp, bind, emit in Hstore. cbn in Hstore.
    inversion Hstore; subst w2. clear Hstore.
    destruct strip; inversion Hrun; subst.
    + split; [reflexivity|].
      split; [discriminate|]. split; [reflexivity | discriminate].
    + split; [assumption|]. split; [reflexivity|].
      split; [reflexivity | discriminate].
Qed.

(** C2 (as amended).  The guard is the opposite of the one claimed.  A
    call that does not find the combined fingerprint in the store builds
    the combined dataset, every feature of which carries an [id]; when
    it has features it is stored under the combined fingerprint as
    built, ids included, and that store is the last thing the call does
    to the world.  Only then, and only when the request does not set
    [ids_and_location_only], is the [id] property deleted from every
    feature of what is returned; when the request sets the flag the
    dataset is returned as built.  A dataset found under the combined
    fingerprint is returned as stored, whatever the flag. *)
Theorem id_is_deleted_unless_ids_only req queries (w w' : W) d :
  fetch_text_search_ggl_maps_api conf ext req queries w = (Ok d, w') ->
  let combined_id := make_dataset_filename ext req in
  let stored := dict_get (datasets_db w) combined_id in
  (opt_truthy stored = true -> stored = Some d)
  /\ (opt_truthy stored = false ->
        exists combined,
          (forall f, In f (features_or_nil combined) -> feature_id f <> VNone)
          /\ (features_or_nil combined <> [] ->
                exists earlier,
                  trace w' = EStoreDataset combined_id combined :: earlier
                  /\ dict_get (datasets_db w') combined_id = Some combined)
          /\ (ids_and_location_only req = false ->
                features_or_nil d = map delete_id (features_or_nil combined)
                /\ forall f, In f (features_or_nil d) ->
                     feature_id f = VNone
                     /\ forall props, ft_properties f = Some props ->
                          dict_has props "id" = false)
          /\ (ids_and_location_only req = true ->
                d = combined
                /\ forall f, In f (features_or_nil d) ->
                     feature_id f <> VNone)).
Proof.
  intros Hrun combined_id stored.
  unfold fetch_text_search_ggl_maps_api, load_dataset in Hrun.
  cbn [bind emit datasets_db] in Hrun.
  fold combined_id in Hrun. fold stored in Hrun.
  assert (Hfresh :
            forall w0,
              compose_text_search conf ext req queries combined_id w0
              = (Ok d, w') ->
              exists combined,
                (forall f, In f (features_or_nil combined) ->
                   feature_id f <> VNone)
                /\ (features_or_nil combined <> [] ->
                      exists earlier,
                        trace w' = EStoreDataset combined_id combined :: earlier
                        /\ dict_get (datasets_db w') combined_id
                           = Some combined)
                /\ (ids_and_location_only req = false ->
                      features_or_nil d
                      = map delete_id (features_or_nil combined)
                      /\ forall f, In f (features_or_nil d) ->
                           feature_id f = VNone
                           /\ forall props, ft_properties f = Some props ->
                                dict_has props "id" = false)
                /\ (ids_and_location_only req = true ->
                      d = combined
                      /\ forall f, In f (features_or_nil d) ->
                           feature_id f <> VNone)).
  { clear Hrun. intros w0 Hrun. unfold compose_text_search in Hrun.
    apply bind_inv in Hrun. destruct Hrun as ([parts missing] & w1 & _ & Hrun).
    apply bind_inv in Hrun. destruct Hrun as (parts' & w2 & _ & Hrun).
    apply bind_inv in Hrun. destruct Hrun as (datasets & w3 & _ & Hrun).
    apply combine_and_store_world in Hrun.
    destruct Hrun as (combined & Hu & Hfeat & Hkeep & Hstored & _).
    assert (Hids : forall f, In f (features_or_nil combined) ->
                     feature_id f <> VNone)
      by (intros f Hf; now apply (union_datasets_ids _ _ Hu)).
    exists combined. split; [exact Hids|]. split; [|split].
    - intros Hne. exists (trace w3). rewrite (Hstored Hne).
      cbn [replay fold_left replay_event trace datasets_db].
      split; [reflexivity|]. now rewrite dict_get_set, String.eqb_refl.
    - intros Hflag. rewrite Hflag in Hfeat. cbn [negb] in Hfeat.
      split; [exact Hfeat|].
      intros f Hf. rewrite Hfeat in Hf.
      apply in_map_iff in Hf. destruct Hf as (f0 & <- & _).
      apply delete_id_spec.
    - intros Hflag. rewrite Hflag in Hkeep. cbn [negb] in Hkeep.
      specialize (Hkeep eq_refl). subst d. split; [reflexivity|exact Hids]. }
  destruct stored as [c|]; cbn [opt_truthy].
  - destruct (ds_truthy c) eqn:Ht.
    + inversion Hrun; subst. split; [reflexivity | discriminate].
    + split; [discriminate|]. intros _. now apply (Hfresh _ Hrun).
  - split; [discriminate|]. intros _. now apply (Hfresh _ Hrun).
Qed.

End Composition.

(* ------------------------------------------------------------------ *)
(** ** Code that leaves the plan generator alone *)

Section Quiet.

Variable PlanStore : Type.
Variable conf : Conf.
Variable ext : Externals PlanStore.

Local Notation W := (World PlanStore).

Lemma quiet_ret {A} (a : A) : quiet (ret a : M W A).
Proof. intros w. now split. Qed.

Lemma quiet_raise {A} e : quiet (raise e : M W A).
Proof. intros w. now split. Qed.

Lemma quiet_lift {A} (r : result A) : quiet (lift r : M W A).
Proof. intros w. now split. Qed.

Lemma quiet_bind {A B} (c : M W A) (k : A -> M W B) :
  quiet c -> (forall a, quiet (k a)) -> quiet (bind c k).
Proof.
  intros Hc Hk w. unfold bind. specialize (Hc w).
  destruct (c w) as [[a|e] w1]; cbn [snd] in *; [|assumption].
  destruct (Hk a w1) as [H1 H2]. destruct Hc as [H3 H4].
  split; congruence.
Qed.

Lemma quiet_for_each {A B} (body : B -> A -> M W B) xs :
  (forall acc x, quiet (body acc x)) ->
  forall acc, quiet (for_each xs acc body).
Proof.
  intros Hbody. induction xs as [|x xs IH]; intros acc; cbn [for_each].
  - apply quiet_ret.
  - apply quiet_bind; [apply Hbody | intros; apply IH].
Qed.

Lemma quiet_sleep d : quiet (sleep d : M W unit).
Proof. intros w. now split. Qed.

Lemma quiet_http_post url headers data :
  quiet (http_post url headers data : M W Response).
Proof. intros w. now split. Qed.

Lemma quiet_http_get url headers : quiet (http_get url headers : M W Response).
Proof. intros w. now split. Qed.

Lemma quiet_load_dataset id : quiet (load_dataset id : M W (option Dataset)).
Proof. intros w. now split. Qed.

Lemma quiet_store_data_resp req data id :
  quiet (store_data_resp req data id : M W unit).
Proof. intros w. now split. Qed.

Lemma quiet_load_place_details id :
  quiet (load_place_details id : M W Value).
Proof. intros w. now split. Qed.

Lemma quiet_store_place_details id v :
  quiet (store_place_details id v : M W unit).
Proof. intros w. now split. Qed.

Create HintDb quiet.

#[local] Hint Resolve quiet_sleep quiet_http_post quiet_http_get
  quiet_load_dataset quiet_store_data_resp quiet_load_place_details
  quiet_store_place_details : quiet.

(** Goes through a monadic term, splitting on every test. *)
Ltac quiet_step :=
  lazymatch goal with
  | |- quiet (bind _ _) => apply quiet_bind; [|intros]
  | |- quiet (ret _) => apply quiet_ret
  | |- quiet (raise _) => apply quiet_raise
  | |- quiet (lift _) => apply quiet_lift
  | |- quiet (for_each _ _ _) => apply quiet_for_each; intros
  | |- quiet (if ?b then _ else _) => destruct b
  | |- quiet (match ?x with _ => _ end) => destruct x
  | |- quiet _ => solve [auto with quiet]
  end.

Ltac quiet_auto := repeat quiet_step.

Lemma quiet_get_loop fuel : forall retry_count url headers,
  quiet (get_loop fuel retry_count url headers : M W Value).
Proof.
  induction fuel as [|fuel IH]; intros; cbn [get_loop]; quiet_auto.
Qed.

Lemma quiet_make_get_api_call url headers :
  quiet (make_get_api_call conf ext url headers).
Proof.
  unfold make_get_api_call. quiet_auto; try apply quiet_get_loop.
Qed.

Lemma quiet_post_loop fuel : forall retry_count use_legacy url headers data,
  quiet (post_loop conf ext fuel retry_count use_legacy url headers data).
Proof.
  induction fuel as [|fuel IH]; intros; cbn [post_loop]; quiet_auto.
Qed.

Lemma quiet_make_post_api_call url headers data :
  quiet (make_post_api_call conf ext url headers data).
Proof.
  unfold make_post_api_call. quiet_auto; try apply quiet_post_loop.
Qed.

#[local] Hint Resolve quiet_make_get_api_call quiet_make_post_api_call : quiet.

Lemma quiet_fetch_place_details acc place :
  quiet (fetch_place_details conf ext acc place).
Proof. unfold fetch_place_details. quiet_auto. Qed.

#[local] Hint Resolve quiet_fetch_place_details : quiet.

Lemma quiet_single_ggl_text_call req text_query id :
  quiet (single_ggl_text_call conf ext req text_query id).
Proof. unfold single_ggl_text_call. quiet_auto. Qed.

Lemma quiet_single_ggl_cat_call req include exclude :
  quiet (single_ggl_cat_call conf ext req include exclude).
Proof. unfold single_ggl_cat_call. quiet_auto. Qed.

Lemma quiet_process_and_store_to_db req id query_results :
  quiet (process_and_store_to_db ext req id query_results : M W Dataset).
Proof. unfold process_and_store_to_db. quiet_auto. Qed.

#[local] Hint Resolve quiet_single_ggl_text_call quiet_single_ggl_cat_call
  quiet_process_and_store_to_db : quiet.

Lemma quiet_resolve_atomic id terms st :
  quiet (resolve_atomic id terms st : M W (Dict Dataset * Dict Terms)).
Proof. unfold resolve_atomic. quiet_auto. Qed.

#[local] Hint Resolve quiet_resolve_atomic : quiet.

Lemma quiet_lookup_parts req st q :
  quiet (lookup_parts ext req st q : M W (Dict Dataset * Dict Terms)).
Proof. unfold lookup_parts. quiet_auto. Qed.

Lemma quiet_run_missing_query req responses entry :
  quiet (run_missing_query conf ext req responses entry).
Proof. unfold run_missing_query. quiet_auto. Qed.

Lemma quiet_store_query_result req parts entry :
  quiet (store_query_result ext req parts entry : M W (Dict Dataset)).
Proof. unfold store_query_result. quiet_auto. Qed.

Lemma quiet_part_or_load parts id :
  quiet (part_or_load parts id : M W (option Dataset)).
Proof. unfold part_or_load. quiet_auto. Qed.

#[local] Hint Resolve quiet_part_or_load : quiet.

Lemma quiet_rebuild_partial req parts datasets q :
  quiet (rebuild_partial ext req parts datasets q : M W (Dict Dataset)).
Proof. unfold rebuild_partial. quiet_auto. Qed.

Lemma quiet_combine_and_store req id datasets strip :
  quiet (combine_and_store req id datasets strip : M W Dataset).
Proof. unfold combine_and_store. quiet_auto. Qed.

#[local] Hint Resolve quiet_lookup_parts quiet_run_missing_query
  quiet_store_query_result quiet_rebuild_partial quiet_combine_and_store
  : quiet.

Lemma quiet_compose_text_search req queries id :
  quiet (compose_text_search conf ext req queries id).
Proof. unfold compose_text_search. quiet_auto. Qed.

#[local] Hint Resolve quiet_compose_text_search : quiet.

Lemma quiet_fetch_text_search_ggl_maps_api req queries :
  quiet (fetch_text_search_ggl_maps_api conf ext req queries).
Proof. unfold fetch_text_search_ggl_maps_api. quiet_auto. Qed.

Lemma quiet_lookup_full req st q :
  quiet (lookup_full ext req st q
         : M W (Dict Dataset * list (string * list string * list string))).
Proof. unfold lookup_full. quiet_auto. Qed.

Lemma quiet_run_cat_query req results entry :
  quiet (run_cat_query conf ext req results entry).
Proof. unfold run_cat_query. quiet_auto. Qed.

Lemma quiet_store_cat_result req datasets entry :
  quiet (store_cat_result ext req datasets entry : M W (Dict Dataset)).
Proof. unfold store_cat_result. quiet_auto. Qed.

#[local] Hint Resolve quiet_lookup_full quiet_run_cat_query
  quiet_store_cat_result : quiet.

Lemma quiet_compose_cat_search req queries id :
  quiet (compose_cat_search conf ext req queries id).
Proof. unfold compose_cat_search. quiet_auto. Qed.

#[local] Hint Resolve quiet_compose_cat_search : quiet.

Lemma quiet_fetch_cat_google_maps_api req queries :
  quiet (fetch_cat_google_maps_api conf ext req queries).
Proof. unfold fetch_cat_google_maps_api. quiet_auto. Qed.

#[local] Hint Resolve quiet_fetch_text_search_ggl_maps_api
  quiet_fetch_cat_google_maps_api : quiet.

Lemma quiet_query_ggl req search_type :
  quiet (query_ggl conf ext req search_type).
Proof. unfold query_ggl. quiet_auto. Qed.

End Quiet.

Lemma strip_sentinels_ok features : forall acc out,
  strip_sentinels features acc = Ok out ->
  out = acc ++ filter is_clean features.
Proof.
  induction features as [|f features IH]; intros acc out Hrun;
    cbn [strip_sentinels filter] in *.
  - inversion Hrun. now rewrite app_nil_r.
  - unfold is_clean at 1.
    destruct (ft_properties f) as [props|]; [|discriminate].
    destruct (not_sentinel props).
    + rewrite (IH _ _ Hrun). now rewrite <- app_assoc.
    + now apply IH.
Qed.

(* ------------------------------------------------------------------ *)
(** ** The coverage planner *)

Section Planner.

Variable PlanStore : Type.
Variable conf : Conf.
Variable ext : Externals PlanStore.

Local Notation W := (World PlanStore).

Lemma call_rectify_plan_spec plan_name idx (w : W) :
  exists w',
    call_rectify_plan ext plan_name idx w
    = (Ok (fst (rectify_plan ext plan_name idx (plans w))), w')
    /\ plan_log w'
       = ERectifyPlan plan_name idx
           (fst (fst (rectify_plan ext plan_name idx (plans w))))
         :: plan_log w
    /\ plans w' = snd (rectify_plan ext plan_name idx (plans w))
    /\ datasets_db w' = datasets_db w.
Proof.
  unfold call_rectify_plan, on_plans, bind, emit, ret, plan_log.
  destruct (rectify_plan ext plan_name idx (plans w)) as [r p].
  cbn. eexists. split; [reflexivity|]. now repeat split.
Qed.

Lemma call_mark_plan_result_spec plan_name idx flag (w : W) :
  exists w',
    call_mark_plan_result ext plan_name idx flag w = (Ok tt, w')
    /\ plan_log w' = EMarkPlan plan_name idx flag :: plan_log w
    /\ plans w' = mark_plan_result ext plan_name idx flag (plans w)
    /\ datasets_db w' = datasets_db w.
Proof.
  unfold call_mark_plan_result, on_plans, bind, emit, plan_log.
  cbn. eexists. split; [reflexivity|]. now repeat split.
Qed.

Lemma strip_sentinels_clean features : forall acc out,
  strip_sentinels features acc = Ok out ->
  Forall clean acc -> Forall clean out.
Proof.
  induction features as [|f features IH]; intros acc out Hrun Hacc;
    cbn [strip_sentinels] in Hrun.
  - now inversion Hrun; subst.
  - destruct (ft_properties f) as [props|] eqn:Hp; [|discriminate].
    destruct (not_sentinel props) eqn:Hs.
    + apply (IH _ _ Hrun). apply Forall_app. split; [assumption|].
      constructor; [|constructor]. now exists props.
    + now apply (IH _ _ Hrun).
Qed.

Lemma filter_valid_subset req features : forall acc out,
  filter_valid ext req features acc = Ok out ->
  forall f, In f out -> In f acc \/ In f features.
Proof.
  induction features as [|x features IH]; intros acc out Hrun f Hf;
    cbn [filter_valid] in Hrun.
  - inversion Hrun; subst. now left.
  - destruct (valid_location ext req x) as [[|]|e]; [| |discriminate].
    + destruct (IH _ _ Hrun f Hf) as [H|H]; [|right; now right].
      apply in_app_or in H. destruct H as [H|[<-|[]]]; [now left|].
      right. now left.
    + destruct (IH _ _ Hrun f Hf) as [H|H]; [now left | right; now right].
Qed.


Lemma project_fold_get (props : Dict Value) k fields :
  forall out : Dict Value,
  dict_get
    (fold_left
       (fun out field =>
          match dict_get props field with
          | Some v => dict_set out field v
          | None => out
          end) fields out) k
  = if existsb (String.eqb k) fields
    then match dict_get props k with
         | Some v => Some v
         | None => dict_get out k
         end
    else dict_get out k.
Proof.
  induction fields as [|f fields IH]; intros out; cbn [fold_left existsb].
  - reflexivity.
  - rewrite IH. destruct (String.eqb k f) eqn:Hkf; cbn [orb].
    + apply String.eqb_eq in Hkf. subst f.
      destruct (dict_get props k) as [v|] eqn:Hk.
      * rewrite dict_get_set, String.eqb_refl.
        now destruct (existsb (String.eqb k) fields).
      * now destruct (existsb (String.eqb k) fields).
    + destruct (dict_get props f) as [v|] eqn:Hf; [|reflexivity].
      rewrite dict_get_set, String.eqb_sym, Hkf. reflexivity.
Qed.

Lemma project_keeps_id props :
  get_or_none (project props) "id" = get_or_none props "id".
Proof.
  unfold get_or_none, project. rewrite project_fold_get.
  change (existsb (String.eqb "id") sub_property_fields) with true.
  cbn iota. now destruct (dict_get props "id").
Qed.

Lemma select_sub_properties_clean d :
  Forall clean (features_or_nil d) ->
  Forall clean (features_or_nil (select_sub_properties d)).
Proof.
  unfold select_sub_properties, features_or_nil at 2. cbn [ds_features].
  intros Hall. apply Forall_forall. intros f Hf.
  apply in_map_iff in Hf. destruct Hf as (f0 & <- & Hf0).
  rewrite Forall_forall in Hall. destruct (Hall f0 Hf0) as (props & Hp & Hs).
  eexists. split; [reflexivity|]. rewrite Hp.
  unfold not_sentinel in *. now rewrite project_keeps_id.
Qed.

Lemma filter_ggl_data_valid_locations_clean req d out :
  filter_ggl_data_valid_locations ext req d = Ok out ->
  Forall clean (features_or_nil d) ->
  Forall clean (features_or_nil out).
Proof.
  unfold filter_ggl_data_valid_locations. intros Hrun Hall.
  destruct (filter_valid ext req (features_or_nil d) []) as [kept|e] eqn:Hf;
    [|discriminate].
  inversion Hrun; subst out. unfold features_or_nil at 1. cbn [ds_features].
  apply Forall_forall. intros f Hin.
  destruct (filter_valid_subset _ _ _ _ Hf f Hin) as [[]|H].
  rewrite Forall_forall in Hall. now apply Hall.
Qed.

Lemma next_index_is_max cur nxt :
  (if cur + 1 >? nxt then cur + 1 else nxt) = Z.max nxt (cur + 1).
Proof. destruct (Z.gtb_spec (cur + 1) nxt); lia. Qed.

Lemma ds_truthy_features d fs : ds_features d = Some fs -> ds_truthy d = true.
Proof.
  unfold ds_truthy. intros ->. now destruct (ds_type d), (ds_properties d).
Qed.

(** [fetch_ggl_nearby] from the end of the loop on: what is stripped,
    what is counted, what is marked and what is returned. *)
Lemma after_loop_exit v (w w' : W) r :
  after_loop ext v w = (Ok r, w') ->
  exists raw stripped,
    pv_dataset v = Some raw
    /\ strip_sentinels (features_or_nil raw) [] = Ok stripped
    /\ Forall clean (features_or_nil (nr_dataset r))
    /\ datasets_db w' = datasets_db w
    /\ nr_plan_name r = pv_plan_name v
    /\ (action (pv_req v) = "full data" ->
          let plan_name := pv_plan_name v in
          let cur := pv_current_plan_index v in
          let below :=
            ds_truthy raw && Nat.ltb (length (features_or_nil raw)) 20 in
          let rect := rectify_plan ext plan_name cur (plans w) in
          let nxt :=
            if below then fst (fst rect) else pv_next_plan_index v in
          let flag := Nat.ltb 0 (length stripped) in
          nr_next_plan_index r = Z.max nxt (cur + 1)
          /\ plan_log w'
             = EMarkPlan plan_name cur flag
               :: (if below then [ERectifyPlan plan_name cur (fst (fst rect))]
                   else [])
               ++ plan_log w
          /\ plans w'
             = mark_plan_result ext plan_name cur flag
                 (if below then snd rect else plans w)
          /\ exists valid,
               filter_ggl_data_valid_locations ext (pv_req v)
                 {| ds_type := ds_type raw;
                    ds_features := Some stripped;
                    ds_properties := ds_properties raw |} = Ok valid
               /\ nr_dataset r
                  = if include_only_sub_properties (pv_req v)
                    then select_sub_properties valid
                    else valid).
Proof.
  unfold after_loop. intros Hrun.
  destruct (pv_dataset v) as [raw|]; [|discriminate].
  destruct (pv_next_page_token v) as [tok|]; [|discriminate].
  destruct (pv_bknd_dataset_id v) as [bknd|]; [|discriminate].
  apply bind_inv in Hrun. destruct Hrun as ([nxt tok'] & w1 & Hrect & Hrun).
  apply bind_inv in Hrun. destruct Hrun as (stripped & w2 & Hstrip & Hrun).
  unfold lift in Hstrip. inversion Hstrip as [[Hs Hw2]]. subst w2. clear Hstrip.
  apply bind_inv in Hrun. destruct Hrun as ([] & w3 & Hmark & Hrun).
  apply bind_inv in Hrun. destruct Hrun as (filtered & w4 & Hfilter & Hrun).
  unfold ret in Hrun. inversion Hrun; subst r w'. clear Hrun.
  cbn [nr_dataset nr_plan_name nr_next_plan_index].
  set (stripped_ds := {| ds_type := ds_type raw;
                         ds_features := Some stripped;
                         ds_properties := ds_properties raw |}) in *.
  assert (Htruthy : ds_truthy stripped_ds = true)
    by (now apply ds_truthy_features with (fs := stripped)).
  rewrite Htruthy, andb_true_r in Hmark.
  assert (Hclean : Forall clean (features_or_nil stripped_ds)).
  { unfold features_or_nil, stripped_ds. cbn [ds_features].
    now apply (strip_sentinels_clean _ _ _ Hs). }
  exists raw, stripped. split; [reflexivity|]. split; [assumption|].
  destruct (String.eqb (action (pv_req v)) "full data") eqn:Haction.
  - (* full data *)
    cbn [andb] in Hrect.
    unfold lift in Hfilter.
    destruct (filter_ggl_data_valid_locations ext (pv_req v) stripped_ds)
      as [valid|e] eqn:Hvalid; [|discriminate].
    inversion Hfilter; subst filtered w4. clear Hfilter.
    destruct (call_mark_plan_result_spec (pv_plan_name v)
                (pv_current_plan_index v)
                (Nat.ltb 0 (length (features_or_nil stripped_ds))) w1)
      as (w3' & Hm & Hmlog & Hmplans & Hmdb).
    rewrite Hm in Hmark. inversion Hmark; subst w3'. clear Hmark Hm.
    assert (Hfinal :
              Forall clean
                (features_or_nil
                   (if include_only_sub_properties (pv_req v)
                    then select_sub_properties valid else valid))).
    { pose proof (filter_ggl_data_valid_locations_clean _ _ _ Hvalid Hclean).
      destruct (include_only_sub_properties (pv_req v));
        [now apply select_sub_properties_clean | assumption]. }
    split; [assumption|].
    destruct (ds_truthy raw && Nat.ltb (length (features_or_nil raw)) 20)
      eqn:Hbelow.
    + destruct (call_rectify_plan_spec (pv_plan_name v)
                  (pv_current_plan_index v) w)
        as (w1' & Hc & Hclog & Hcplans & Hcdb).
      rewrite Hc in Hrect. inversion Hrect as [[Hnxt Hw1]]. subst w1'.
      split; [congruence|]. split; [reflexivity|].
      intros _. cbn zeta. rewrite next_index_is_max, Hnxt. cbn [fst].
      split; [reflexivity|].
      split; [rewrite Hmlog, Hclog, Hnxt; reflexivity|].
      split; [rewrite Hmplans, Hcplans; reflexivity|].
      exists valid. now split.
    + unfold ret in Hrect. inversion Hrect; subst nxt tok' w1.
      split; [assumption|]. split; [reflexivity|].
      intros _. cbn zeta. rewrite next_index_is_max.
      split; [reflexivity|].
      split; [rewrite Hmlog; reflexivity|].
      split; [assumption|].
      exists valid. now split.
  - (* any other action *)
    cbn [andb] in Hrect, Hmark.
    unfold ret in Hrect, Hmark, Hfilter.
    inversion Hrect; subst nxt tok' w1.
    inversion Hmark; subst w3. inversion Hfilter; subst filtered w4.
    split.
    { destruct (include_only_sub_properties (pv_req v));
        [now apply select_sub_properties_clean | assumption]. }
    split; [reflexivity|]. split; [reflexivity|].
    intros Hfull. rewrite Hfull in Haction. discriminate.
Qed.

Lemma quiet_run {A} (c : M W A) (w w' : W) r :
  quiet c -> c w = (r, w') -> plan_log w' = plan_log w.
Proof. intros Hq Hrun. destruct (Hq w) as [H _]. now rewrite Hrun in H. Qed.

Lemma plan_iteration_inv search_type v (w w' : W) brk v' log base :
  keeps_action ext ->
  loop_inv v log ->
  plan_log w = log ++ base ->
  plan_iteration conf ext search_type v w = (Ok (brk, v'), w') ->
  exists log',
    plan_log w' = log' ++ base /\ loop_inv v' log' /\ exit_test v' log'.
Proof.
  intros Hkeeps [Haction Hnext _ _ _] Hlog Hrun.
  unfold plan_iteration in Hrun.
  rewrite Haction in Hrun. cbn [String.eqb Ascii.eqb Bool.eqb] in Hrun.
  apply bind_inv in Hrun. destruct Hrun as (x & w1 & Hproc & Hrun).
  unfold bind at 1, on_plans in Hproc.
  pose proof (Hkeeps (pv_req v) (plans w)) as Hact.
  destruct (process_req_plan ext (pv_req v) (plans w))
    as [[[[[req' name] tok] idx] bk] p].
  cbn in Hproc, Hact. inversion Hproc; subst x w1. clear Hproc.
  rewrite Haction in Hact.
  apply bind_inv in Hrun. destruct Hrun as (dataset & w2 & Hq & Hrun).
  apply (quiet_run _ _ _ _ (quiet_query_ggl _ conf ext req' search_type))
    in Hq.
  unfold plan_log at 2 in Hq. cbn [trace filter is_plan_event] in Hq.
  fold (plan_log w) in Hq. rewrite Hlog in Hq.
  rewrite Hact in Hrun. cbn [String.eqb Ascii.eqb Bool.eqb] in Hrun.
  destruct (ds_truthy dataset) eqn:Htruthy.
  - destruct (Nat.eqb (length (features_or_nil dataset)) 0) eqn:Hzero.
    + destruct (call_rectify_plan_spec name idx w2)
        as (w3 & Hc & Hclog & _ & _).
      rewrite (bind_ok Hc) in Hrun.
      destruct (fst (rectify_plan ext name idx (plans w2))) as [n t].
      cbn [fst] in Hclog.
      exists (ERectifyPlan name idx n :: EProcessPlan name idx :: log).
      split; [|split].
      * rewrite Hq in Hclog.
        destruct (n =? -1); inversion Hrun; subst; exact Hclog.
      * apply Nat.eqb_eq, length_zero_iff_nil in Hzero.
        destruct (n =? -1); inversion Hrun; subst; split;
          cbn; try reflexivity; try assumption;
          intros raw Hraw Hne; inversion Hraw; subst; contradiction.
      * destruct (n =? -1); inversion Hrun; subst;
          intros raw Hraw; cbn in Hraw; inversion Hraw; subst raw;
          rewrite Htruthy, Hzero; cbn; now exists n, log.
    + inversion Hrun; subst.
      exists (EProcessPlan name idx :: log). split; [assumption|].
      split.
      * split; cbn; try reflexivity; try assumption.
        intros raw _ _. now exists log.
      * intros raw Hraw. cbn in Hraw. inversion Hraw; subst raw.
        rewrite Htruthy, Hzero. cbn. now exists log.
  - inversion Hrun; subst.
    exists (EProcessPlan name idx :: log). split; [assumption|].
    split.
    + split; cbn; try reflexivity; try assumption.
      intros raw _ _. now exists log.
    + intros raw Hraw. cbn in Hraw. inversion Hraw; subst raw.
      rewrite Htruthy. cbn. now exists log.
Qed.

Lemma plan_loop_inv search_type rounds : forall v (w w' : W) v' log base,
  keeps_action ext ->
  loop_inv v log ->
  exit_test v log ->
  plan_log w = log ++ base ->
  plan_loop conf ext rounds search_type v w = (Ok v', w') ->
  exists log',
    plan_log w' = log' ++ base /\ loop_inv v' log' /\ exit_test v' log'.
Proof.
  induction rounds as [|rounds IH];
    intros v w w' v' log base Hk Hinv Htest Hlog Hrun;
    cbn [plan_loop] in Hrun.
  - inversion Hrun; subst. now exists log.
  - apply bind_inv in Hrun. destruct Hrun as ([brk v1] & w1 & Hit & Hrun).
    destruct (plan_iteration_inv _ _ _ _ _ _ _ _ Hk Hinv Hlog Hit)
      as (log1 & Hlog1 & Hinv1 & Htest1).
    cbn [fst snd] in Hrun. destruct brk.
    + inversion Hrun; subst. now exists log1.
    + now apply (IH _ _ _ _ _ _ Hk Hinv1 Htest1 Hlog1 Hrun).
Qed.

Lemma initial_vars_test req : exit_test (initial_vars req) [].
Proof. intros raw Hraw. discriminate. Qed.

Lemma initial_vars_inv req :
  action req = "full data" -> loop_inv (initial_vars req) [].
Proof. intros H. split; cbn; try reflexivity; try assumption. discriminate. Qed.


(** C8 (as amended).  In a "full data" invocation that returns, the
    next plan-step index returned is the larger of the index given by
    the latest [rectify_plan] call of the invocation ([0] when there
    was none) and the index of the step last obtained from
    [process_req_plan] plus one; and the last call to the plan
    generator marks that step, under the returned plan name, with the
    flag "the dataset the plan loop ended with has a feature left once
    its sentinels are removed".  The flag is taken before the validity
    filter and the projection: the dataset returned is that stripped
    dataset put through them, and it can be empty while the step is
    marked as a success. *)
Theorem next_index_is_max_and_step_is_marked req (w w' : W) r :
  keeps_action ext ->
  action req = "full data" ->
  fetch_ggl_nearby conf ext req w = (Ok r, w') ->
  exists v w1 raw stripped recent earlier valid,
    plan_loop conf ext 30 (search_type req) (initial_vars req) w
    = (Ok v, w1)
    /\ pv_dataset v = Some raw
    /\ strip_sentinels (features_or_nil raw) [] = Ok stripped
    /\ stripped = filter is_clean (features_or_nil raw)
    /\ plan_log w' = recent ++ plan_log w
    /\ nr_next_plan_index r
       = Z.max (last_rectified recent) (last_planned recent + 1)
    /\ recent
       = EMarkPlan (nr_plan_name r) (last_planned recent)
           (Nat.ltb 0 (length stripped)) :: earlier
    /\ nr_plan_name r = last_plan_name recent
    /\ plans w'
       = mark_plan_result ext (nr_plan_name r) (last_planned recent)
           (Nat.ltb 0 (length stripped))
           (if ds_truthy raw && Nat.ltb (length (features_or_nil raw)) 20
            then snd (rectify_plan ext (nr_plan_name r)
                        (last_planned recent) (plans w1))
            else plans w1)
    /\ action (pv_req v) = "full data"
    /\ filter_ggl_data_valid_locations ext (pv_req v)
         {| ds_type := ds_type raw;
            ds_features := Some stripped;
            ds_properties := ds_properties raw |} = Ok valid
    /\ nr_dataset r
       = if include_only_sub_properties (pv_req v)
         then select_sub_properties valid
         else valid.
Proof.
  unfold fetch_ggl_nearby. intros Hkeeps Haction Hrun.
  apply bind_inv in Hrun. destruct Hrun as (v & w1 & Hloop & Hafter).
  destruct (plan_loop_inv _ _ _ _ _ _ [] (plan_log w) Hkeeps
              (initial_vars_inv req Haction) (initial_vars_test req)
              eq_refl Hloop)
    as (log & Hlog & [Hact Hnext Hcur Hname _] & _).
  destruct (after_loop_exit _ _ _ _ Hafter)
    as (raw & stripped & Hraw & Hstrip & _ & _ & Hplan & Hfull).
  destruct (Hfull Hact) as (Hidx & Hplog & Hplans & valid & Hvalid & Hds).
  clear Hfull. cbn zeta in *.
  set (below := ds_truthy raw && Nat.ltb (length (features_or_nil raw)) 20)
    in *.
  set (rect := rectify_plan ext (pv_plan_name v) (pv_current_plan_index v)
                 (plans w1)) in *.
  set (middle := if below
                 then [ERectifyPlan (pv_plan_name v) (pv_current_plan_index v)
                         (fst (fst rect))]
                 else []) in *.
  assert (Hmid_planned : last_planned (middle ++ log) = last_planned log)
    by (unfold middle; now destruct below).
  assert (Hmid_name : last_plan_name (middle ++ log) = last_plan_name log)
    by (unfold middle; now destruct below).
  assert (Hmid_rect :
            last_rectified (middle ++ log)
            = if below then fst (fst rect) else pv_next_plan_index v)
    by (unfold middle; destruct below; [reflexivity | now rewrite Hnext]).
  exists v, w1, raw, stripped,
    (EMarkPlan (pv_plan_name v) (pv_current_plan_index v)
       (Nat.ltb 0 (length stripped)) :: middle ++ log),
    (middle ++ log), valid.
  cbn [last_rectified last_planned last_plan_name].
  rewrite Hmid_planned, Hmid_name, Hmid_rect, Hplan, <- Hcur, <- Hname.
  split; [assumption|]. split; [assumption|]. split; [assumption|].
  split; [exact (strip_sentinels_ok _ _ _ Hstrip)|].
  split; [rewrite Hplog, Hlog; cbn [app]; now rewrite <- app_assoc|].
  split; [assumption|]. split; [reflexivity|]. split; [reflexivity|].
  split; [exact Hplans|]. split; [assumption|]. split; assumption.
Qed.

End Planner.

(* ------------------------------------------------------------------ *)
(** ** Concrete runs *)

Lemma retry_schedule_witness :
  test_mode Demo.conf = false
  /\ post_always_fails Demo.world_down
  /\ exists legacy_url legacy_headers events,
       build_compatible_legacy_payload Demo.conf (Demo.ext 3) "u"
         Demo.key_header (Some Demo.cafe_body)
       = Ok (legacy_url, legacy_headers, None)
       /\ performed Demo.world_down
            (snd (make_post_api_call Demo.conf (Demo.ext 3) "u"
                    Demo.key_header (Some Demo.cafe_body)
                    Demo.world_down)) events
       /\ events
          = [ESleep MIN_DELAY; EPost "u" Demo.key_header (Some Demo.cafe_body);
             ESleep (retry_delay 1);
             ESleep MIN_DELAY; EPost "u" Demo.key_header (Some Demo.cafe_body);
             ESleep (retry_delay 2);
             ESleep MIN_DELAY; EPost "u" Demo.key_header (Some Demo.cafe_body);
             ESleep MIN_DELAY; EPost legacy_url legacy_headers None;
             ESleep (retry_delay 2);
             ESleep MIN_DELAY; EPost legacy_url legacy_headers None]
       /\ count_events is_primary_post events = 3%nat
       /\ count_events is_legacy_post events = 2%nat.
Proof.
  split; [reflexivity|].
  split; [intros n url headers data; discriminate|].
  apply (retry_schedule_of_failing_provider Z Demo.conf (Demo.ext 3)
           Demo.world_down "u" Demo.key_header Demo.cafe_body).
  - reflexivity.
  - intros n url headers data. discriminate.
Defined.

(** C1, as stated, fails: against a provider that always answers 429
    the legacy request is sent twice, not three times. *)
Lemma legacy_attempts_counterexample :
  count_events is_primary_post
    (trace (snd (make_post_api_call Demo.conf (Demo.ext 3) "u"
                   Demo.key_header (Some Demo.cafe_body) Demo.world_down)))
  = 3%nat
  /\ count_events is_legacy_post
       (trace (snd (make_post_api_call Demo.conf (Demo.ext 3) "u"
                      Demo.key_header (Some Demo.cafe_body) Demo.world_down)))
     = 2%nat
  /\ count_events is_legacy_post
       (trace (snd (make_post_api_call Demo.conf (Demo.ext 3) "u"
                      Demo.key_header (Some Demo.cafe_body) Demo.world_down)))
     <> 3%nat.
Proof.
  split; [reflexivity|]. split; [reflexivity|].
  intros H. vm_compute in H. discriminate.
Qed.

Lemma exhausted_post_witness :
  test_mode Demo.conf = false
  /\ post_always_fails Demo.world_down
  /\ exists st batch,
       fst (make_post_api_call Demo.conf (Demo.ext 3) "u" Demo.key_header
              (Some Demo.cafe_body) Demo.world_down)
       = Ok (VList batch)
       /\ length batch = 20%nat
       /\ Forall
            (fun place =>
               place
               = VDict [("name",
                         VStr ("Faild to retreive data " ++ str_int st)%string);
                        ("id", VStr "n/a")])
            batch.
Proof.
  split; [reflexivity|].
  split; [intros n url headers data; discriminate|].
  apply (exhausted_post_returns_sentinels Z Demo.conf (Demo.ext 3)
           Demo.world_down "u" Demo.key_header Demo.cafe_body).
  - reflexivity.
  - intros n url headers data. discriminate.
Defined.

Lemma failed_details_witness :
  fst (single_ggl_text_call Demo.conf (Demo.ext 3) (Demo.keyword_req true)
         "cafe" "part:cafe,!" Cases.world_details_mixed)
  = Ok ("part:cafe,!", VList [Cases.details_p1; VDict []])
  /\ exists records w',
       single_ggl_text_call Demo.conf (Demo.ext 3) (Demo.keyword_req true)
         "cafe" "part:cafe,!" Cases.world_details_mixed
       = (Ok ("part:cafe,!", VList records), w')
       /\ (let '(url, headers, body) :=
             build_text_search_payload Demo.conf (Demo.keyword_req true)
               "cafe" in
           details_run Demo.conf (Demo.ext 3)
             (replay Cases.world_details_mixed
                [ESleep MIN_DELAY; EPost url headers (Some body)])
             [VDict [("id", VStr "p1")]; VDict [("id", VStr "p2")]]
             records w')
       /\ length records = 2%nat.
Proof.
  split; [vm_compute; reflexivity|].
  destruct (failed_details_give_empty_records Z Demo.conf (Demo.ext 3)
              Cases.world_details_mixed (Demo.keyword_req true) "cafe"
              "part:cafe,!"
              [VDict [("id", VStr "p1")]; VDict [("id", VStr "p2")]])
    as (_ & _ & records & w' & Hrun & Hchain & Hlen & _).
  - reflexivity.
  - reflexivity.
  - reflexivity.
  - repeat constructor.
    + now exists [("id", VStr "p1")], "p1".
    + now exists [("id", VStr "p2")], "p2".
  - exists records, w'. split; [exact Hrun|]. split; [exact Hchain|].
    exact Hlen.
Defined.

Lemma union_unique_witness :
  union_datasets [Demo.drive_thrus; Demo.cafes]
  = Ok {| ds_type := Some "FeatureCollection";
          ds_features :=
            Some [Demo.place "p2" "Cafe Two"; Demo.place "p9" "Burger Nine";
                  Demo.place "p1" "Cafe One"];
          ds_properties := Some ["id"; "name"; "rating"] |}
  /\ NoDup
       (map fkey
          [Demo.place "p2" "Cafe Two"; Demo.place "p9" "Burger Nine";
           Demo.place "p1" "Cafe One"]).
Proof.
  split; [reflexivity|].
  apply (union_features_unique_first_wins [Demo.drive_thrus; Demo.cafes]
           {| ds_type := Some "FeatureCollection";
              ds_features :=
                Some [Demo.place "p2" "Cafe Two";
                      Demo.place "p9" "Burger Nine";
                      Demo.place "p1" "Cafe One"];
              ds_properties := Some ["id"; "name"; "rating"] |}).
  reflexivity.
Defined.

Lemma union_omits_witness :
  In Demo.nameless (all_features [Demo.drive_thrus; Demo.cafes])
  /\ feature_id Demo.nameless = VNone
  /\ ~ In Demo.nameless
       [Demo.place "p2" "Cafe Two"; Demo.place "p9" "Burger Nine";
        Demo.place "p1" "Cafe One"].
Proof.
  split; [right; left; reflexivity|]. split; [reflexivity|].
  apply (union_omits_features_without_id [Demo.drive_thrus; Demo.cafes]
           {| ds_type := Some "FeatureCollection";
              ds_features :=
                Some [Demo.place "p2" "Cafe Two";
                      Demo.place "p9" "Burger Nine";
                      Demo.place "p1" "Cafe One"];
              ds_properties := Some ["id"; "name"; "rating"] |}).
  - reflexivity.
  - right; left; reflexivity.
  - reflexivity.
Defined.

Lemma cached_combined_witness :
  fetch_text_search_ggl_maps_api Demo.conf (Demo.ext 3)
    (Demo.keyword_req false) [(["cafe"], ["drive"])]
    Demo.world_combined_cached
  = (Ok Demo.cafes,
     replay Demo.world_combined_cached [ELoadDataset "all:cafe"])
  /\ fetch_cat_google_maps_api Demo.conf (Demo.ext 3)
       (Demo.keyword_req false) [(["cafe"], ["drive"])]
       Demo.world_combined_cached
     = (Ok Demo.cafes,
        replay Demo.world_combined_cached [ELoadDataset "all:cafe"])
  /\ http_calls (replay Demo.world_combined_cached [ELoadDataset "all:cafe"])
     = http_calls Demo.world_combined_cached
  /\ datasets_db (replay Demo.world_combined_cached [ELoadDataset "all:cafe"])
     = datasets_db Demo.world_combined_cached
  /\ details_db (replay Demo.world_combined_cached [ELoadDataset "all:cafe"])
     = details_db Demo.world_combined_cached.
Proof.
  apply (cached_combined_is_returned Z Demo.conf (Demo.ext 3)
           (Demo.keyword_req false) [(["cafe"], ["drive"])]
           Demo.world_combined_cached Demo.cafes);
    reflexivity.
Defined.

(** C2, as stated, fails in both directions: with
    [ids_and_location_only] set the returned features keep their [id],
    and without it the [id] is gone. *)
Lemma id_stripping_counterexample :
  (exists d,
      fst (fetch_text_search_ggl_maps_api Demo.conf (Demo.ext 3)
             (Demo.keyword_req true) [(["cafe"], [])]
             Demo.world_include_only) = Ok d
      /\ map feature_id (features_or_nil d) = [VStr "p1"; VStr "p2"])
  /\ (exists d,
         fst (fetch_text_search_ggl_maps_api Demo.conf (Demo.ext 3)
                (Demo.keyword_req false) [(["cafe"], [])]
                Demo.world_include_only) = Ok d
         /\ map feature_id (features_or_nil d) = [VNone; VNone]).
Proof.
  split; eexists; split; reflexivity.
Qed.

Lemma id_deleted_witness :
  fetch_text_search_ggl_maps_api Demo.conf (Demo.ext 3)
    (Demo.keyword_req false) [(["cafe"], [])] Demo.world_include_only
  = (Ok {| ds_type := Some "FeatureCollection";
           ds_features :=
             Some [delete_id (Demo.place "p1" "Cafe One");
                   delete_id (Demo.place "p2" "Cafe Two")];
           ds_properties := Some ["id"; "name"] |},
     replay Demo.world_include_only
       [ELoadDataset "all:cafe"; ELoadDataset "part:cafe,!";
        ELoadDataset "part:!";
        EStoreDataset "all:cafe"
          {| ds_type := Some "FeatureCollection";
             ds_features := Some [Demo.place "p1" "Cafe One";
                                  Demo.place "p2" "Cafe Two"];
             ds_properties := Some ["id"; "name"] |}])
  /\ exists combined,
       (forall f, In f (features_or_nil combined) -> feature_id f <> VNone)
       /\ (features_or_nil combined <> [] ->
             exists earlier,
               trace
                 (replay Demo.world_include_only
                    [ELoadDataset "all:cafe"; ELoadDataset "part:cafe,!";
                     ELoadDataset "part:!";
                     EStoreDataset "all:cafe"
                       {| ds_type := Some "FeatureCollection";
                          ds_features := Some [Demo.place "p1" "Cafe One";
                                               Demo.place "p2" "Cafe Two"];
                          ds_properties := Some ["id"; "name"] |}])
               = EStoreDataset "all:cafe" combined :: earlier
               /\ dict_get
                    (datasets_db
                       (replay Demo.world_include_only
                          [ELoadDataset "all:cafe"; ELoadDataset "part:cafe,!";
                           ELoadDataset "part:!";
                           EStoreDataset "all:cafe"
                             {| ds_type := Some "FeatureCollection";
                                ds_features :=
                                  Some [Demo.place "p1" "Cafe One";
                                        Demo.place "p2" "Cafe Two"];
                                ds_properties := Some ["id"; "name"] |}]))
                    "all:cafe"
                  = Some combined)
       /\ [delete_id (Demo.place "p1" "Cafe One");
           delete_id (Demo.place "p2" "Cafe Two")]
          = map delete_id (features_or_nil combined)
       /\ feature_id (delete_id (Demo.place "p1" "Cafe One")) = VNone.
Proof.
  assert (Hrun :
    fetch_text_search_ggl_maps_api Demo.conf (Demo.ext 3)
      (Demo.keyword_req false) [(["cafe"], [])] Demo.world_include_only
    = (Ok {| ds_type := Some "FeatureCollection";
             ds_features :=
               Some [delete_id (Demo.place "p1" "Cafe One");
                     delete_id (Demo.place "p2" "Cafe Two")];
             ds_properties := Some ["id"; "name"] |},
       replay Demo.world_include_only
         [ELoadDataset "all:cafe"; ELoadDataset "part:cafe,!";
          ELoadDataset "part:!";
          EStoreDataset "all:cafe"
            {| ds_type := Some "FeatureCollection";
               ds_features := Some [Demo.place "p1" "Cafe One";
                                    Demo.place "p2" "Cafe Two"];
               ds_properties := Some ["id"; "name"] |}]))
    by reflexivity.
  split; [exact Hrun|].
  pose proof (id_is_deleted_unless_ids_only Z Demo.conf (Demo.ext 3)
                (Demo.keyword_req false) [(["cafe"], [])]
                Demo.world_include_only _ _ Hrun)
    as [_ Hfresh].
  destruct (Hfresh eq_refl) as (combined & Hids & Hstored & Hdel & _).
  destruct (Hdel eq_refl) as [Hmap Hnone].
  exists combined. split; [exact Hids|]. split; [exact Hstored|].
  split; [exact Hmap|].
  apply (Hnone (delete_id (Demo.place "p1" "Cafe One"))).
  left. reflexivity.
Defined.

(** C3, as stated, fails on persistence: with the include dataset
    present and nothing found for the excluded term, the partial
    dataset is the include dataset, it has two records, and nothing is
    stored under the partial fingerprint. *)
Lemma partial_not_persisted_counterexample :
  fst (rebuild_partial (Demo.ext 3) (Demo.keyword_req true) [] []
         (["cafe"], ["drive"]) Demo.world_include_only)
  = Ok [("part:cafe,!drive,", Demo.cafes)]
  /\ fst (fetch_text_search_ggl_maps_api Demo.conf (Demo.ext 3)
            (Demo.keyword_req true) [(["cafe"], ["drive"])]
            Demo.world_include_only)
     = Ok Demo.cafes
  /\ dict_get
       (datasets_db
          (snd (fetch_text_search_ggl_maps_api Demo.conf (Demo.ext 3)
                  (Demo.keyword_req true) [(["cafe"], ["drive"])]
                  Demo.world_include_only)))
       "part:cafe,!drive," = None
  /\ count_events (stores_under "part:cafe,!drive,")
       (trace
          (snd (fetch_text_search_ggl_maps_api Demo.conf (Demo.ext 3)
                  (Demo.keyword_req true) [(["cafe"], ["drive"])]
                  Demo.world_include_only))) = 0%nat
  /\ count_events (stores_under "all:cafe")
       (trace
          (snd (fetch_text_search_ggl_maps_api Demo.conf (Demo.ext 3)
                  (Demo.keyword_req true) [(["cafe"], ["drive"])]
                  Demo.world_include_only))) = 1%nat.
Proof.
  repeat split; reflexivity.
Qed.

Lemma rebuild_partial_witness :
  rebuild_partial (Demo.ext 3) (Demo.keyword_req true) [] []
    (["cafe"], ["drive"]) Demo.world_both_parts
  = (Ok [("part:cafe,!drive,",
          {| ds_type := Some "FeatureCollection";
             ds_features := Some [Demo.place "p1" "Cafe One"];
             ds_properties := Some ["id"; "name"] |})],
     replay Demo.world_both_parts
       [ELoadDataset "part:cafe,!"; ELoadDataset "part:!drive,";
        EStoreDataset "part:cafe,!drive,"
          {| ds_type := Some "FeatureCollection";
             ds_features := Some [Demo.place "p1" "Cafe One"];
             ds_properties := Some ["id"; "name"] |}]).
Proof.
  pose proof (rebuild_partial_cases Z (Demo.ext 3) (Demo.keyword_req true)
                [] [] ["cafe"] ["drive"] Demo.world_both_parts)
    as (_ & _ & Hboth).
  refine (proj1 (Hboth Demo.cafes Demo.drive_thrus
                   [Demo.place "p1" "Cafe One"; Demo.place "p2" "Cafe Two"]
                   [Demo.place "p2" "Cafe Two"; Demo.nameless;
                    Demo.place "p9" "Burger Nine"]
                   eq_refl eq_refl eq_refl eq_refl eq_refl eq_refl _ _) _).
  - repeat constructor; discriminate.
  - repeat constructor; discriminate.
  - discriminate.
Defined.



(** With keyword search and [ids_and_location_only] unset, the [id] of a
    failure placeholder has been deleted by the time the sentinel
    filter looks for ["n/a"], and the placeholder is returned. *)
Example placeholder_without_id_is_returned :
  fst (fetch_ggl_nearby Demo.conf (Demo.ext 3) (Demo.keyword_req false)
         Demo.world_down)
  = Ok {| nr_dataset :=
            {| ds_type := Some "FeatureCollection";
               ds_features :=
                 Some [{| ft_type := Some (VStr "Feature");
                          ft_geometry := Some VNone;
                          ft_properties :=
                            Some [("name",
                                   VStr "Faild to retreive data 429")] |}];
               ds_properties := Some ["id"; "name"] |};
          nr_bknd_dataset_id := "all:cafe";
          nr_next_page_token := "";
          nr_plan_name := "";
          nr_next_plan_index := 1 |}.
Proof. vm_compute. reflexivity. Qed.


(** C8, as stated, fails on the flag: the stored cafes have no photos,
    so the validity filter drops them all and the dataset returned is
    empty, yet the step is marked as a success. *)
Lemma marked_before_validity_filter_counterexample :
  fst (fetch_ggl_nearby Demo.conf (Demo.ext 3) Demo.full_data_req
         Demo.world_combined_cached)
  = Ok {| nr_dataset :=
            {| ds_type := Some "FeatureCollection";
               ds_features := Some [];
               ds_properties := Some ["id"; "name"] |};
          nr_bknd_dataset_id := "all:cafe";
          nr_next_page_token := "tok";
          nr_plan_name := "plan";
          nr_next_plan_index := 1 |}
  /\ rev (plan_log
            (snd (fetch_ggl_nearby Demo.conf (Demo.ext 3) Demo.full_data_req
                    Demo.world_combined_cached)))
     = [EProcessPlan "plan" 0; ERectifyPlan "plan" 0 1;
        EMarkPlan "plan" 0 true].
Proof.
  split; vm_compute; reflexivity.
Qed.

Lemma next_index_witness :
  keeps_action Cases.ext_skip
  /\ action Demo.full_data_req = "full data"
  /\ fst (fetch_ggl_nearby Demo.conf Cases.ext_skip Demo.full_data_req
            Demo.world_mixed_cached)
     = Ok {| nr_dataset :=
               {| ds_type := Some "FeatureCollection";
                  ds_features :=
                    Some [Demo.photo_place "p1"; Demo.photo_place "p2"];
                  ds_properties := Some ["id"; "photos"] |};
             nr_bknd_dataset_id := "all:cafe";
             nr_next_page_token := "tok";
             nr_plan_name := "plan";
             nr_next_plan_index := 3 |}
  /\ exists v w1 raw stripped recent earlier valid,
       plan_loop Demo.conf Cases.ext_skip 30
         (search_type Demo.full_data_req) (initial_vars Demo.full_data_req)
         Demo.world_mixed_cached
       = (Ok v, w1)
       /\ pv_dataset v = Some raw
       /\ strip_sentinels (features_or_nil raw) [] = Ok stripped
       /\ stripped = filter is_clean (features_or_nil raw)
       /\ plan_log
            (snd (fetch_ggl_nearby Demo.conf Cases.ext_skip
                    Demo.full_data_req Demo.world_mixed_cached))
          = recent ++ plan_log Demo.world_mixed_cached
       /\ 3 = Z.max (last_rectified recent) (last_planned recent + 1)
       /\ recent
          = EMarkPlan "plan" (last_planned recent)
              (Nat.ltb 0 (length stripped)) :: earlier
       /\ "plan" = last_plan_name recent
       /\ plans
            (snd (fetch_ggl_nearby Demo.conf Cases.ext_skip
                    Demo.full_data_req Demo.world_mixed_cached))
          = mark_plan_result Cases.ext_skip "plan" (last_planned recent)
              (Nat.ltb 0 (length stripped))
              (if ds_truthy raw
                  && Nat.ltb (length (features_or_nil raw)) 20
               then snd (rectify_plan Cases.ext_skip "plan"
                           (last_planned recent) (plans w1))
               else plans w1)
       /\ action (pv_req v) = "full data"
       /\ filter_ggl_data_valid_locations Cases.ext_skip (pv_req v)
            {| ds_type := ds_type raw;
               ds_features := Some stripped;
               ds_properties := ds_properties raw |} = Ok valid
       /\ {| ds_type := Some "FeatureCollection";
             ds_features :=
               Some [Demo.photo_place "p1"; Demo.photo_place "p2"];
             ds_properties := Some ["id"; "photos"] |}
          = if include_only_sub_properties (pv_req v)
            then select_sub_properties valid
            else valid.
Proof.
  assert (Hkeeps : keeps_action Cases.ext_skip)
    by (intros req p; reflexivity).
  split; [exact Hkeeps|]. split; [reflexivity|].
  split; [vm_compute; reflexivity|].
  exact (next_index_is_max_and_step_is_marked Z Demo.conf Cases.ext_skip
           Demo.full_data_req Demo.world_mixed_cached
           (snd (fetch_ggl_nearby Demo.conf Cases.ext_skip Demo.full_data_req
                   Demo.world_mixed_cached))
           {| nr_dataset :=
                {| ds_type := Some "FeatureCollection";
                   ds_features :=
                     Some [Demo.photo_place "p1"; Demo.photo_place "p2"];
                   ds_properties := Some ["id"; "photos"] |};
              nr_bknd_dataset_id := "all:cafe";
              nr_next_page_token := "tok";
              nr_plan_name := "plan";
              nr_next_plan_index := 3 |}
           Hkeeps eq_refl eq_refl).
Defined.

(* ------------------------------------------------------------------ *)
(** ** Bounds and outcomes of the two retry loops *)

Section RetryBounds.

Variable PlanStore : Type.
Variable conf : Conf.
Variable ext : Externals PlanStore.

Local Notation W := (World PlanStore).

(** The events between [tr] and the longer trace [t], newest first. *)
Ltac newest_first t tr :=
  lazymatch t with
  | tr => constr:(@nil Event)
  | ?e :: ?t' => let r := newest_first t' tr in constr:(e :: r)
  end.

Ltac give_events :=
  lazymatch goal with
  | |- exists events,
        @Build_World _ _ _ _ _ _ _ ?t
        = replay (@Build_World _ _ _ _ _ _ _ ?tr) events /\ _ =>
      let r := newest_first t tr in
      exists (rev r); split; [reflexivity|]
  end.

Lemma post_cases (w : W) url headers payload :
  test_mode conf = false ->
  exists events,
    snd (make_post_api_call conf ext url headers (Some payload) w)
    = replay w events
    /\ forallb is_sleep_or_post events = true
    /\ (count_events is_http events <= 5)%nat
    /\ Qle (total_sleep events) (21 # 2)
    /\ ((exists k u h d,
            count_events is_http events = S k
            /\ status (post_oracle w (k + http_calls w)%nat u h d) = 200
            /\ fst (make_post_api_call conf ext url headers (Some payload) w)
               = places_of (post_oracle w (k + http_calls w)%nat u h d))
        \/ (count_events is_http events = 5%nat
            /\ exists st,
                 st <> 200
                 /\ fst (make_post_api_call conf ext url headers
                           (Some payload) w)
                    = Ok (VList (repeat (sentinel st) 20)))).
Proof.
  intros Htest. unfold make_post_api_call. rewrite Htest.
  destruct w as [db dd po go n pl tr].
  cbn -[MIN_DELAY retry_delay total_sleep].
  repeat
    (match goal with
     | |- context [status ?r =? 200] =>
         destruct (status r =? 200) eqn:?
     end;
     cbn -[MIN_DELAY retry_delay total_sleep]).
  all: give_events.
  all: split; [reflexivity|].
  all: split; [cbn; lia|].
  all: split; [vm_compute; discriminate|].
  all: cbn [count_events filter is_http length rev app
              post_oracle http_calls].
  all: try (left; do 4 eexists; split; [reflexivity|]; split;
            [apply Z.eqb_eq; eassumption | reflexivity]).
  right. split; [reflexivity|]. eexists. split; [|reflexivity].
  apply Z.eqb_neq. eassumption.
Qed.


Lemma replay_http_calls events : forall (w : W),
  http_calls (replay w events)
  = (count_events is_http events + http_calls w)%nat.
Proof.
  induction events as [|e events IH]; intros w; [reflexivity|].
  cbn [replay fold_left]. fold (replay (replay_event w e) events).
  rewrite IH. unfold count_events. cbn [filter].
  destruct e; cbn; lia.
Qed.

Lemma no_store_among_posts events :
  forallb is_sleep_or_post events = true ->
  forallb (fun e => negb (is_store_event e)) events = true.
Proof.
  intros H. rewrite forallb_forall in *. intros e He.
  specialize (H e He). now destruct e.
Qed.


(** X1.  Whatever the provider answers, one [make_post_api_call] only
    sleeps and posts: it sends at most five requests, sleeps at most
    10.5 seconds in all, and leaves both stores as they were. *)
Theorem post_call_is_bounded (w : W) url headers payload :
  test_mode conf = false ->
  exists events,
    snd (make_post_api_call conf ext url headers (Some payload) w)
    = replay w events
    /\ forallb is_sleep_or_post events = true
    /\ (count_events is_http events <= 5)%nat
    /\ Qle (total_sleep events) (21 # 2)
    /\ datasets_db (replay w events) = datasets_db w
    /\ details_db (replay w events) = details_db w.
Proof.
  intros Htest.
  destruct (post_cases w url headers payload Htest)
    as (events & Hrun & Honly & Hcount & Hsleep & _).
  exists events. repeat split; try assumption;
    now apply replay_stores, no_store_among_posts.
Qed.

(** X2.  [make_post_api_call] returns the places of a 200 answer, read
    with [get("places", [])] (an error when the body is no dictionary),
    after as many requests as it took to get that answer; it returns
    the sentinel batch only when five requests have been sent. *)
Theorem post_call_outcome (w : W) url headers payload :
  test_mode conf = false ->
  (exists k u h d,
      (k < 5)%nat
      /\ http_calls (snd (make_post_api_call conf ext url headers
                            (Some payload) w))
         = (S k + http_calls w)%nat
      /\ status (post_oracle w (k + http_calls w)%nat u h d) = 200
      /\ fst (make_post_api_call conf ext url headers (Some payload) w)
         = places_of (post_oracle w (k + http_calls w)%nat u h d))
  \/ (http_calls (snd (make_post_api_call conf ext url headers
                         (Some payload) w))
      = (5 + http_calls w)%nat
      /\ exists st,
           st <> 200
           /\ fst (make_post_api_call conf ext url headers (Some payload) w)
              = Ok (VList (repeat (sentinel st) 20))).
Proof.
  intros Htest.
  destruct (post_cases w url headers payload Htest)
    as (events & Hrun & _ & Hcount & _ & Hout).
  rewrite Hrun, replay_http_calls.
  destruct Hout as [(k & u & h & d & Hk & Hst & Hres)|(Hk & st & Hst & Hres)].
  - left. exists k, u, h, d. rewrite Hk in *. repeat split; assumption.
  - right. rewrite Hk. split; [reflexivity|]. now exists st.
Qed.


Lemma get_first_success (w : W) url headers :
  test_mode conf = false ->
  status (get_oracle w (http_calls w) url headers) = 200 ->
  make_get_api_call conf ext url headers w
  = (Ok (body (get_oracle w (http_calls w) url headers)),
     replay w [ESleep MIN_DELAY; EGet url headers]).
Proof.
  intros Htest Hget. unfold make_get_api_call. rewrite Htest.
  destruct w as [db dd po go n pl tr]. cbn in Hget.
  cbn -[MIN_DELAY]. rewrite Hget. reflexivity.
Qed.

Lemma fetch_place_details_hit (w : W) acc d place_id :
  dict_get d "id" = Some (VStr place_id) ->
  truthy (cached_details w place_id) = true ->
  fetch_place_details conf ext acc (VDict d) w
  = (Ok (acc ++ [cached_details w place_id]),
     replay w [ELoadDetails place_id]).
Proof.
  intros Hid Hhit. unfold cached_details in *.
  unfold fetch_place_details, load_place_details.
  cbn [py_get lift]. rewrite Hid.
  cbn [bind lift build_details_search_payload emit details_db].
  rewrite Hhit. reflexivity.
Qed.

(** X4.  The place-details cache works as a cache.  A place whose
    details are stored costs one look-up and no request.  A place whose
    details are not stored and whose first GET is answered 200 with a
    non-empty body has that body appended and stored, after which
    fetching the same place again is a pure cache hit with the same
    details. *)
Theorem details_cache_round_trip (w : W) acc d place_id url headers :
  test_mode conf = false ->
  dict_get d "id" = Some (VStr place_id) ->
  build_details_search_payload conf (VStr place_id) = Ok (url, headers) ->
  (truthy (cached_details w place_id) = true ->
     fetch_place_details conf ext acc (VDict d) w
     = (Ok (acc ++ [cached_details w place_id]),
        replay w [ELoadDetails place_id]))
  /\ (truthy (cached_details w place_id) = false ->
      status (get_oracle w (http_calls w) url headers) = 200 ->
      truthy (body (get_oracle w (http_calls w) url headers)) = true ->
      let details := body (get_oracle w (http_calls w) url headers) in
      let w1 :=
        replay w [ELoadDetails place_id; ESleep MIN_DELAY; EGet url headers;
                  EStoreDetails place_id details] in
      fetch_place_details conf ext acc (VDict d) w
      = (Ok (acc ++ [details]), w1)
      /\ forall acc',
           fetch_place_details conf ext acc' (VDict d) w1
           = (Ok (acc' ++ [details]), replay w1 [ELoadDetails place_id])).
Proof.
  intros Htest Hid Hbuild. split.
  - now apply fetch_place_details_hit.
  - intros Hmiss Hstatus Htruthy details w1.
    assert (Hcached : cached_details w1 place_id = details).
    { unfold cached_details, w1.
      cbn [replay fold_left replay_event details_db].
      now rewrite dict_get_set, String.eqb_refl. }
    split.
    + unfold cached_details in Hmiss.
      unfold fetch_place_details, load_place_details.
      cbn [py_get lift]. rewrite Hid.
      cbn [bind lift emit details_db]. rewrite Hbuild.
      cbn [bind lift emit details_db]. rewrite Hmiss. cbn [negb].
      match goal with
      | |- _ ?w0 = _ =>
          pose proof (get_first_success w0 url headers Htest Hstatus) as Hg;
          cbn [http_calls get_oracle] in Hg
      end.
      unfold bind. rewrite Hg, Htruthy. reflexivity.
    + intros acc'. rewrite <- Hcached at 1.
      apply fetch_place_details_hit; [assumption|].
      now rewrite Hcached.
Qed.

End RetryBounds.

(* ------------------------------------------------------------------ *)
(** ** Where the details endpoint is never used *)

Section NoDetails.

Variable PlanStore : Type.
Variable conf : Conf.
Variable ext : Externals PlanStore.

Local Notation W := (World PlanStore).

Lemma lda_ret {A} (a : A) : leaves_details_alone (ret a : M W A).
Proof. intros w. now split. Qed.

Lemma lda_raise {A} e : leaves_details_alone (raise e : M W A).
Proof. intros w. now split. Qed.

Lemma lda_lift {A} (r : result A) : leaves_details_alone (lift r : M W A).
Proof. intros w. now split. Qed.

Lemma lda_bind {A B} (c : M W A) (k : A -> M W B) :
  leaves_details_alone c -> (forall a, leaves_details_alone (k a)) ->
  leaves_details_alone (bind c k).
Proof.
  intros Hc Hk w. unfold bind. specialize (Hc w).
  destruct (c w) as [[a|e] w1]; cbn [snd] in *; [|assumption].
  destruct (Hk a w1) as [H1 H2]. destruct Hc as [H3 H4].
  split; congruence.
Qed.

Lemma lda_for_each {A B} (body : B -> A -> M W B) xs :
  (forall acc x, leaves_details_alone (body acc x)) ->
  forall acc, leaves_details_alone (for_each xs acc body).
Proof.
  intros Hbody. induction xs as [|x xs IH]; intros acc; cbn [for_each].
  - apply lda_ret.
  - apply lda_bind; [apply Hbody | intros; apply IH].
Qed.

Lemma lda_sleep d : leaves_details_alone (sleep d : M W unit).
Proof. intros w. now split. Qed.

Lemma lda_http_post url headers data :
  leaves_details_alone (http_post url headers data : M W Response).
Proof. intros w. now split. Qed.

Lemma lda_load_dataset id :
  leaves_details_alone (load_dataset id : M W (option Dataset)).
Proof. intros w. now split. Qed.

Lemma lda_store_data_resp req data id :
  leaves_details_alone (store_data_resp req data id : M W unit).
Proof. intros w. now split. Qed.

Create HintDb lda.

#[local] Hint Resolve lda_sleep lda_http_post lda_load_dataset
  lda_store_data_resp : lda.

Ltac lda_step :=
  lazymatch goal with
  | |- leaves_details_alone (bind _ _) => apply lda_bind; [|intros]
  | |- leaves_details_alone (ret _) => apply lda_ret
  | |- leaves_details_alone (raise _) => apply lda_raise
  | |- leaves_details_alone (lift _) => apply lda_lift
  | |- leaves_details_alone (for_each _ _ _) => apply lda_for_each; intros
  | |- leaves_details_alone (if ?b then _ else _) => destruct b
  | |- leaves_details_alone (match ?x with _ => _ end) => destruct x
  | |- leaves_details_alone _ => solve [auto with lda]
  end.

Ltac lda_auto := repeat lda_step.

Lemma lda_post_loop fuel : forall retry_count use_legacy url headers data,
  leaves_details_alone
    (post_loop conf ext fuel retry_count use_legacy url headers data).
Proof.
  induction fuel as [|fuel IH]; intros; cbn [post_loop]; lda_auto.
Qed.

Lemma lda_make_post_api_call url headers data :
  leaves_details_alone (make_post_api_call conf ext url headers data).
Proof.
  unfold make_post_api_call. lda_auto; try apply lda_post_loop.
Qed.

#[local] Hint Resolve lda_make_post_api_call : lda.

Lemma lda_single_ggl_cat_call req include exclude :
  leaves_details_alone (single_ggl_cat_call conf ext req include exclude).
Proof. unfold single_ggl_cat_call. lda_auto. Qed.

Lemma lda_single_ggl_text_call req text_query id :
  ids_and_location_only req = false ->
  leaves_details_alone (single_ggl_text_call conf ext req text_query id).
Proof. intros Hflag. unfold single_ggl_text_call. rewrite Hflag. lda_auto. Qed.

Lemma lda_process_and_store_to_db req id query_results :
  leaves_details_alone
    (process_and_store_to_db ext req id query_results : M W Dataset).
Proof. unfold process_and_store_to_db. lda_auto. Qed.

#[local] Hint Resolve lda_single_ggl_cat_call lda_single_ggl_text_call
  lda_process_and_store_to_db : lda.

Lemma lda_combine_and_store req id datasets strip :
  leaves_details_alone (combine_and_store req id datasets strip : M W Dataset).
Proof. unfold combine_and_store. lda_auto. Qed.

Lemma lda_lookup_full req st q :
  leaves_details_alone
    (lookup_full ext req st q
     : M W (Dict Dataset * list (string * list string * list string))).
Proof. unfold lookup_full. lda_auto. Qed.

Lemma lda_run_cat_query req results entry :
  leaves_details_alone (run_cat_query conf ext req results entry).
Proof. unfold run_cat_query. lda_auto. Qed.

Lemma lda_store_cat_result req datasets entry :
  leaves_details_alone
    (store_cat_result ext req datasets entry : M W (Dict Dataset)).
Proof. unfold store_cat_result. lda_auto. Qed.

#[local] Hint Resolve lda_combine_and_store lda_lookup_full
  lda_run_cat_query lda_store_cat_result : lda.

Lemma lda_resolve_atomic id terms st :
  leaves_details_alone
    (resolve_atomic id terms st : M W (Dict Dataset * Dict Terms)).
Proof. unfold resolve_atomic. lda_auto. Qed.

#[local] Hint Resolve lda_resolve_atomic : lda.

Lemma lda_lookup_parts req st q :
  leaves_details_alone
    (lookup_parts ext req st q : M W (Dict Dataset * Dict Terms)).
Proof. unfold lookup_parts. lda_auto. Qed.

Lemma lda_run_missing_query req responses entry :
  ids_and_location_only req = false ->
  leaves_details_alone (run_missing_query conf ext req responses entry).
Proof. intros Hflag. unfold run_missing_query. lda_auto. Qed.

Lemma lda_store_query_result req parts entry :
  leaves_details_alone
    (store_query_result ext req parts entry : M W (Dict Dataset)).
Proof. unfold store_query_result. lda_auto. Qed.

Lemma lda_part_or_load parts id :
  leaves_details_alone (part_or_load parts id : M W (option Dataset)).
Proof. unfold part_or_load. lda_auto. Qed.

#[local] Hint Resolve lda_part_or_load : lda.

Lemma lda_rebuild_partial req parts datasets q :
  leaves_details_alone
    (rebuild_partial ext req parts datasets q : M W (Dict Dataset)).
Proof. unfold rebuild_partial. lda_auto. Qed.

#[local] Hint Resolve lda_lookup_parts lda_run_missing_query
  lda_store_query_result lda_rebuild_partial : lda.

(** X5.  Category composition never uses the details endpoint: a run
    of [fetch_cat_google_maps_api] sends no GET request and neither
    reads nor writes the place-details store. *)
Theorem category_search_never_fetches_details req queries (w : W) :
  filter is_details_traffic
    (trace (snd (fetch_cat_google_maps_api conf ext req queries w)))
  = filter is_details_traffic (trace w)
  /\ details_db (snd (fetch_cat_google_maps_api conf ext req queries w))
     = details_db w.
Proof.
  revert w.
  change (leaves_details_alone
            (fetch_cat_google_maps_api conf ext req queries)).
  unfold fetch_cat_google_maps_api, compose_cat_search. lda_auto.
Qed.

(** X6.  Without [ids_and_location_only], text-search composition never
    uses the details endpoint either. *)
Theorem text_search_without_flag_never_fetches_details req queries (w : W) :
  ids_and_location_only req = false ->
  filter is_details_traffic
    (trace (snd (fetch_text_search_ggl_maps_api conf ext req queries w)))
  = filter is_details_traffic (trace w)
  /\ details_db (snd (fetch_text_search_ggl_maps_api conf ext req queries w))
     = details_db w.
Proof.
  intros Hflag. revert w.
  change (leaves_details_alone
            (fetch_text_search_ggl_maps_api conf ext req queries)).
  unfold fetch_text_search_ggl_maps_api, compose_text_search. lda_auto.
Qed.

End NoDetails.

(* ------------------------------------------------------------------ *)
(** ** More on the union and the subtraction *)

Lemma union_datasets_facts datasets combined :
  union_datasets datasets = Ok combined ->
  (exists seen,
      union_inv (all_features datasets) (features_or_nil combined) seen)
  /\ NoDup (properties_or_nil combined)
  /\ (forall p, In p (properties_or_nil combined)
                <-> exists d, In d datasets /\ In p (properties_or_nil d)).
Proof.
  unfold union_datasets. intros Hrun.
  destruct (union_loop datasets
              {| cb_features := []; cb_properties := []; seen_ids := [] |})
    as [c|e] eqn:Hloop; [|discriminate].
  inversion Hrun; subst combined. clear Hrun.
  unfold features_or_nil, properties_or_nil at 1 2.
  cbn [ds_features ds_properties].
  destruct (union_loop_inv datasets [] _ _ Hloop) as (Hinv & Hnd & Hin).
  - split; cbn; try constructor; try tauto.
  - constructor.
  - cbn [app] in Hinv. split; [now exists (seen_ids c)|].
    split; [assumption|]. intros p. rewrite Hin. cbn. tauto.
Qed.

Lemma in_all_features g datasets :
  In g (all_features datasets)
  <-> exists d, In d datasets /\ In g (features_or_nil d).
Proof.
  unfold all_features. rewrite in_concat. split.
  - intros (l & Hl & Hg). apply in_map_iff in Hl.
    destruct Hl as (d & <- & Hd). now exists d.
  - intros (d & Hd & Hg). exists (features_or_nil d).
    split; [now apply in_map | assumption].
Qed.

(** The ids of the combined dataset are the ids found in the input. *)
Lemma union_keys datasets combined :
  union_datasets datasets = Ok combined ->
  forall k,
    In (Some k) (map fkey (features_or_nil combined))
    <-> exists g, In g (all_features datasets)
                  /\ feature_id g <> VNone /\ fkey g = Some k.
Proof.
  intros Hrun k.
  destruct (union_datasets_facts _ _ Hrun)
    as ((seen & [Hids _ Hseen Hfirst Hcov]) & _ & _).
  split.
  - intros Hin. apply in_map_iff in Hin. destruct Hin as (f & Hk & Hf).
    exists f. split; [|split; [now apply Hids | assumption]].
    destruct (Hfirst f Hf) as (k' & _ & Hfind).
    apply find_some in Hfind. tauto.
  - intros (g & Hg & Hid & Hk).
    destruct (Hcov g Hg Hid) as (k' & Hk' & Hin).
    apply Hseen. congruence.
Qed.

Lemma same_members_same_length {A} (l1 l2 : list A) :
  NoDup l1 -> NoDup l2 -> (forall x, In x l1 <-> In x l2) ->
  length l1 = length l2.
Proof.
  intros H1 H2 Hiff. apply Nat.le_antisymm.
  - apply NoDup_incl_length; [assumption|]. intros x. apply Hiff.
  - apply NoDup_incl_length; [assumption|]. intros x. apply Hiff.
Qed.

(** X7.  The union does not depend on the order of the datasets as far
    as membership goes: two lists made of the same datasets give
    combined datasets with the same ids, the same number of features,
    and the same property names. *)
Theorem union_is_order_independent datasets1 datasets2 combined1 combined2 :
  (forall d, In d datasets1 <-> In d datasets2) ->
  union_datasets datasets1 = Ok combined1 ->
  union_datasets datasets2 = Ok combined2 ->
  (forall id, In id (map fkey (features_or_nil combined1))
              <-> In id (map fkey (features_or_nil combined2)))
  /\ length (features_or_nil combined1) = length (features_or_nil combined2)
  /\ (forall p, In p (properties_or_nil combined1)
                <-> In p (properties_or_nil combined2))
  /\ length (properties_or_nil combined1)
     = length (properties_or_nil combined2).
Proof.
  intros Hsame Hrun1 Hrun2.
  assert (Hall : forall g, In g (all_features datasets1)
                           <-> In g (all_features datasets2)).
  { intros g. rewrite !in_all_features. split; intros (d & Hd & Hg);
      exists d; (split; [now apply Hsame | assumption]). }
  assert (Hsome : forall c ds, union_datasets ds = Ok c ->
            forall id, In id (map fkey (features_or_nil c)) ->
              exists k, id = Some k).
  { intros c ds Hrun id Hin. apply in_map_iff in Hin.
    destruct Hin as (f & <- & Hf).
    destruct (union_datasets_facts _ _ Hrun) as ((seen & [_ _ _ Hfirst _]) & _).
    destruct (Hfirst f Hf) as (k & Hk & _). now exists k. }
  assert (Hids : forall id, In id (map fkey (features_or_nil combined1))
                            <-> In id (map fkey (features_or_nil combined2))).
  { intros id. split; intros Hin.
    - destruct (Hsome _ _ Hrun1 id Hin) as (k & ->).
      apply (union_keys _ _ Hrun1) in Hin. apply (union_keys _ _ Hrun2).
      destruct Hin as (g & Hg & Hrest). exists g. split; [now apply Hall|].
      assumption.
    - destruct (Hsome _ _ Hrun2 id Hin) as (k & ->).
      apply (union_keys _ _ Hrun2) in Hin. apply (union_keys _ _ Hrun1).
      destruct Hin as (g & Hg & Hrest). exists g. split; [now apply Hall|].
      assumption. }
  destruct (union_datasets_facts _ _ Hrun1)
    as ((seen1 & [_ Hnd1 _ _ _]) & Hpnd1 & Hp1).
  destruct (union_datasets_facts _ _ Hrun2)
    as ((seen2 & [_ Hnd2 _ _ _]) & Hpnd2 & Hp2).
  assert (Hprops : forall p, In p (properties_or_nil combined1)
                             <-> In p (properties_or_nil combined2)).
  { intros p. rewrite Hp1, Hp2. split; intros (d & Hd & Hp);
      exists d; (split; [now apply Hsame | assumption]). }
  split; [assumption|]. split.
  - rewrite <- (length_map fkey (features_or_nil combined1)).
    rewrite <- (length_map fkey (features_or_nil combined2)).
    now apply same_members_same_length.
  - split; [assumption|]. now apply same_members_same_length.
Qed.

Lemma shares_id_refl f : fkey f <> None -> shares_id f f = true.
Proof.
  unfold shares_id. destruct (fkey f) as [k|]; [|contradiction].
  intros _. now apply key_eqb_eq.
Qed.

Lemma filter_all {A} (p : A -> bool) l :
  (forall x, In x l -> p x = true) -> filter p l = l.
Proof.
  induction l as [|a l IH]; intros H; cbn; [reflexivity|].
  rewrite (H a (or_introl eq_refl)). f_equal. apply IH.
  intros x Hx. apply H. now right.
Qed.

Lemma filter_none {A} (p : A -> bool) l :
  (forall x, In x l -> p x = false) -> filter p l = [].
Proof.
  induction l as [|a l IH]; intros H; cbn; [reflexivity|].
  rewrite (H a (or_introl eq_refl)). apply IH.
  intros x Hx. apply H. now right.
Qed.

Lemma filter_twice {A} (p : A -> bool) l : filter p (filter p l) = filter p l.
Proof.
  apply filter_all. intros x Hx. apply filter_In in Hx. tauto.
Qed.

(** X8.  Laws of the subtraction, for datasets whose ids can be put in
    a set: a dataset minus itself is empty; a dataset minus one it
    shares no id with is unchanged; and subtracting the same dataset a
    second time changes nothing. *)
Theorem subtraction_laws inc exc fi fe :
  ds_features inc = Some fi ->
  ds_features exc = Some fe ->
  hashable_ids fi ->
  hashable_ids fe ->
  subtract_dataset inc inc = Ok []
  /\ ((forall f, In f fi -> id_among f fe = false) ->
        subtract_dataset inc exc = Ok fi)
  /\ (forall kept,
        subtract_dataset inc exc = Ok kept ->
        subtract_dataset
          {| ds_type := ds_type inc; ds_features := Some kept;
             ds_properties := ds_properties inc |} exc = Ok kept).
Proof.
  intros Hfi Hfe Hhi Hhe.
  split; [|split].
  - rewrite (subtract_dataset_spec inc inc fi fi Hfi Hfi Hhi Hhi).
    f_equal. apply filter_none. intros f Hf.
    unfold id_among. apply negb_false_iff, existsb_exists.
    exists f. split; [assumption|]. apply shares_id_refl.
    unfold hashable_ids in Hhi. rewrite Forall_forall in Hhi. now apply Hhi.
  - intros Hdisjoint.
    rewrite (subtract_dataset_spec inc exc fi fe Hfi Hfe Hhi Hhe).
    f_equal. apply filter_all. intros f Hf. now rewrite (Hdisjoint f Hf).
  - intros kept Hkept.
    rewrite (subtract_dataset_spec inc exc fi fe Hfi Hfe Hhi Hhe) in Hkept.
    inversion Hkept as [Hk]. rewrite Hk.
    rewrite (subtract_dataset_spec
               {| ds_type := ds_type inc; ds_features := Some kept;
                  ds_properties := ds_properties inc |}
               exc kept fe eq_refl Hfe); [| |assumption].
    + f_equal. rewrite <- Hk. apply filter_twice.
    + rewrite <- Hk. unfold hashable_ids in *. rewrite Forall_forall in *.
      intros f Hf. apply filter_In in Hf. now apply Hhi.
Qed.

Section CompositionEdges.

Variable PlanStore : Type.
Variable conf : Conf.
Variable ext : Externals PlanStore.

Local Notation W := (World PlanStore).

(** X9.  When the include and the exclude datasets are both non-empty
    dictionaries, the reconstruction iterates over [get("features")] of
    each: if either has no [features] key the tuple raises [TypeError],
    after the look-ups and without storing anything. *)
Theorem rebuild_partial_needs_features req parts datasets included excluded
    (w : W) inc exc :
  resolved w parts (make_dataset_filename_part ext req included [])
  = Some inc ->
  resolved w parts (make_dataset_filename_part ext req [] excluded)
  = Some exc ->
  ds_truthy inc = true ->
  ds_truthy exc = true ->
  ds_features exc = None
  \/ (ds_features inc = None
      /\ exists fe, ds_features exc = Some fe /\ hashable_ids fe) ->
  rebuild_partial ext req parts datasets (included, excluded) w
  = (Raise TypeError,
     replay w
       (part_loads parts (make_dataset_filename_part ext req included [])
        ++ part_loads parts (make_dataset_filename_part ext req [] excluded))).
Proof.
  intros Hinc Hexc Hti Hte Hmissing.
  destruct (rebuild_partial_resolve _ ext req parts datasets included excluded w)
    as (k & Hrun & Hk).
  cbv zeta in Hrun. rewrite Hrun, Hk, Hinc, Hexc, Hti, Hte.
  unfold subtract_dataset, features_or_raise.
  destruct Hmissing as [Hnone|(Hnone & fe & Hfe & Hh)].
  - rewrite Hnone. reflexivity.
  - rewrite Hfe, Hnone.
    destruct (collect_ids_spec fe [] Hh) as (ids & -> & _). reflexivity.
Qed.

Lemma dict_get_none_keys {A} (d : Dict A) k :
  dict_get d k = None -> ~ In k (map fst d).
Proof.
  induction d as [|[k0 v0] d IH]; cbn [dict_get map fst]; [tauto|].
  destruct (String.eqb k0 k) eqn:Hk; [discriminate|].
  intros Hnone [Heq|Hin]; [|now apply IH].
  subst k0. now rewrite String.eqb_refl in Hk.
Qed.

Lemma dict_set_new {A} (d : Dict A) k v :
  dict_get d k = None -> dict_set d k v = d ++ [(k, v)].
Proof.
  induction d as [|[k0 v0] d IH]; cbn [dict_get dict_set app]; [reflexivity|].
  destruct (String.eqb k0 k); [discriminate|].
  intros Hnone. now rewrite IH.
Qed.

Lemma in_dict_set {A} (d : Dict A) k v k' v' :
  In (k', v') (dict_set d k v) -> (k' = k /\ v' = v) \/ In (k', v') d.
Proof.
  induction d as [|[k0 v0] d IH]; cbn [dict_set].
  - intros [H|[]]. inversion H. now left.
  - destruct (String.eqb k0 k) eqn:Hk.
    + apply String.eqb_eq in Hk. subst k0.
      intros [H|H]; [inversion H; now left | right; now right].
    + intros [H|H]; [right; now left|].
      destruct (IH H) as [Hnew|Hold]; [now left | right; now right].
Qed.

Lemma loads_do_not_store loads :
  forallb is_load_event loads = true ->
  forallb (fun e => negb (is_store_event e)) loads = true.
Proof.
  intros H. rewrite forallb_forall in *. intros e He.
  specialize (H e He). now destruct e.
Qed.

Lemma lookup_inv_add_part req db parts missing id d :
  lookup_inv ext req db parts missing ->
  dict_get db id = Some d -> ds_truthy d = true ->
  lookup_inv ext req db (dict_set parts id d) missing.
Proof.
  intros [Hp Hd Ha Hat] Hget Ht. split; try assumption.
  intros id' d' Hin. apply in_dict_set in Hin.
  destruct Hin as [[-> ->]|Hin]; [now split | now apply Hp].
Qed.

Lemma lookup_inv_schedule req db parts missing id terms :
  lookup_inv ext req db parts missing ->
  dict_has missing id = false ->
  opt_truthy (dict_get db id) = false ->
  atomic_entry ext req (id, terms) ->
  lookup_inv ext req db parts (dict_set missing id terms).
Proof.
  intros [Hp Hd Ha Hat] Hnew Hfalsy Hentry.
  assert (Hnone : dict_get missing id = None)
    by (unfold dict_has in Hnew; now destruct (dict_get missing id)).
  rewrite (dict_set_new _ _ _ Hnone). split; try assumption.
  - rewrite map_app. cbn [map fst].
    apply NoDup_rev in Hd.
    rewrite <- (rev_involutive (map fst missing ++ [id])).
    apply NoDup_rev. rewrite rev_app_distr. cbn [rev app].
    constructor; [|assumption].
    rewrite <- in_rev. now apply dict_get_none_keys.
  - intros id' Hin. rewrite map_app in Hin. apply in_app_or in Hin.
    destruct Hin as [Hin|[<-|[]]]; [now apply Ha | assumption].
  - intros entry Hin. apply in_app_or in Hin.
    destruct Hin as [Hin|[<-|[]]]; [now apply Hat | assumption].
Qed.

Lemma resolve_atomic_spec req (w : W) parts missing id terms :
  lookup_inv ext req (datasets_db w) parts missing ->
  atomic_entry ext req (id, terms) ->
  exists parts' missing' loads,
    resolve_atomic id terms (parts, missing) w
    = (Ok (parts', missing'), replay w loads)
    /\ forallb is_load_event loads = true
    /\ lookup_inv ext req (datasets_db w) parts' missing'.
Proof.
  intros Hinv Hentry. unfold resolve_atomic.
  destruct (dict_has missing id) eqn:Hm; cbn [negb andb].
  { exists parts, missing, []. split; [reflexivity|]. now split. }
  destruct (dict_has parts id) eqn:Hp; cbn [negb andb].
  { exists parts, missing, []. split; [reflexivity|]. now split. }
  unfold load_dataset. cbn [bind emit datasets_db].
  destruct (dict_get (datasets_db w) id) as [d|] eqn:Hget.
  - destruct (ds_truthy d) eqn:Ht.
    + exists (dict_set parts id d), missing, [ELoadDataset id].
      split; [reflexivity|]. split; [reflexivity|].
      now apply lookup_inv_add_part.
    + exists parts, (dict_set missing id terms), [ELoadDataset id].
      split; [reflexivity|]. split; [reflexivity|].
      apply lookup_inv_schedule; try assumption.
      rewrite Hget. exact Ht.
  - exists parts, (dict_set missing id terms), [ELoadDataset id].
    split; [reflexivity|]. split; [reflexivity|].
    apply lookup_inv_schedule; try assumption. now rewrite Hget.
Qed.

Lemma lookup_parts_spec req (w : W) parts missing q :
  lookup_inv ext req (datasets_db w) parts missing ->
  exists parts' missing' loads,
    lookup_parts ext req (parts, missing) q w
    = (Ok (parts', missing'), replay w loads)
    /\ forallb is_load_event loads = true
    /\ lookup_inv ext req (datasets_db w) parts' missing'.
Proof.
  intros Hinv. destruct q as [inc exc]. unfold lookup_parts.
  unfold load_dataset at 1. cbn [bind emit datasets_db fst snd].
  set (w0 := replay w [ELoadDataset
                         (make_dataset_filename_part ext req inc exc)]).
  change (@Build_World PlanStore (datasets_db w) (details_db w)
            (post_oracle w) (get_oracle w) (http_calls w) (plans w)
            (ELoadDataset (make_dataset_filename_part ext req inc exc)
             :: trace w)) with w0.
  assert (Hdb0 : datasets_db w0 = datasets_db w) by reflexivity.
  assert (Hotherwise :
    exists parts' missing' loads,
      (st <- (if list_truthy inc
              then resolve_atomic
                     (make_dataset_filename_part ext req inc [])
                     (inc, []) (parts, missing)
              else ret (parts, missing)) ;;
       (if list_truthy exc
        then resolve_atomic
               (make_dataset_filename_part ext req [] exc) ([], exc) st
        else ret st)) w0
      = (Ok (parts', missing'), replay w loads)
      /\ forallb is_load_event loads = true
      /\ lookup_inv ext req (datasets_db w) parts' missing').
  { assert (Hstep1 :
      exists parts1 missing1 loads1,
        (if list_truthy inc
         then resolve_atomic (make_dataset_filename_part ext req inc [])
                (inc, []) (parts, missing)
         else ret (parts, missing)) w0
        = (Ok (parts1, missing1), replay w0 loads1)
        /\ forallb is_load_event loads1 = true
        /\ lookup_inv ext req (datasets_db w) parts1 missing1).
    { destruct inc as [|t inc]; cbn [list_truthy].
      - exists parts, missing, []. split; [reflexivity|]. now split.
      - rewrite <- Hdb0 in Hinv |- *.
        apply resolve_atomic_spec; [assumption|].
        left. repeat split. discriminate. }
    destruct Hstep1 as (parts1 & missing1 & loads1 & Hrun1 & Hl1 & Hinv1).
    rewrite (bind_ok Hrun1).
    assert (Hdb1 : datasets_db (replay w0 loads1) = datasets_db w).
    { rewrite <- Hdb0. now apply replay_stores, loads_do_not_store. }
    assert (Hstep2 :
      exists parts2 missing2 loads2,
        (if list_truthy exc
         then resolve_atomic (make_dataset_filename_part ext req [] exc)
                ([], exc) (parts1, missing1)
         else ret (parts1, missing1)) (replay w0 loads1)
        = (Ok (parts2, missing2), replay (replay w0 loads1) loads2)
        /\ forallb is_load_event loads2 = true
        /\ lookup_inv ext req (datasets_db w) parts2 missing2).
    { destruct exc as [|t exc]; cbn [list_truthy].
      - exists parts1, missing1, []. split; [reflexivity|]. now split.
      - rewrite <- Hdb1 in Hinv1 |- *.
        apply resolve_atomic_spec; [assumption|].
        right. repeat split. discriminate. }
    destruct Hstep2 as (parts2 & missing2 & loads2 & Hrun2 & Hl2 & Hinv2).
    exists parts2, missing2,
      ([ELoadDataset (make_dataset_filename_part ext req inc exc)]
       ++ loads1 ++ loads2).
    split.
    - rewrite Hrun2. unfold w0. now rewrite <- !replay_app.
    - split; [|assumption]. cbn [app forallb is_load_event andb].
      rewrite forallb_app. now rewrite Hl1, Hl2. }
  destruct (dict_get (datasets_db w)
              (make_dataset_filename_part ext req inc exc)) as [d|] eqn:Hget;
    [|exact Hotherwise].
  destruct (ds_truthy d) eqn:Ht; [|exact Hotherwise].
  exists (dict_set parts (make_dataset_filename_part ext req inc exc) d),
    missing, [ELoadDataset (make_dataset_filename_part ext req inc exc)].
  split; [reflexivity|]. split; [reflexivity|].
  now apply lookup_inv_add_part.
Qed.

Lemma lookup_loop_spec req queries : forall (w : W) parts missing,
  lookup_inv ext req (datasets_db w) parts missing ->
  exists parts' missing' loads,
    for_each queries (parts, missing) (lookup_parts ext req) w
    = (Ok (parts', missing'), replay w loads)
    /\ forallb is_load_event loads = true
    /\ lookup_inv ext req (datasets_db w) parts' missing'.
Proof.
  induction queries as [|q queries IH]; intros w parts missing Hinv;
    cbn [for_each].
  - exists parts, missing, []. split; [reflexivity|]. now split.
  - destruct (lookup_parts_spec req w parts missing q Hinv)
      as (parts1 & missing1 & loads1 & Hrun1 & Hl1 & Hinv1).
    rewrite (bind_ok Hrun1).
    assert (Hdb1 : datasets_db (replay w loads1) = datasets_db w)
      by (now apply replay_stores, loads_do_not_store).
    rewrite <- Hdb1 in Hinv1.
    destruct (IH _ _ _ Hinv1) as (parts2 & missing2 & loads2 & Hrun2 & Hl2 & Hinv2).
    exists parts2, missing2, (loads1 ++ loads2).
    split; [now rewrite Hrun2, <- replay_app|].
    split; [now rewrite forallb_app, Hl1, Hl2|].
    now rewrite <- Hdb1.
Qed.

(** X10.  The first loop of the text-search composition always
    completes, by store look-ups alone.  Every part it holds is what
    the store holds under that fingerprint; the fingerprints it
    schedules for fetching are distinct, have no usable entry in the
    store, and each stands for exactly one non-empty term list, so the
    choice of the query term cannot fail. *)
Theorem first_loop_schedules_each_part_once req queries (w : W) :
  exists parts missing loads,
    for_each queries ([], []) (lookup_parts ext req) w
    = (Ok (parts, missing), replay w loads)
    /\ forallb is_load_event loads = true
    /\ datasets_db (replay w loads) = datasets_db w
    /\ (forall id d, In (id, d) parts ->
          dict_get (datasets_db w) id = Some d /\ ds_truthy d = true)
    /\ NoDup (map fst missing)
    /\ (forall id, In id (map fst missing) ->
          opt_truthy (dict_get (datasets_db w) id) = false)
    /\ (forall id included excluded, In (id, (included, excluded)) missing ->
          (included <> [] /\ excluded = []
           /\ id = make_dataset_filename_part ext req included [])
          \/ (included = [] /\ excluded <> []
              /\ id = make_dataset_filename_part ext req [] excluded)).
Proof.
  destruct (lookup_loop_spec req queries w [] [])
    as (parts & missing & loads & Hrun & Hloads & [Hp Hd Ha Hat]).
  { split; cbn; try constructor; try tauto. }
  exists parts, missing, loads.
  split; [assumption|]. split; [assumption|].
  split; [now apply replay_stores, loads_do_not_store|].
  split; [assumption|]. split; [assumption|]. split; [assumption|].
  intros id inc exc Hin. exact (Hat _ Hin).
Qed.

End CompositionEdges.

(* ------------------------------------------------------------------ *)
(** ** What is stored under the combined fingerprint *)

Section CombinedStore.

Variable PlanStore : Type.
Variable conf : Conf.
Variable ext : Externals PlanStore.

Local Notation W := (World PlanStore).


Lemma union_datasets_truthy datasets combined :
  union_datasets datasets = Ok combined -> ds_truthy combined = true.
Proof.
  unfold union_datasets. destruct (union_loop _ _); [|discriminate].
  intros H. now inversion H.
Qed.

Lemma combined_hit req (w : W) cached :
  dict_get (datasets_db w) (make_dataset_filename ext req) = Some cached ->
  ds_truthy cached = true ->
  forall queries,
    fetch_cat_google_maps_api conf ext req queries w
    = (Ok cached, replay w [ELoadDataset (make_dataset_filename ext req)])
    /\ fetch_text_search_ggl_maps_api conf ext req queries w
       = (Ok cached, replay w [ELoadDataset (make_dataset_filename ext req)]).
Proof.
  intros Hcached Htruthy queries.
  unfold fetch_text_search_ggl_maps_api, fetch_cat_google_maps_api,
    load_dataset.
  cbn [bind emit datasets_db]. rewrite Hcached, Htruthy. now split.
Qed.

(** X11.  Category composition is repeatable: once a call has returned
    a dataset with at least one feature, a further call for the same
    request, on the world the first one left and whatever the query
    sequence, returns that same dataset after a single store look-up. *)
Theorem category_search_is_repeatable req queries (w w' : W) d :
  fetch_cat_google_maps_api conf ext req queries w = (Ok d, w') ->
  features_or_nil d <> [] ->
  forall queries',
    fetch_cat_google_maps_api conf ext req queries' w'
    = (Ok d, replay w' [ELoadDataset (make_dataset_filename ext req)]).
Proof.
  intros Hrun Hne queries'.
  unfold fetch_cat_google_maps_api, load_dataset in Hrun.
  cbn [bind emit datasets_db] in Hrun.
  assert (Hfresh :
    forall w0, compose_cat_search conf ext req queries
                 (make_dataset_filename ext req) w0 = (Ok d, w') ->
      dict_get (datasets_db w') (make_dataset_filename ext req) = Some d
      /\ ds_truthy d = true).
  { clear Hrun. intros w0 Hrun. unfold compose_cat_search in Hrun.
    apply bind_inv in Hrun. destruct Hrun as ([ds missing] & w1 & _ & Hrun).
    apply bind_inv in Hrun. destruct Hrun as (ds' & w2 & _ & Hrun).
    apply combine_and_store_world in Hrun.
    destruct Hrun as (combined & Hu & Hfeat & Hsame & Hstored & _).
    specialize (Hsame eq_refl). subst combined.
    rewrite (Hstored Hne). cbn [replay fold_left replay_event datasets_db].
    rewrite dict_get_set, String.eqb_refl.
    split; [reflexivity | now apply (union_datasets_truthy _ _ Hu)]. }
  assert (Hstored :
    dict_get (datasets_db w') (make_dataset_filename ext req) = Some d
    /\ ds_truthy d = true).
  { destruct (dict_get (datasets_db w) (make_dataset_filename ext req))
      as [c|] eqn:Hget; [|now apply (Hfresh _ Hrun)].
    destruct (ds_truthy c) eqn:Ht; [|now apply (Hfresh _ Hrun)].
    inversion Hrun; subst. cbn [datasets_db]. now split. }
  destruct Hstored as [Hget Ht].
  now apply (combined_hit req w' d Hget Ht queries').
Qed.

(** X12.  Text-search composition is not repeatable when
    [ids_and_location_only] is unset: a fresh call that finds features
    stores the combined dataset with its ids and returns it without
    them, so the next call, served from the store, returns features
    that all carry an [id] where the first returned none. *)
Theorem text_search_returns_ids_only_from_cache req queries (w w' : W) d :
  fetch_text_search_ggl_maps_api conf ext req queries w = (Ok d, w') ->
  opt_truthy (dict_get (datasets_db w) (make_dataset_filename ext req))
  = false ->
  ids_and_location_only req = false ->
  features_or_nil d <> [] ->
  (forall f, In f (features_or_nil d) -> feature_id f = VNone)
  /\ exists stored,
       dict_get (datasets_db w') (make_dataset_filename ext req) = Some stored
       /\ features_or_nil d = map delete_id (features_or_nil stored)
       /\ (forall f, In f (features_or_nil stored) -> feature_id f <> VNone)
       /\ forall queries',
            fetch_text_search_ggl_maps_api conf ext req queries' w'
            = (Ok stored,
               replay w' [ELoadDataset (make_dataset_filename ext req)]).
Proof.
  intros Hrun Hmiss Hflag Hne.
  unfold fetch_text_search_ggl_maps_api, load_dataset in Hrun.
  cbn [bind emit datasets_db] in Hrun.
  assert (Hfresh :
    exists w0, compose_text_search conf ext req queries
                 (make_dataset_filename ext req) w0 = (Ok d, w')).
  { destruct (dict_get (datasets_db w) (make_dataset_filename ext req))
      as [c|]; [|eexists; exact Hrun].
    cbn [opt_truthy] in Hmiss. rewrite Hmiss in Hrun. eexists. exact Hrun. }
  clear Hrun. destruct Hfresh as (w0 & Hrun).
  unfold compose_text_search in Hrun.
  apply bind_inv in Hrun. destruct Hrun as ([parts missing] & w1 & _ & Hrun).
  apply bind_inv in Hrun. destruct Hrun as (parts' & w2 & _ & Hrun).
  apply bind_inv in Hrun. destruct Hrun as (datasets & w3 & _ & Hrun).
  rewrite Hflag in Hrun. cbn [negb] in Hrun.
  apply combine_and_store_world in Hrun.
  destruct Hrun as (combined & Hu & Hfeat & _ & Hstored & _).
  assert (Hcne : features_or_nil combined <> []).
  { intros Hnil. rewrite Hnil in Hfeat. cbn in Hfeat. contradiction. }
  split.
  { intros f Hf. rewrite Hfeat in Hf. apply in_map_iff in Hf.
    destruct Hf as (f0 & <- & _). apply delete_id_spec. }
  exists combined.
  assert (Hget :
    dict_get (datasets_db w') (make_dataset_filename ext req) = Some combined).
  { rewrite (Hstored Hcne). cbn [replay fold_left replay_event datasets_db].
    now rewrite dict_get_set, String.eqb_refl. }
  split; [assumption|]. split; [assumption|]. split.
  - intros f Hf. now apply (union_datasets_ids _ _ Hu).
  - intros queries'.
    apply (combined_hit req w' combined Hget
             (union_datasets_truthy _ _ Hu) queries').
Qed.

End CombinedStore.

(* ------------------------------------------------------------------ *)
(** ** Dispatch and result filters *)

Section Filters.

Variable PlanStore : Type.
Variable conf : Conf.
Variable ext : Externals PlanStore.

Local Notation W := (World PlanStore).

(** X13.  [query_ggl] dispatches on substrings of the search type.  A
    search type naming none of the three kinds raises
    [UnboundLocalError] without any effect.  One that does not contain
    ["keyword_search"], such as ["default"], runs the category search
    only.  One that contains both kinds runs both, and the text-search
    result replaces the category result. *)
Theorem query_ggl_dispatch req search_type (w : W) :
  let cat_queries :=
    optimize_query_sequence ext
      (fst (separate_boolean_queries ext (boolean_query req))) in
  let kw_queries :=
    text_search_query_sequence ext
      (snd (separate_boolean_queries ext (boolean_query req))) in
  let category :=
    contains "default" search_type || contains "category_search" search_type in
  let keyword := contains "keyword_search" search_type in
  (category = false -> keyword = false ->
     query_ggl conf ext req search_type w = (Raise UnboundLocalError, w))
  /\ (category = true -> keyword = false ->
        query_ggl conf ext req search_type w
        = fetch_cat_google_maps_api conf ext req cat_queries w)
  /\ (category = true -> keyword = true ->
        forall d w1,
          fetch_cat_google_maps_api conf ext req cat_queries w = (Ok d, w1) ->
          query_ggl conf ext req search_type w
          = fetch_text_search_ggl_maps_api conf ext req kw_queries w1)
  /\ query_ggl conf ext req "default" w
     = fetch_cat_google_maps_api conf ext req cat_queries w.
Proof.
  intros cat_queries kw_queries category keyword.
  assert (Hcat_only :
            forall st,
              contains "default" st || contains "category_search" st = true ->
              contains "keyword_search" st = false ->
              query_ggl conf ext req st w
              = fetch_cat_google_maps_api conf ext req cat_queries w).
  { intros st Hc Hk. unfold query_ggl, cat_queries.
    destruct (separate_boolean_queries ext (boolean_query req)) as [cb kb].
    rewrite Hc, Hk. cbn [fst]. unfold bind, ret.
    now destruct (fetch_cat_google_maps_api conf ext req
                    (optimize_query_sequence ext cb) w) as [[d|e] w1]. }
  split; [|split; [|split]].
  - intros Hc Hk. unfold query_ggl. subst category keyword.
    destruct (separate_boolean_queries ext (boolean_query req)) as [cb kb].
    now rewrite Hc, Hk.
  - intros Hc Hk. now apply Hcat_only.
  - intros Hc Hk d w1 Hrun. unfold query_ggl. subst category keyword.
    unfold cat_queries, kw_queries in *.
    destruct (separate_boolean_queries ext (boolean_query req)) as [cb kb].
    rewrite Hc, Hk. cbn [fst snd] in *.
    unfold bind, ret. rewrite Hrun.
    now destruct (fetch_text_search_ggl_maps_api conf ext req
                    (text_search_query_sequence ext kb) w1) as [[d'|e] w2].
  - now apply Hcat_only.
Qed.

Lemma strip_sentinels_filter features : forall acc,
  Forall (fun f => ft_properties f <> None) features ->
  strip_sentinels features acc = Ok (acc ++ filter is_clean features).
Proof.
  induction features as [|f features IH]; intros acc Hall;
    cbn [strip_sentinels filter].
  - now rewrite app_nil_r.
  - inversion Hall as [|? ? Hf Hrest]; subst. unfold is_clean at 1.
    destruct (ft_properties f) as [props|]; [|contradiction].
    destruct (not_sentinel props).
    + rewrite IH by assumption. now rewrite <- app_assoc.
    + now apply IH.
Qed.

Lemma strip_sentinels_key_error features : forall acc,
  Exists (fun f => ft_properties f = None) features ->
  strip_sentinels features acc = Raise KeyError.
Proof.
  induction features as [|f features IH]; intros acc Hex;
    cbn [strip_sentinels].
  - inversion Hex.
  - destruct (ft_properties f) as [props|] eqn:Hp; [|reflexivity].
    inversion Hex as [? ? Hf|? ? Hrest]; subst; [congruence|].
    destruct (not_sentinel props); now apply IH.
Qed.

(** X14.  The sentinel filter reads [feature["properties"]] without a
    default.  When every feature has properties it keeps, in order,
    those whose [id] is not ["n/a"].  When one feature has none, the
    tail of [fetch_ggl_nearby] raises [KeyError]: the plan step is left
    unmarked, though a below-threshold rectification may already have
    been made. *)
Theorem sentinel_filter_needs_properties v (w : W) raw token bknd :
  pv_dataset v = Some raw ->
  pv_next_page_token v = Some token ->
  pv_bknd_dataset_id v = Some bknd ->
  (Forall (fun f => ft_properties f <> None) (features_or_nil raw) ->
     strip_sentinels (features_or_nil raw) []
     = Ok (filter is_clean (features_or_nil raw)))
  /\ (Exists (fun f => ft_properties f = None) (features_or_nil raw) ->
        fst (after_loop ext v w) = Raise KeyError
        /\ plan_log (snd (after_loop ext v w))
           = (if String.eqb (action (pv_req v)) "full data"
                 && ds_truthy raw
                 && Nat.ltb (length (features_or_nil raw)) 20
              then [ERectifyPlan (pv_plan_name v) (pv_current_plan_index v)
                      (fst (fst (rectify_plan ext (pv_plan_name v)
                                   (pv_current_plan_index v) (plans w))))]
              else [])
             ++ plan_log w).
Proof.
  intros Hraw Htok Hbknd. split.
  - intros Hall. now rewrite strip_sentinels_filter.
  - intros Hex. unfold after_loop. rewrite Hraw, Htok, Hbknd.
    rewrite (strip_sentinels_key_error _ [] Hex).
    destruct (String.eqb (action (pv_req v)) "full data"
              && ds_truthy raw
              && Nat.ltb (length (features_or_nil raw)) 20).
    + destruct (call_rectify_plan_spec _ ext (pv_plan_name v)
                  (pv_current_plan_index v) w)
        as (w1 & Hc & Hlog & _).
      rewrite (bind_ok Hc).
      destruct (fst (rectify_plan ext (pv_plan_name v)
                       (pv_current_plan_index v) (plans w))) as [n t].
      cbn [fst] in Hlog. cbn. now split.
    + cbn. now split.
Qed.

Lemma filter_valid_spec req features : forall acc out,
  filter_valid ext req features acc = Ok out ->
  out = acc ++ filter (passes ext req) features.
Proof.
  induction features as [|f features IH]; intros acc out Hrun;
    cbn [filter_valid filter] in *.
  - inversion Hrun. now rewrite app_nil_r.
  - unfold passes at 1.
    destruct (valid_location ext req f) as [[|]|e]; [| |discriminate].
    + rewrite (IH _ _ Hrun). now rewrite <- app_assoc.
    + now apply IH.
Qed.

(** X15.  [filter_ggl_data_valid_locations] keeps, in their order, the
    features for which the test answers yes, fills in the type
    ["FeatureCollection"] when there is none and keeps the property
    manifest.  With [include_rating_info], a feature with an integer
    review count and no phone passes exactly when the count is above 3. *)
Theorem validity_filter_spec req dataset out :
  filter_ggl_data_valid_locations ext req dataset = Ok out ->
  ds_features out
  = Some (filter (passes ext req) (features_or_nil dataset))
  /\ ds_type out
     = Some (match ds_type dataset with
             | Some t => t
             | None => "FeatureCollection"
             end)
  /\ ds_properties out = ds_properties dataset
  /\ (include_rating_info req = true ->
      forall f props n,
        ft_properties f = Some props ->
        dict_get props "user_ratings_total" = Some (VInt n) ->
        dict_get props "phone" = None ->
        passes ext req f = (n >? 3)).
Proof.
  unfold filter_ggl_data_valid_locations. intros Hrun.
  destruct (filter_valid ext req (features_or_nil dataset) [])
    as [kept|e] eqn:Hf; [|discriminate].
  inversion Hrun; subst out. cbn [ds_features ds_type ds_properties].
  apply filter_valid_spec in Hf. cbn [app] in Hf. subst kept.
  repeat split.
  intros Hrating f props n Hp Hcount Hphone.
  unfold passes, valid_location. rewrite Hrating, Hp, Hcount, Hphone.
  cbn [truthy py_int String.eqb negb orb].
  destruct (n =? 0) eqn:Hz; cbn [negb].
  - apply Z.eqb_eq in Hz. subst n. reflexivity.
  - rewrite orb_false_r. now destruct (n >? 3).
Qed.

Lemma project_ext (p p' : Dict Value) fields : forall out,
  (forall k, In k fields -> dict_get p k = dict_get p' k) ->
  fold_left
    (fun out field =>
       match dict_get p field with
       | Some v => dict_set out field v
       | None => out
       end) fields out
  = fold_left
      (fun out field =>
         match dict_get p' field with
         | Some v => dict_set out field v
         | None => out
         end) fields out.
Proof.
  induction fields as [|f fields IH]; intros out Hsame; cbn [fold_left].
  - reflexivity.
  - rewrite <- (Hsame f (or_introl eq_refl)). apply IH.
    intros k Hk. apply Hsame. now right.
Qed.

Lemma project_get props k :
  dict_get (project props) k
  = if existsb (String.eqb k) sub_property_fields
    then dict_get props k
    else None.
Proof.
  unfold project. rewrite project_fold_get. cbn [dict_get].
  destruct (existsb (String.eqb k) sub_property_fields); [|reflexivity].
  now destruct (dict_get props k).
Qed.

Lemma project_idempotent props : project (project props) = project props.
Proof.
  unfold project at 1 3. apply project_ext. intros k Hk.
  rewrite project_get.
  assert (existsb (String.eqb k) sub_property_fields = true) as ->.
  { apply existsb_exists. exists k. split; [assumption|].
    apply String.eqb_refl. }
  reflexivity.
Qed.

(** X16.  [select_sub_properties] keeps every feature and its geometry
    and, of its properties, exactly those on the allow-list, with their
    values; applying it twice is the same as applying it once. *)
Theorem projection_keeps_the_allow_list dataset :
  length (features_or_nil (select_sub_properties dataset))
  = length (features_or_nil dataset)
  /\ (forall f', In f' (features_or_nil (select_sub_properties dataset)) ->
        exists f,
          In f (features_or_nil dataset)
          /\ ft_geometry f'
             = Some (match ft_geometry f with Some g => g | None => VNone end)
          /\ exists props',
               ft_properties f' = Some props'
               /\ forall k,
                    dict_get props' k
                    = if existsb (String.eqb k) sub_property_fields
                      then dict_get (match ft_properties f with
                                     | Some p => p
                                     | None => []
                                     end) k
                      else None)
  /\ select_sub_properties (select_sub_properties dataset)
     = select_sub_properties dataset.
Proof.
  split; [|split].
  - unfold select_sub_properties, features_or_nil at 1. cbn [ds_features].
    apply length_map.
  - unfold select_sub_properties, features_or_nil at 1. cbn [ds_features].
    intros f' Hin. apply in_map_iff in Hin. destruct Hin as (f & <- & Hf).
    exists f. split; [assumption|]. cbn [ft_geometry ft_properties].
    split; [reflexivity|]. eexists. split; [reflexivity|].
    intros k. apply project_get.
  - unfold select_sub_properties.
    cbn [ds_type ds_properties features_or_nil ds_features].
    f_equal. f_equal. rewrite map_map. apply map_ext. intros f.
    cbn [ft_type ft_geometry ft_properties]. f_equal. f_equal.
    apply project_idempotent.
Qed.

End Filters.

(* ------------------------------------------------------------------ *)
(** ** Bounds on the planner *)

Section PlannerBounds.

Variable PlanStore : Type.
Variable conf : Conf.
Variable ext : Externals PlanStore.

Local Notation W := (World PlanStore).

Variable p : Event -> bool.
Hypothesis p_plan : forall e, p e = true -> is_plan_event e = true.

Lemma count_in_plan_log (events : list Event) :
  count_events p events = count_events p (filter is_plan_event events).
Proof.
  unfold count_events. induction events as [|e events IH]; cbn [filter].
  - reflexivity.
  - destruct (p e) eqn:Hp.
    + rewrite (p_plan e Hp). cbn [filter]. rewrite Hp. cbn [length].
      now rewrite IH.
    + destruct (is_plan_event e); cbn [filter]; [rewrite Hp|]; exact IH.
Qed.

Lemma quiet_adds_nothing {A} (c : M W A) : quiet c -> adds_at_most p 0 c.
Proof.
  intros Hq w. destruct (Hq w) as [Hlog _].
  rewrite (count_in_plan_log (trace (snd (c w)))).
  rewrite (count_in_plan_log (trace w)).
  fold (plan_log (snd (c w))). fold (plan_log w). rewrite Hlog. lia.
Qed.

Lemma adds_bind {A B} n m (c : M W A) (k : A -> M W B) :
  adds_at_most p n c ->
  (forall a, adds_at_most p m (k a)) ->
  adds_at_most p (n + m) (bind c k).
Proof.
  intros Hc Hk w. unfold bind. specialize (Hc w).
  destruct (c w) as [[a|e] w1]; cbn [snd] in *.
  - specialize (Hk a w1). lia.
  - lia.
Qed.

Lemma adds_ret {A} (a : A) : adds_at_most p 0 (ret a : M W A).
Proof. intros w. cbn. lia. Qed.

Lemma adds_lift {A} (r : result A) : adds_at_most p 0 (lift r : M W A).
Proof. intros w. unfold lift. destruct r; cbn; lia. Qed.

Lemma adds_raise {A} e : adds_at_most p 0 (raise e : M W A).
Proof. intros w. cbn. lia. Qed.

Lemma adds_weaken {A} n m (c : M W A) :
  (n <= m)%nat -> adds_at_most p n c -> adds_at_most p m c.
Proof. intros Hle Hc w. specialize (Hc w). lia. Qed.

Variables np nr nm : nat.
Hypothesis process_weight :
  forall name idx, ((if p (EProcessPlan name idx) then 1 else 0) <= np)%nat.
Hypothesis rectify_weight :
  forall name idx next,
    ((if p (ERectifyPlan name idx next) then 1 else 0) <= nr)%nat.
Hypothesis mark_weight :
  forall name idx flag,
    ((if p (EMarkPlan name idx flag) then 1 else 0) <= nm)%nat.

Lemma adds_call_rectify_plan plan_name idx :
  adds_at_most p nr (call_rectify_plan ext plan_name idx : M W (Z * string)).
Proof.
  intros w. unfold call_rectify_plan, bind, on_plans, emit, ret, count_events.
  destruct (rectify_plan ext plan_name idx (plans w)) as [r q].
  cbn [snd trace filter fst].
  pose proof (rectify_weight plan_name idx (fst r)) as Hw.
  destruct (p (ERectifyPlan plan_name idx (fst r))); cbn [length]; lia.
Qed.

Lemma adds_call_mark_plan_result plan_name idx flag :
  adds_at_most p nm (call_mark_plan_result ext plan_name idx flag : M W unit).
Proof.
  intros w. unfold call_mark_plan_result, bind, on_plans, emit, count_events.
  cbn [snd trace filter fst].
  pose proof (mark_weight plan_name idx flag) as Hw.
  destruct (p (EMarkPlan plan_name idx flag)); cbn [length]; lia.
Qed.

Lemma adds_plan_iteration search_type v :
  adds_at_most p (np + nr) (plan_iteration conf ext search_type v).
Proof.
  unfold plan_iteration.
  apply (adds_bind np nr).
  - destruct (String.eqb (action (pv_req v)) "full data").
    + intros w. unfold bind, on_plans, emit, ret, count_events.
      destruct (process_req_plan ext (pv_req v) (plans w))
        as [[[[[req' name] tok] idx] bk] q].
      cbn [snd trace filter].
      pose proof (process_weight name idx) as Hw.
      destruct (p (EProcessPlan name idx)); cbn [length]; lia.
    + apply (adds_weaken 0); [lia|]. apply adds_ret.
  - intros [[[req name] tok] idx].
    apply (adds_bind 0 nr).
    + apply quiet_adds_nothing. apply quiet_query_ggl.
    + intros dataset.
      destruct (String.eqb (action req) "full data");
        [destruct (ds_truthy dataset);
         [destruct (Nat.eqb (length (features_or_nil dataset)) 0)|]|];
        try (apply (adds_weaken 0); [lia|]; apply adds_ret).
      replace nr with (nr + 0)%nat by lia.
      apply adds_bind; [apply adds_call_rectify_plan|].
      intros [n t]. destruct (n =? -1); apply adds_ret.
Qed.

Lemma adds_plan_loop search_type rounds : forall v,
  adds_at_most p (rounds * (np + nr))
    (plan_loop conf ext rounds search_type v).
Proof.
  induction rounds as [|rounds IH]; intros v; cbn [plan_loop].
  - apply adds_ret.
  - change (S rounds * (np + nr))%nat
      with ((np + nr) + rounds * (np + nr))%nat.
    apply adds_bind; [apply adds_plan_iteration|].
    intros [brk v']. cbn [fst snd]. destruct brk.
    + apply (adds_weaken 0); [lia|]. apply adds_ret.
    + apply IH.
Qed.

Lemma adds_after_loop v :
  adds_at_most p (nr + nm) (after_loop ext v : M W NearbyResult).
Proof.
  unfold after_loop.
  destruct (pv_dataset v) as [dataset|];
    [|apply (adds_weaken 0); [lia|]; apply adds_raise].
  destruct (pv_next_page_token v) as [tok|];
    [|apply (adds_weaken 0); [lia|]; apply adds_raise].
  destruct (pv_bknd_dataset_id v) as [bknd|];
    [|apply (adds_weaken 0); [lia|]; apply adds_raise].
  apply adds_bind.
  - destruct (String.eqb (action (pv_req v)) "full data"
              && ds_truthy dataset
              && Nat.ltb (length (features_or_nil dataset)) 20).
    + apply adds_call_rectify_plan.
    + apply (adds_weaken 0); [lia|]. apply adds_ret.
  - intros [n t]. replace nm with (0 + (nm + 0))%nat by lia.
    apply adds_bind; [apply adds_lift|]. intros filtered.
    apply adds_bind.
    + match goal with
      | |- context [if ?b then _ else _] => destruct b
      end.
      * apply adds_call_mark_plan_result.
      * apply (adds_weaken 0); [lia|]. apply adds_ret.
    + intros []. replace 0%nat with (0 + 0)%nat by lia.
      apply adds_bind.
      * destruct (String.eqb (action (pv_req v)) "full data");
          [apply adds_lift|apply adds_ret].
      * intros d. apply adds_ret.
Qed.

Lemma adds_fetch_ggl_nearby req :
  adds_at_most p (30 * (np + nr) + (nr + nm)) (fetch_ggl_nearby conf ext req).
Proof.
  unfold fetch_ggl_nearby. apply adds_bind.
  - apply adds_plan_loop.
  - intros v. apply adds_after_loop.
Qed.

End PlannerBounds.

Lemma process_is_plan e : is_process_plan e = true -> is_plan_event e = true.
Proof. now destruct e. Qed.

Lemma rectify_is_plan e : is_rectify_plan e = true -> is_plan_event e = true.
Proof. now destruct e. Qed.

Lemma mark_is_plan e : is_mark_plan e = true -> is_plan_event e = true.
Proof. now destruct e. Qed.

(** X17.  One call of [fetch_ggl_nearby] asks the plan generator for a
    step at most 30 times, rectifies the plan at most 31 times and marks
    at most one step, whatever the request and the provider do. *)
Theorem planner_calls_are_bounded PlanStore conf (ext : Externals PlanStore)
    req (w : World PlanStore) :
  let w' := snd (fetch_ggl_nearby conf ext req w) in
  (count_events is_process_plan (trace w')
   <= 30 + count_events is_process_plan (trace w))%nat
  /\ (count_events is_rectify_plan (trace w')
      <= 31 + count_events is_rectify_plan (trace w))%nat
  /\ (count_events is_mark_plan (trace w')
      <= 1 + count_events is_mark_plan (trace w))%nat.
Proof.
  split; [|split].
  - apply (adds_fetch_ggl_nearby PlanStore conf ext is_process_plan
             process_is_plan 1 0 0); intros; cbn; lia.
  - apply (adds_fetch_ggl_nearby PlanStore conf ext is_rectify_plan
             rectify_is_plan 0 1 0); intros; cbn; lia.
  - apply (adds_fetch_ggl_nearby PlanStore conf ext is_mark_plan
             mark_is_plan 0 0 1); intros; cbn; lia.
Qed.

(** X18.  A request whose action is ["sample"] runs a single round:
    one [query_ggl] on the bounding-box request and nothing else.  The
    plan generator is never consulted, the plan name is empty, the next
    plan index is 1, the page token is the request's own, and the
    features returned are the query's without the sentinels; the
    validity filter is not applied. *)
Theorem sample_request_runs_one_query PlanStore conf
    (ext : Externals PlanStore) req (w w' : World PlanStore) r :
  action req = "sample" ->
  action (fetch_lat_lng_bounding_box ext req) = "sample" ->
  fetch_ggl_nearby conf ext req w = (Ok r, w') ->
  let box := fetch_lat_lng_bounding_box ext req in
  exists dataset,
    query_ggl conf ext box (search_type req) w = (Ok dataset, w')
    /\ plans w' = plans w
    /\ plan_log w' = plan_log w
    /\ nr_plan_name r = ""
    /\ nr_next_plan_index r = 1
    /\ nr_next_page_token r = page_token req
    /\ nr_bknd_dataset_id r = make_dataset_filename ext box
    /\ nr_dataset r
       = (let stripped :=
            {| ds_type := ds_type dataset;
               ds_features :=
                 Some (filter is_clean (features_or_nil dataset));
               ds_properties := ds_properties dataset |} in
          if include_only_sub_properties box
          then select_sub_properties stripped
          else stripped).
Proof.
  intros Hreq Hbox Hrun box. subst box. unfold fetch_ggl_nearby in Hrun.
  apply bind_inv in Hrun. destruct Hrun as (v & w1 & Hloop & Hafter).
  change 30%nat with (S 29) in Hloop. remember 29%nat as rounds.
  cbn [plan_loop] in Hloop.
  apply bind_inv in Hloop. destruct Hloop as ([brk v'] & w2 & Hiter & Hrest).
  unfold plan_iteration in Hiter. cbn [initial_vars pv_req] in Hiter.
  rewrite Hreq in Hiter.
  change (String.eqb "sample" "full data") with false in Hiter.
  apply bind_inv in Hiter. destruct Hiter as (x & w3 & Hx & Hiter).
  unfold ret in Hx. inversion Hx; subst x w3. clear Hx.
  apply bind_inv in Hiter. destruct Hiter as (dataset & w4 & Hq & Hiter).
  rewrite Hbox in Hiter.
  change (String.eqb "sample" "full data") with false in Hiter.
  change (String.eqb "sample" "sample") with true in Hiter.
  unfold ret in Hiter. inversion Hiter; subst brk v' w4. clear Hiter.
  cbn [fst snd] in Hrest. unfold ret in Hrest.
  inversion Hrest; subst v w1. clear Hrest.
  unfold after_loop in Hafter.
  cbn [pv_dataset pv_next_page_token pv_bknd_dataset_id pv_req pv_plan_name
       pv_current_plan_index pv_next_plan_index] in Hafter.
  rewrite Hbox in Hafter.
  change (String.eqb "sample" "full data") with false in Hafter.
  cbn [andb] in Hafter.
  apply bind_inv in Hafter. destruct Hafter as (x & w3 & Hx & Hafter).
  unfold ret in Hx. inversion Hx; subst x w3. clear Hx.
  apply bind_inv in Hafter. destruct Hafter as (kept & w5 & Hstrip & Hafter).
  unfold lift in Hstrip.
  destruct (strip_sentinels (features_or_nil dataset) []) as [kept'|e] eqn:Hs;
    [|discriminate].
  inversion Hstrip; subst kept' w5. clear Hstrip.
  apply strip_sentinels_ok in Hs. cbn [app] in Hs. subst kept.
  unfold bind, ret in Hafter. inversion Hafter; subst r w'. clear Hafter.
  exists dataset. split; [exact Hq|].
  destruct (quiet_query_ggl PlanStore conf ext
              (fetch_lat_lng_bounding_box ext req) (search_type req) w)
    as [Hlog Hplans].
  rewrite Hq in Hlog, Hplans. cbn [snd] in Hlog, Hplans.
  cbn [nr_plan_name nr_next_plan_index nr_next_page_token
       nr_bknd_dataset_id nr_dataset].
  repeat split; assumption || reflexivity.
Qed.

(* ------------------------------------------------------------------ *)
(** ** Further concrete runs *)

Lemma post_call_bounded_witness :
  test_mode Demo.conf = false
  /\ exists events,
       snd (make_post_api_call Demo.conf (Demo.ext 3) "u" Demo.key_header
              (Some Demo.cafe_body) Demo.world_down)
       = replay Demo.world_down events
       /\ forallb is_sleep_or_post events = true
       /\ (count_events is_http events <= 5)%nat
       /\ Qle (total_sleep events) (21 # 2)
       /\ datasets_db (replay Demo.world_down events)
          = datasets_db Demo.world_down
       /\ details_db (replay Demo.world_down events)
          = details_db Demo.world_down.
Proof.
  split; [reflexivity|].
  apply (post_call_is_bounded Z Demo.conf (Demo.ext 3) Demo.world_down "u"
           Demo.key_header Demo.cafe_body).
  reflexivity.
Defined.

Lemma post_call_outcome_witness :
  test_mode Demo.conf = false
  /\ ((exists k u h d,
          (k < 5)%nat
          /\ http_calls (snd (make_post_api_call Demo.conf (Demo.ext 3) "u"
                                Demo.key_header (Some Demo.cafe_body)
                                Cases.world_details_up))
             = (S k + http_calls Cases.world_details_up)%nat
          /\ status (post_oracle Cases.world_details_up
                       (k + http_calls Cases.world_details_up)%nat u h d)
             = 200
          /\ fst (make_post_api_call Demo.conf (Demo.ext 3) "u"
                    Demo.key_header (Some Demo.cafe_body)
                    Cases.world_details_up)
             = places_of (post_oracle Cases.world_details_up
                            (k + http_calls Cases.world_details_up)%nat
                            u h d))
      \/ (http_calls (snd (make_post_api_call Demo.conf (Demo.ext 3) "u"
                             Demo.key_header (Some Demo.cafe_body)
                             Cases.world_details_up))
          = (5 + http_calls Cases.world_details_up)%nat
          /\ exists st,
               st <> 200
               /\ fst (make_post_api_call Demo.conf (Demo.ext 3) "u"
                         Demo.key_header (Some Demo.cafe_body)
                         Cases.world_details_up)
                  = Ok (VList (repeat (sentinel st) 20)))).
Proof.
  split; [reflexivity|].
  apply (post_call_outcome Z Demo.conf (Demo.ext 3) Cases.world_details_up
           "u" Demo.key_header Demo.cafe_body).
  reflexivity.
Defined.


Lemma details_cache_witness :
  fetch_place_details Demo.conf (Demo.ext 3) []
    (VDict [("id", VStr "p1")]) Cases.world_details_up
  = (Ok [Cases.details_p1],
     replay Cases.world_details_up
       [ELoadDetails "p1"; ESleep MIN_DELAY;
        EGet "https://places/v1/places/p1" Cases.details_headers;
        EStoreDetails "p1" Cases.details_p1])
  /\ forall acc',
       fetch_place_details Demo.conf (Demo.ext 3) acc'
         (VDict [("id", VStr "p1")])
         (replay Cases.world_details_up
            [ELoadDetails "p1"; ESleep MIN_DELAY;
             EGet "https://places/v1/places/p1" Cases.details_headers;
             EStoreDetails "p1" Cases.details_p1])
       = (Ok (acc' ++ [Cases.details_p1]),
          replay
            (replay Cases.world_details_up
               [ELoadDetails "p1"; ESleep MIN_DELAY;
                EGet "https://places/v1/places/p1" Cases.details_headers;
                EStoreDetails "p1" Cases.details_p1])
            [ELoadDetails "p1"]).
Proof.
  exact (proj2 (details_cache_round_trip Z Demo.conf (Demo.ext 3)
                  Cases.world_details_up [] [("id", VStr "p1")] "p1"
                  "https://places/v1/places/p1" Cases.details_headers
                  eq_refl eq_refl eq_refl)
           eq_refl eq_refl eq_refl).
Defined.

Lemma text_search_no_details_witness :
  ids_and_location_only (Demo.keyword_req false) = false
  /\ filter is_details_traffic
       (trace (snd (fetch_text_search_ggl_maps_api Demo.conf (Demo.ext 3)
                      (Demo.keyword_req false) [(["cafe"], [])]
                      Demo.world_details_down)))
     = filter is_details_traffic (trace Demo.world_details_down)
  /\ details_db (snd (fetch_text_search_ggl_maps_api Demo.conf (Demo.ext 3)
                        (Demo.keyword_req false) [(["cafe"], [])]
                        Demo.world_details_down))
     = details_db Demo.world_details_down.
Proof.
  split; [reflexivity|].
  apply (text_search_without_flag_never_fetches_details Z Demo.conf
           (Demo.ext 3) (Demo.keyword_req false) [(["cafe"], [])]
           Demo.world_details_down).
  reflexivity.
Defined.

Lemma union_order_witness :
  exists combined1 combined2,
    union_datasets [Demo.cafes; Demo.drive_thrus] = Ok combined1
    /\ union_datasets [Demo.drive_thrus; Demo.cafes] = Ok combined2
    /\ length (features_or_nil combined1)
       = length (features_or_nil combined2)
    /\ length (properties_or_nil combined1)
       = length (properties_or_nil combined2).
Proof.
  eexists. eexists.
  split; [vm_compute; reflexivity|]. split; [vm_compute; reflexivity|].
  assert (Hsame : forall d, In d [Demo.cafes; Demo.drive_thrus]
                            <-> In d [Demo.drive_thrus; Demo.cafes])
    by (intros d; cbn; tauto).
  match goal with
  | |- length (features_or_nil ?c1) = length (features_or_nil ?c2) /\ _ =>
      destruct (union_is_order_independent
                  [Demo.cafes; Demo.drive_thrus]
                  [Demo.drive_thrus; Demo.cafes] c1 c2 Hsame
                  eq_refl eq_refl)
        as (_ & Hfeatures & _ & Hproperties)
  end.
  split; assumption.
Defined.

Lemma subtraction_witness :
  subtract_dataset Demo.cafes Demo.cafes = Ok []
  /\ forall kept,
       subtract_dataset Demo.cafes Demo.drive_thrus = Ok kept ->
       subtract_dataset
         {| ds_type := ds_type Demo.cafes; ds_features := Some kept;
            ds_properties := ds_properties Demo.cafes |} Demo.drive_thrus
       = Ok kept.
Proof.
  destruct (subtraction_laws Demo.cafes Demo.drive_thrus
              [Demo.place "p1" "Cafe One"; Demo.place "p2" "Cafe Two"]
              [Demo.place "p2" "Cafe Two"; Demo.nameless;
               Demo.place "p9" "Burger Nine"]
              eq_refl eq_refl)
    as (Hself & _ & Hagain).
  - repeat constructor; discriminate.
  - repeat constructor; discriminate.
  - split; assumption.
Defined.

Lemma rebuild_needs_features_witness :
  rebuild_partial (Demo.ext 3) (Demo.keyword_req true) [] []
    (["cafe"], ["drive"]) Cases.world_featureless_exclude
  = (Raise TypeError,
     replay Cases.world_featureless_exclude
       [ELoadDataset "part:cafe,!"; ELoadDataset "part:!drive,"]).
Proof.
  exact (rebuild_partial_needs_features Z (Demo.ext 3)
           (Demo.keyword_req true) [] [] ["cafe"] ["drive"]
           Cases.world_featureless_exclude Demo.cafes Cases.featureless
           eq_refl eq_refl eq_refl eq_refl (or_introl eq_refl)).
Defined.

Lemma category_repeat_witness :
  exists d w',
    fetch_cat_google_maps_api Demo.conf (Demo.ext 3) (Demo.keyword_req false)
      [(["cafe"], [])] Demo.world_details_down
    = (Ok d, w')
    /\ features_or_nil d <> []
    /\ forall queries',
         fetch_cat_google_maps_api Demo.conf (Demo.ext 3)
           (Demo.keyword_req false) queries' w'
         = (Ok d,
            replay w'
              [ELoadDataset
                 (make_dataset_filename (Demo.ext 3)
                    (Demo.keyword_req false))]).
Proof.
  eexists. eexists.
  split; [vm_compute; reflexivity|]. split; [discriminate|].
  apply (category_search_is_repeatable Z Demo.conf (Demo.ext 3)
           (Demo.keyword_req false) [(["cafe"], [])]
           Demo.world_details_down).
  - vm_compute; reflexivity.
  - discriminate.
Defined.

Lemma text_repeat_witness :
  exists d w',
    fetch_text_search_ggl_maps_api Demo.conf (Demo.ext 3)
      (Demo.keyword_req false) [(["cafe"], [])] Demo.world_details_down
    = (Ok d, w')
    /\ (forall f, In f (features_or_nil d) -> feature_id f = VNone)
    /\ exists stored,
         dict_get (datasets_db w')
           (make_dataset_filename (Demo.ext 3) (Demo.keyword_req false))
         = Some stored
         /\ features_or_nil d = map delete_id (features_or_nil stored)
         /\ (forall f, In f (features_or_nil stored) ->
               feature_id f <> VNone)
         /\ forall queries',
              fetch_text_search_ggl_maps_api Demo.conf (Demo.ext 3)
                (Demo.keyword_req false) queries' w'
              = (Ok stored,
                 replay w'
                   [ELoadDataset
                      (make_dataset_filename (Demo.ext 3)
                         (Demo.keyword_req false))]).
Proof.
  eexists. eexists.
  split; [vm_compute; reflexivity|].
  apply (text_search_returns_ids_only_from_cache Z Demo.conf (Demo.ext 3)
           (Demo.keyword_req false) [(["cafe"], [])]
           Demo.world_details_down).
  - vm_compute; reflexivity.
  - reflexivity.
  - reflexivity.
  - discriminate.
Defined.

Lemma dispatch_witness :
  query_ggl Demo.conf (Demo.ext 3) (Demo.keyword_req true) "nearby"
    Demo.world_down
  = (Raise UnboundLocalError, Demo.world_down).
Proof.
  destruct (query_ggl_dispatch Z Demo.conf (Demo.ext 3)
              (Demo.keyword_req true) "nearby" Demo.world_down)
    as (Hnone & _).
  exact (Hnone eq_refl eq_refl).
Defined.

Lemma sentinel_filter_witness :
  fst (after_loop (Demo.ext 3) Cases.vars_bare Demo.world_down)
  = Raise KeyError
  /\ plan_log (snd (after_loop (Demo.ext 3) Cases.vars_bare Demo.world_down))
     = [ERectifyPlan "plan" 0 1].
Proof.
  destruct (sentinel_filter_needs_properties Z (Demo.ext 3) Cases.vars_bare
              Demo.world_down
              {| ds_type := Some "FeatureCollection";
                 ds_features := Some [Demo.photo_place "p1"; Cases.bare];
                 ds_properties := Some ["id"] |}
              "" "all:cafe" eq_refl eq_refl eq_refl)
    as (_ & Hraise).
  apply Hraise. apply Exists_cons_tl. apply Exists_cons_hd. reflexivity.
Defined.

Lemma validity_filter_witness :
  exists out,
    filter_ggl_data_valid_locations (Demo.ext 3) Demo.full_data_req Demo.mixed
    = Ok out
    /\ ds_features out
       = Some (filter (passes (Demo.ext 3) Demo.full_data_req)
                 (features_or_nil Demo.mixed))
    /\ ds_type out = Some "FeatureCollection".
Proof.
  eexists. split; [vm_compute; reflexivity|].
  match goal with
  | |- ds_features ?out = _ /\ _ =>
      destruct (validity_filter_spec Z (Demo.ext 3) Demo.full_data_req
                  Demo.mixed out eq_refl)
        as (Hfeatures & Htype & _)
  end.
  split; assumption.
Defined.

Lemma projection_witness :
  select_sub_properties (select_sub_properties Demo.cafes)
  = select_sub_properties Demo.cafes.
Proof.
  exact (proj2 (proj2 (projection_keeps_the_allow_list Demo.cafes))).
Defined.

Lemma sample_request_witness :
  exists r w',
    fetch_ggl_nearby Demo.conf (Demo.ext 3) (Demo.keyword_req true)
      Demo.world_combined_cached
    = (Ok r, w')
    /\ exists dataset,
         query_ggl Demo.conf (Demo.ext 3)
           (fetch_lat_lng_bounding_box (Demo.ext 3) (Demo.keyword_req true))
           (search_type (Demo.keyword_req true)) Demo.world_combined_cached
         = (Ok dataset, w')
         /\ plans w' = plans Demo.world_combined_cached
         /\ plan_log w' = plan_log Demo.world_combined_cached
         /\ nr_plan_name r = ""
         /\ nr_next_plan_index r = 1
         /\ nr_next_page_token r = page_token (Demo.keyword_req true)
         /\ nr_bknd_dataset_id r
            = make_dataset_filename (Demo.ext 3)
                (fetch_lat_lng_bounding_box (Demo.ext 3)
                   (Demo.keyword_req true))
         /\ nr_dataset r
            = (let stripped :=
                 {| ds_type := ds_type dataset;
                    ds_features :=
                      Some (filter is_clean (features_or_nil dataset));
                    ds_properties := ds_properties dataset |} in
               if include_only_sub_properties
                    (fetch_lat_lng_bounding_box (Demo.ext 3)
                       (Demo.keyword_req true))
               then select_sub_properties stripped
               else stripped).
Proof.
  eexists. eexists.
  split; [vm_compute; reflexivity|].
  apply (sample_request_runs_one_query Z Demo.conf (Demo.ext 3)
           (Demo.keyword_req true) Demo.world_combined_cached).
  - reflexivity.
  - reflexivity.
  - vm_compute; reflexivity.
Defined.
